(** * Speed-test server: the chunked streaming engine and its transport bindings

    A shallow embedding of the four download loops, the ping handlers and the
    upload bookkeeping of the speed-test backend:

    - [Http]          : [app.get('/api/download')], [app.get('/api/ping')] and the
                        serverless ping function;
    - [NodeWs]        : the [wss.on('connection')] handlers
                        ([handlePingTest], [handleDownloadTest]/[sendNextChunk]);
    - [DurableObject] : the [WebSocketState] class
                        ([handleMessage], [handleDownloadTest]/[sendChunk], ...);
    - [Pages]         : the message listener of [onRequestGET] ([sendNext]);
    - [Stats]         : [updateRequestStats], the counters of [/api/status]
                        and [app.post('/api/upload')];
    - [EnvFile]       : the loader of the [.env] file;
    - [Config]        : [getBaseUrl] and [getWebSocketUrl] of the client.

    Numbers are JavaScript numbers restricted to the integers ([Z]); a numeric
    request field is [option Z], [None] standing for an absent field or the
    [NaN] that [parseInt] returns.  Durations and throughputs are exact
    rationals ([Q]) inside [Js.Num], which adds the IEEE results [Infinity],
    [-Infinity] and [NaN] of a division by zero; their rounding to doubles
    and the digits [toFixed] prints of them are not modelled.  The
    percentage of a progress event is computed in doubles ([SpecFloat]) and
    carried as the text [toFixed(1)] returns.  Payload content is
    irrelevant to every property below, so a chunk is represented by its
    length.  A string is the sequence of its code units, restricted to those
    below 256. *)

From Stdlib Require Import ZArith List Lia Bool QArith Ascii String Sorted.
From Stdlib Require SpecFloat DecimalString.
Import ListNotations.
Close Scope Q_scope.
Open Scope Z_scope.

(* ------------------------------------------------------------------ *)
(** ** The JavaScript fragment the handlers rely on *)

Module Js.

Definition MiB : Z := 1024 * 1024.

(** [x || d] on a numeric field: [undefined], [NaN] and [0] are falsy. *)
Definition or_default (x : option Z) (d : Z) : Z :=
  match x with
  | Some v => if v =? 0 then d else v
  | None => d
  end.

(** The result of a floating-point division. *)
Inductive Num : Type :=
| Fin (q : Q)
| PosInf
| NegInf
| NaN.

(** [a / b] where [b], when zero, is the positive zero (every divisor in
    the handlers is a difference of integers divided by a positive
    constant, or a non-zero integer). *)
Definition div (a b : Q) : Num :=
  if Qeq_bool b 0 then
    match Qcompare a 0 with
    | Gt => PosInf
    | Lt => NegInf
    | Eq => NaN
    end
  else Fin (Qred (a / b)).

(** [n * k] for a finite positive constant [k]. *)
Definition scale (n : Num) (k : Q) : Num :=
  match n with
  | Fin q => Fin (Qred (q * k))
  | other => other
  end.

(** A JSON field whose type the code inspects with [typeof]. *)
Inductive Value : Type :=
| Undefined
| Null
| Boolean (b : bool)
| Number (n : Z)
| Str (s : string).

Definition typeof_number (v : Value) : bool :=
  match v with
  | Number _ => true
  | _ => false
  end.

(** A JSON field of which the code reads the truthiness and the [length]:
    a falsy value ([undefined], [null], [false], [0], the empty string),
    a string, an array, or an object with the integer [length] it carries
    as a member.  A truthy value whose [length] is missing or is not an
    integer (a number, [true], an object without that member) is outside
    the integers of this model: added to a counter it yields [NaN] or a
    string. *)
Inductive Data : Type :=
| Falsy
| Text (s : string)
| Elements (length : nat)
| Object (length : Z).

(** [data ? data.length : 0] *)
Definition length_or_zero (data : Data) : Z :=
  match data with
  | Falsy => 0
  | Text s => Z.of_nat (String.length s)
  | Elements n => Z.of_nat n
  | Object n => n
  end.

(** A double: IEEE 754 binary64, with the operations of [SpecFloat]. *)
Definition double : Type := SpecFloat.spec_float.

(** The double nearest to an integer (the integer itself up to 2^53). *)
Definition of_Z (z : Z) : double :=
  SpecFloat.binary_normalize 53 1024 z 0 false.

Definition fdiv (x y : double) : double := SpecFloat.SFdiv 53 1024 x y.

Definition fmul (x y : double) : double := SpecFloat.SFmul 53 1024 x y.

(** What [x.toFixed(1)] returns: a text, except from 10^21 on, where it is
    [String(x)], kept here as the number itself. *)
Inductive Fixed : Type :=
| Decimal (text : string)
| Exponential (x : double).

(** The decimal digits of a natural number. *)
Definition digits (n : Z) : string :=
  DecimalString.NilZero.string_of_uint (N.to_uint (Z.to_N n)).

(** The integer [n] for which [n / 10 - m * 2^e] is as close to zero as
    possible, the larger one when there are two. *)
Definition tenths (m : positive) (e : Z) : Z :=
  if 0 <=? e then 10 * Z.pos m * 2 ^ e
  else (20 * Z.pos m + 2 ^ (- e)) / (2 * 2 ^ (- e)).

(** [m * 2^e >= 10^21] *)
Definition at_least_1e21 (m : positive) (e : Z) : bool :=
  if 0 <=? e then 10 ^ 21 <=? Z.pos m * 2 ^ e
  else 10 ^ 21 * 2 ^ (- e) <=? Z.pos m.

(** [n] tenths written with one digit after the point. *)
Definition one_decimal (n : Z) : string :=
  append (digits (n / 10)) (append "." (digits (n mod 10))).

(** [x.toFixed(1)] *)
Definition toFixed1 (x : double) : Fixed :=
  match x with
  | SpecFloat.S754_nan => Decimal "NaN"
  | SpecFloat.S754_infinity s =>
      Decimal (if s then "-Infinity" else "Infinity")
  | SpecFloat.S754_zero _ => Decimal "0.0"
  | SpecFloat.S754_finite s m e =>
      if at_least_1e21 m e then Exponential x
      else Decimal (append (if s then "-" else "")
                           (one_decimal (tenths m e)))
  end.

End Js.

(* ------------------------------------------------------------------ *)
(** ** Metrics computed at the end of a download run *)

(** [(endTime - testStartTime) / 1000] *)
Definition duration_s (endTs startTs : Z) : Q :=
  Qred (inject_Z (endTs - startTs) / inject_Z 1000).

(** [(safeSize / (1024 * 1024)) / duration] *)
Definition throughputMBps (safeSize : Z) (duration : Q) : Js.Num :=
  Js.div (inject_Z safeSize / inject_Z Js.MiB) duration.

(** [bytesSent / safeSize * 100], in doubles. *)
Definition percent_value (bytesSent safeSize : Z) : Js.double :=
  Js.fmul (Js.fdiv (Js.of_Z bytesSent) (Js.of_Z safeSize)) (Js.of_Z 100).

(** [(bytesSent / safeSize * 100).toFixed(1)] *)
Definition percent (bytesSent safeSize : Z) : Js.Fixed :=
  Js.toFixed1 (percent_value bytesSent safeSize).

(** The test of [sendNextChunk] and [sendNext] that decides whether a
    progress frame follows a chunk; [%] is the remainder that takes the sign
    of the dividend. *)
Definition progress_due (bytesSent safeSize : Z) : bool :=
  (Z.rem bytesSent Js.MiB =? 0) || (bytesSent =? safeSize).

(* ------------------------------------------------------------------ *)
(** ** Frames, sessions and the world of one connection *)

Inductive Phase : Type := Download | Upload.

(** [sessionInfo] / [clientInfo].  [id], [connectedAt], [ip] and
    [userAgent] are written once and never read by a handler; they are left
    out.  [testPhase = None] is [null]. *)
Record Session : Type := mkSession {
  testPhase : option Phase;
  bytesTransferred : Z;
  testStartTime : option Z;
  lastActivity : option Z
}.

(** What a handler hands to its transport. *)
Inductive Frame : Type :=
| Pong (clientTimestamp serverTimestamp serverProcessingTime : Z)
| DownloadStarted (timestamp totalBytes : Z)
| Chunk (len : Z)
| DownloadProgress (timestamp bytesSent totalBytes : Z)
                   (progress : Js.Fixed)
| DownloadComplete (timestamp bytesSent : Z) (duration : Q)
                   (throughput : Js.Num)
| ChunkProgress (timestamp bytesTransferred totalBytes dataLen : Z)
| DownloadCompleteMs (timestamp totalBytes duration : Z)
| UploadReady (timestamp : Z)
| UploadAck (timestamp bytesReceived : Z) (totalBytesReceived : option Z)
| UploadComplete (timestamp received duration : Z) (throughput : Js.Num)
| TestCompleteAck (timestamp : Z)
| ErrorFrame (message : string) (timestamp : option Z)
| Header (contentLength : Z)
| Body (len : Z)
| EndOfBody.

(** The runtime the handlers run on: an external collaborator.
    - [clock k]          : the value of the [k]-th call of [Date.now()];
    - [max_alloc]        : the longest buffer [crypto.randomBytes] and
                           [new Uint8Array] accept;
    - [closed_send_throws] : whether [send] on a closed socket throws
                           (otherwise the frame is silently discarded);
    - [write_error k]    : whether the [k]-th [ws.send(chunk, .., cb)]
                           completes with an error;
    - [write_flushed k]  : the boolean returned by the [k]-th [res.write]
                           ([false] signals backpressure). *)
Record Host : Type := mkHost {
  clock : nat -> Z;
  max_alloc : Z;
  closed_send_throws : bool;
  write_error : nat -> bool;
  write_flushed : nat -> bool
}.

(** One connection as the event loop sees it.  [queue] holds the callbacks
    registered with [setTimeout], [setImmediate], [process.nextTick] or as a
    write-completion callback, oldest first; ['T] is the binding's type of
    callbacks.  [outbox] is what the transport accepted, [dropped] what was
    handed to a closed socket, oldest first. *)
Record World (T : Type) : Type := mkWorld {
  session : Session;
  queue : list T;
  outbox : list Frame;
  dropped : list Frame;
  uncaught : nat;
  reads : nat;
  writes : nat;
  alive : bool;
  registered : bool
}.

Arguments mkWorld {T} session queue outbox dropped uncaught reads writes alive registered.
Arguments session {T} w.
Arguments queue {T} w.
Arguments outbox {T} w.
Arguments dropped {T} w.
Arguments uncaught {T} w.
Arguments reads {T} w.
Arguments writes {T} w.
Arguments alive {T} w.
Arguments registered {T} w.

Inductive Outcome (A : Type) : Type :=
| Ok (a : A)
| Thrown.

Arguments Ok {A} a.
Arguments Thrown {A}.

(** Handlers: state passing with exceptions; an exception keeps the
    mutations made before it, as in JavaScript. *)
Definition M (T A : Type) : Type := World T -> Outcome A * World T.

Section Handlers.

Variable h : Host.
Variable T : Type.

Definition ret {A} (a : A) : M T A := fun w => (Ok a, w).

Definition bind {A B} (c : M T A) (k : A -> M T B) : M T B :=
  fun w =>
    match c w with
    | (Ok a, w') => k a w'
    | (Thrown, w') => (Thrown, w')
    end.

Definition throw {A} : M T A := fun w => (Thrown, w).

(** [try { body } catch (e) { handler }] *)
Definition try_catch (body handler : M T unit) : M T unit :=
  fun w =>
    match body w with
    | (Ok a, w') => (Ok a, w')
    | (Thrown, w') => handler w'
    end.

(** [Date.now()] *)
Definition now : M T Z :=
  fun w =>
    (Ok (clock h (reads w)),
     mkWorld (session w) (queue w) (outbox w) (dropped w) (uncaught w)
             (S (reads w)) (writes w) (alive w) (registered w)).

(** [x || Date.now()]: the clock is read only when [x] is falsy. *)
Definition or_now (x : option Z) : M T Z :=
  match x with
  | Some v => if v =? 0 then now else ret v
  | None => now
  end.

(** [ws.send(frame)] / [server.send(frame)] without callback. *)
Definition send (f : Frame) : M T unit :=
  fun w =>
    if alive w then
      (Ok tt,
       mkWorld (session w) (queue w) (outbox w ++ [f]) (dropped w)
               (uncaught w) (reads w) (writes w) (alive w) (registered w))
    else
      (if closed_send_throws h then Thrown else Ok tt,
       mkWorld (session w) (queue w) (outbox w) (dropped w ++ [f])
               (uncaught w) (reads w) (writes w) (alive w) (registered w)).

(** [crypto.randomBytes(n)] / [new Uint8Array(n)]: a [RangeError] outside
    [0 .. max_alloc]. *)
Definition alloc (n : Z) : M T unit :=
  if (n <? 0) || (max_alloc h <? n) then throw else ret tt.

(** [setTimeout(cb, _)], [setImmediate(cb)], [process.nextTick(cb)] *)
Definition schedule (cb : T) : M T unit :=
  fun w =>
    (Ok tt,
     mkWorld (session w) (queue w ++ [cb]) (outbox w) (dropped w)
             (uncaught w) (reads w) (writes w) (alive w) (registered w)).

(** [ws.send(chunk, { binary: true }, cb)]: the chunk is handed to the
    socket and [cb err] is called once the write has completed or failed. *)
Definition write_then (n : Z) (cb : bool -> T) : M T unit :=
  fun w =>
    let err := negb (alive w) || write_error h (writes w) in
    (Ok tt,
     mkWorld (session w) (queue w ++ [cb err])
             (if err then outbox w else outbox w ++ [Chunk n])
             (if err then dropped w ++ [Chunk n] else dropped w)
             (uncaught w) (reads w) (S (writes w)) (alive w) (registered w)).

(** [res.write(chunk)]: returns [false] under backpressure. *)
Definition write_body (n : Z) : M T bool :=
  fun w =>
    (Ok (write_flushed h (writes w)),
     mkWorld (session w) (queue w) (outbox w ++ [Body n]) (dropped w)
             (uncaught w) (reads w) (S (writes w)) (alive w) (registered w)).

(** [this.sessions.delete(server)] *)
Definition unregister : M T unit :=
  fun w =>
    (Ok tt,
     mkWorld (session w) (queue w) (outbox w) (dropped w) (uncaught w)
             (reads w) (writes w) (alive w) false).

Definition get_session : M T Session := fun w => (Ok (session w), w).

Definition set_session (s : Session) : M T unit :=
  fun w =>
    (Ok tt,
     mkWorld s (queue w) (outbox w) (dropped w) (uncaught w) (reads w)
             (writes w) (alive w) (registered w)).

End Handlers.

Arguments ret {T A} a.
Arguments bind {T A B} c k.
Arguments throw {T A}.
Arguments try_catch {T} body handler.
Arguments now h {T}.
Arguments or_now h {T} x.
Arguments send h {T} f.
Arguments alloc h {T} n.
Arguments schedule {T} cb.
Arguments write_then h {T} n cb.
Arguments write_body h {T} n.
Arguments unregister {T}.
Arguments get_session {T}.
Arguments set_session {T} s.

Declare Scope handler_scope.
Delimit Scope handler_scope with handler.
Notation "x <- c ;; k" := (bind c (fun x => k))
  (at level 61, c at next level, right associativity) : handler_scope.
Notation "c ;; k" := (bind c (fun _ => k))
  (at level 61, right associativity) : handler_scope.
Open Scope handler_scope.

(** The three assignments that open a test:
    [testPhase = p; bytesTransferred = 0; testStartTime = Date.now()]. *)
Definition enter (h : Host) {T : Type} (p : Phase) : M T unit :=
  s <- get_session ;;
  set_session (mkSession (Some p) (bytesTransferred s) (testStartTime s)
                         (lastActivity s)) ;;
  s <- get_session ;;
  set_session (mkSession (testPhase s) 0 (testStartTime s)
                         (lastActivity s)) ;;
  t <- now h ;;
  s <- get_session ;;
  set_session (mkSession (testPhase s) (bytesTransferred s) (Some t)
                         (lastActivity s)).

(** [x - sessionInfo.testStartTime]: [null] converts to [0]. *)
Definition start_of (s : Session) : Z :=
  match testStartTime s with
  | Some t => t
  | None => 0
  end.

(** What the host does with a connection: it delivers a message, runs the
    [k]-th pending callback, or closes the socket. *)
Inductive Input (Msg : Type) : Type :=
| Deliver (m : Msg)
| Fire (k : nat)
| Close.

Arguments Deliver {Msg} m.
Arguments Fire {Msg} k.
Arguments Close {Msg}.

Section EventLoop.

Variables T Msg : Type.
Variable on_message : Msg -> M T unit.
Variable run_task : T -> M T unit.
Variable on_close : M T unit.

(** The host calls a callback; an exception that escapes it is uncaught and
    ends that callback only. *)
Definition invoke (c : M T unit) (w : World T) : World T :=
  match c w with
  | (Ok _, w') => w'
  | (Thrown, w') =>
      mkWorld (session w') (queue w') (outbox w') (dropped w')
              (S (uncaught w')) (reads w') (writes w') (alive w')
              (registered w')
  end.

Fixpoint take_nth (k : nat) (l : list T) : option (T * list T) :=
  match l, k with
  | [], _ => None
  | t :: rest, O => Some (t, rest)
  | t :: rest, S k' =>
      match take_nth k' rest with
      | Some (x, rest') => Some (x, t :: rest')
      | None => None
      end
  end.

Definition step (i : Input Msg) (w : World T) : World T :=
  match i with
  | Deliver m => invoke (on_message m) w
  | Fire k =>
      match take_nth k (queue w) with
      | Some (t, rest) =>
          invoke (run_task t)
                 (mkWorld (session w) rest (outbox w) (dropped w)
                          (uncaught w) (reads w) (writes w) (alive w)
                          (registered w))
      | None => w
      end
  | Close =>
      invoke on_close
             (mkWorld (session w) (queue w) (outbox w) (dropped w)
                      (uncaught w) (reads w) (writes w) false
                      (registered w))
  end.

Fixpoint run (ins : list (Input Msg)) (w : World T) : World T :=
  match ins with
  | [] => w
  | i :: ins' => run ins' (step i w)
  end.

(** Let the event loop run the pending callbacks, oldest first, until none
    is left or [fuel] of them have run. *)
Fixpoint drain (fuel : nat) (w : World T) : World T :=
  match fuel with
  | O => w
  | S fuel' =>
      match queue w with
      | [] => w
      | _ :: _ => drain fuel' (step (Fire 0) w)
      end
  end.

End EventLoop.

Arguments invoke {T} c w.
Arguments take_nth {T} k l.
Arguments step {T Msg} on_message run_task on_close i w.
Arguments run {T Msg} on_message run_task on_close ins w.
Arguments drain {T Msg} on_message run_task on_close fuel w.

(** A connection that has just been accepted.  [t0] is what the binding
    stores in [testStartTime] at that point ([0], [null], or nothing). *)
Definition fresh (T : Type) (t0 : option Z) : World T :=
  mkWorld (mkSession None 0 t0 None) [] [] [] 0 0 0 true true.

(** Projections of a frame log. *)
Definition chunk_lengths (l : list Frame) : list Z :=
  flat_map (fun f =>
              match f with
              | Chunk n => [n]
              | ChunkProgress _ _ _ n => [n]
              | Body n => [n]
              | _ => []
              end) l.

Definition sum (l : list Z) : Z := fold_right Z.add 0 l.

Definition payload_bytes (l : list Frame) : Z := sum (chunk_lengths l).

(** [(bytesSent, totalBytes)] of every [download_progress] frame. *)
Definition progress_marks (l : list Frame) : list (Z * Z) :=
  flat_map (fun f =>
              match f with
              | DownloadProgress _ b t _ => [(b, t)]
              | ChunkProgress _ b t _ => [(b, t)]
              | _ => []
              end) l.

(** [totalBytes] of every [download_started] frame (the [Content-Length]
    of an HTTP response). *)
Definition started_totals (l : list Frame) : list Z :=
  flat_map (fun f =>
              match f with
              | DownloadStarted _ t => [t]
              | Header t => [t]
              | _ => []
              end) l.

(** The byte count reported by every [download_complete] frame. *)
Definition complete_totals (l : list Frame) : list Z :=
  flat_map (fun f =>
              match f with
              | DownloadComplete _ b _ _ => [b]
              | DownloadCompleteMs _ b _ => [b]
              | _ => []
              end) l.

(** The throughput carried by every [download_complete] frame. *)
Definition complete_throughputs (l : list Frame) : list Js.Num :=
  flat_map (fun f =>
              match f with
              | DownloadComplete _ _ _ t => [t]
              | _ => []
              end) l.

(* ------------------------------------------------------------------ *)
(** ** The chunking of a transfer, in closed form *)

(** Number of chunks needed for [remaining] bytes. *)
Definition chunk_count (chunkSize remaining : Z) : nat :=
  Z.to_nat ((remaining + chunkSize - 1) / chunkSize).

(** Full chunks followed by one shorter slice when the size is not a
    multiple of the chunk size. *)
Definition slices (chunkSize remaining : Z) : list Z :=
  repeat chunkSize (Z.to_nat (remaining / chunkSize))
  ++ (if remaining mod chunkSize =? 0 then [] else [remaining mod chunkSize]).

(** The values [bytesSent] takes after each chunk, starting from [b]. *)
Definition cumulative_from (chunkSize total b : Z) : list Z :=
  map (fun i => Z.min (b + Z.of_nat i * chunkSize) total)
      (seq 1 (chunk_count chunkSize (total - b))).

Definition cumulative (chunkSize total : Z) : list Z :=
  cumulative_from chunkSize total 0.

(** The progress marks a run owes under the test of the code. *)
Definition marks_from (chunkSize total b : Z) : list (Z * Z) :=
  map (fun x => (x, total))
      (filter (fun x => progress_due x total)
              (cumulative_from chunkSize total b)).

(* ------------------------------------------------------------------ *)
(** ** [onRequestGET]: the message listener of the Pages function *)

Module Pages.

(** A parsed control frame.  [Malformed] is a text [JSON.parse] rejects,
    [Null] the text [null], which parses to a value without members;
    [Unknown] is any other value (no [type], an unlisted [type], a binary
    frame). *)
Inductive Msg : Type :=
| Ping (timestamp : option Z)
| DownloadStart (size chunkSize : option Z)
| UploadStart
| UploadData (byteLength : Js.Value)
| TestComplete
| Unknown
| Malformed
| Null.

(** The closure [sendNext] registered with [setTimeout(sendNext, 0)]; its
    counter is [sessionInfo.bytesTransferred] itself. *)
Inductive Task : Type :=
| SendNext (safeSize chunkSize : Z).

Definition sendNext (h : Host) (safeSize chunkSize : Z) : M Task unit :=
  s <- get_session ;;
  if bytesTransferred s >=? safeSize then
    t <- now h ;;
    let duration := duration_s t (start_of s) in
    let throughput := throughputMBps safeSize duration in
    ts <- now h ;;
    send h (DownloadComplete ts safeSize duration throughput)
  else
    let remaining := safeSize - bytesTransferred s in
    let current := Z.min chunkSize remaining in
    send h (Chunk current) ;;
    s <- get_session ;;
    set_session (mkSession (testPhase s) (bytesTransferred s + current)
                           (testStartTime s) (lastActivity s)) ;;
    s <- get_session ;;
    (if progress_due (bytesTransferred s) safeSize then
       ts <- now h ;;
       send h (DownloadProgress ts (bytesTransferred s) safeSize
                                (percent (bytesTransferred s) safeSize))
     else ret tt) ;;
    schedule (SendNext safeSize chunkSize).

Definition on_message (h : Host) (m : Msg) : M Task unit :=
  try_catch
    (t <- now h ;;
     s <- get_session ;;
     set_session (mkSession (testPhase s) (bytesTransferred s)
                            (testStartTime s) (Some t)) ;;
     match m with
     | Malformed => throw
     | Ping timestamp =>
         clientTimestamp <- or_now h timestamp ;;
         serverTimestamp <- now h ;;
         send h (Pong clientTimestamp serverTimestamp
                      (serverTimestamp - clientTimestamp))
     | DownloadStart size chunkSize =>
         let size := Js.or_default size (1024 * 1024) in
         let chunkSize := Js.or_default chunkSize (64 * 1024) in
         let safeSize := Z.min size (100 * 1024 * 1024) in
         enter h Download ;;
         ts <- now h ;;
         send h (DownloadStarted ts safeSize) ;;
         alloc h chunkSize ;;
         sendNext h safeSize chunkSize
     | UploadStart =>
         enter h Upload ;;
         ts <- now h ;;
         send h (UploadReady ts)
     | UploadData byteLength =>
         match byteLength with
         | Js.Number n =>
             s <- get_session ;;
             set_session (mkSession (testPhase s) (bytesTransferred s + n)
                                    (testStartTime s) (lastActivity s)) ;;
             ts <- now h ;;
             s <- get_session ;;
             send h (UploadAck ts n (Some (bytesTransferred s)))
         | _ => ret tt
         end
     | TestComplete =>
         ts <- now h ;;
         send h (TestCompleteAck ts) ;;
         s <- get_session ;;
         set_session (mkSession None (bytesTransferred s) (testStartTime s)
                                (lastActivity s))
     | Unknown => ret tt
     | Null => ret tt
     end)
    (ts <- now h ;;
     send h (ErrorFrame "Invalid message"%string (Some ts))).

Definition run_task (h : Host) (t : Task) : M Task unit :=
  match t with
  | SendNext safeSize chunkSize => sendNext h safeSize chunkSize
  end.

Definition step (h : Host) : Input Msg -> World Task -> World Task :=
  step (on_message h) (run_task h) (ret tt).

Definition run (h : Host) : list (Input Msg) -> World Task -> World Task :=
  run (on_message h) (run_task h) (ret tt).

Definition drain (h : Host) : nat -> World Task -> World Task :=
  drain (on_message h) (run_task h) (ret tt).

(** A download test from message to quiescence: [download_start] is
    delivered to [w], then up to [fuel] timers fire. *)
Definition download (h : Host) (fuel : nat) (size chunkSize : option Z)
    (w : World Task) : World Task :=
  drain h fuel (step h (Deliver (DownloadStart size chunkSize)) w).

End Pages.

(* ------------------------------------------------------------------ *)
(** ** [WebSocketState]: the Durable Object class *)

Module DurableObject.

(** A control frame.  [Malformed] is a text [JSON.parse] rejects, [Null]
    the text [null], which parses but has no [type] to read; [Unknown] is
    any other value. *)
Inductive Msg : Type :=
| Ping (timestamp : option Z)
| DownloadStart (size chunkSize : option Z)
| UploadStart
| UploadData (data : Js.Data)
| TestComplete
| Unknown
| Malformed
| Null.

(** The closure [sendChunk] registered with [setTimeout(sendChunk, 1)],
    with the value of its captured counter [bytesSent]. *)
Inductive Task : Type :=
| SendChunk (safeSize chunkSize bytesSent : Z).

Definition handlePing (h : Host) (timestamp : option Z) : M Task unit :=
  clientTimestamp <- or_now h timestamp ;;
  serverTimestamp <- now h ;;
  send h (Pong clientTimestamp serverTimestamp
               (serverTimestamp - clientTimestamp)).

Definition sendChunk (h : Host) (safeSize chunkSize bytesSent : Z)
    : M Task unit :=
  if bytesSent >=? safeSize then
    ts <- now h ;;
    t <- now h ;;
    s <- get_session ;;
    send h (DownloadCompleteMs ts bytesSent (t - start_of s))
  else
    let remainingBytes := safeSize - bytesSent in
    let currentChunkSize := Z.min chunkSize remainingBytes in
    alloc h currentChunkSize ;;
    ts <- now h ;;
    send h (ChunkProgress ts (bytesSent + currentChunkSize) safeSize
                          currentChunkSize) ;;
    let bytesSent := bytesSent + currentChunkSize in
    s <- get_session ;;
    set_session (mkSession (testPhase s) bytesSent (testStartTime s)
                           (lastActivity s)) ;;
    schedule (SendChunk safeSize chunkSize bytesSent).

Definition handleDownloadTest (h : Host) (size chunkSize : option Z)
    : M Task unit :=
  let size := Js.or_default size (1024 * 1024) in
  let chunkSize := Js.or_default chunkSize (64 * 1024) in
  let safeSize := Z.min size (100 * 1024 * 1024) in
  enter h Download ;;
  ts <- now h ;;
  send h (DownloadStarted ts safeSize) ;;
  sendChunk h safeSize chunkSize 0.

Definition handleUploadStart (h : Host) : M Task unit :=
  enter h Upload ;;
  ts <- now h ;;
  send h (UploadReady ts).

Definition handleUploadData (h : Host) (data : Js.Data)
    : M Task unit :=
  let chunkSize := Js.length_or_zero data in
  s <- get_session ;;
  set_session (mkSession (testPhase s) (bytesTransferred s + chunkSize)
                         (testStartTime s) (lastActivity s)) ;;
  ts <- now h ;;
  s <- get_session ;;
  send h (UploadAck ts (bytesTransferred s) None).

Definition handleMessage (h : Host) (m : Msg) : M Task unit :=
  try_catch
    (match m with
     | Malformed => throw
     | _ => ret tt
     end ;;
     t <- now h ;;
     s <- get_session ;;
     set_session (mkSession (testPhase s) (bytesTransferred s)
                            (testStartTime s) (Some t)) ;;
     match m with
     | Ping timestamp => handlePing h timestamp
     | DownloadStart size chunkSize => handleDownloadTest h size chunkSize
     | UploadStart => handleUploadStart h
     | UploadData data => handleUploadData h data
     | TestComplete =>
         ts <- now h ;;
         send h (TestCompleteAck ts)
     | Unknown => ret tt
     | Malformed => ret tt
     | Null => throw
     end)
    (ts <- now h ;;
     send h (ErrorFrame "Failed to process message"%string (Some ts))).

Definition run_task (h : Host) (t : Task) : M Task unit :=
  match t with
  | SendChunk safeSize chunkSize bytesSent =>
      sendChunk h safeSize chunkSize bytesSent
  end.

(** The ['close'] listener. *)
Definition on_close : M Task unit := unregister.

Definition step (h : Host) : Input Msg -> World Task -> World Task :=
  step (handleMessage h) (run_task h) on_close.

Definition run (h : Host) : list (Input Msg) -> World Task -> World Task :=
  run (handleMessage h) (run_task h) on_close.

Definition drain (h : Host) : nat -> World Task -> World Task :=
  drain (handleMessage h) (run_task h) on_close.

Definition download (h : Host) (fuel : nat) (size chunkSize : option Z)
    (w : World Task) : World Task :=
  drain h fuel (step h (Deliver (DownloadStart size chunkSize)) w).

End DurableObject.

(* ------------------------------------------------------------------ *)
(** ** [wss.on('connection')]: the Node WebSocket server *)

Module NodeWs.

(** The messages of type ['ping'], ['download'] and ['upload'];
    [UploadTest] carries [JSON.stringify(content).length], [None] when
    [content] is falsy.  [Malformed] is a text [JSON.parse] rejects, [Null]
    the text [null], which parses but has no [type] to read; [Unknown] is
    any other value. *)
Inductive Msg : Type :=
| PingTest (timestamp : option Z)
| DownloadTest (size chunkSize : option Z)
| UploadTest (contentLength : option Z)
| Unknown
| Malformed
| Null.

(** [sendNextChunk] handed to [process.nextTick], and the completion
    callback of a chunk write; both close over [bytesSent]. *)
Inductive Task : Type :=
| SendNextChunk (safeSize chunkSize bytesSent : Z)
| WriteDone (safeSize chunkSize bytesSent currentChunkSize : Z) (err : bool).

Definition handlePingTest (h : Host) (timestamp : option Z)
    : M Task unit :=
  clientTimestamp <- or_now h timestamp ;;
  serverTimestamp <- now h ;;
  send h (Pong clientTimestamp serverTimestamp
               (serverTimestamp - clientTimestamp)).

Definition sendNextChunk (h : Host) (safeSize chunkSize bytesSent : Z)
    : M Task unit :=
  if bytesSent >=? safeSize then
    endTime <- now h ;;
    s <- get_session ;;
    let duration := duration_s endTime (start_of s) in
    let throughput := throughputMBps safeSize duration in
    send h (DownloadComplete endTime safeSize duration throughput)
  else
    let remainingBytes := safeSize - bytesSent in
    let currentChunkSize := Z.min chunkSize remainingBytes in
    write_then h currentChunkSize
               (WriteDone safeSize chunkSize bytesSent currentChunkSize).

(** The callback [(err) => { ... }] of the chunk write. *)
Definition write_done (h : Host)
    (safeSize chunkSize bytesSent currentChunkSize : Z) (err : bool)
    : M Task unit :=
  if err then ret tt
  else
    let bytesSent := bytesSent + currentChunkSize in
    s <- get_session ;;
    set_session (mkSession (testPhase s) bytesSent (testStartTime s)
                           (lastActivity s)) ;;
    (if progress_due bytesSent safeSize then
       ts <- now h ;;
       send h (DownloadProgress ts bytesSent safeSize
                                (percent bytesSent safeSize))
     else ret tt) ;;
    if bytesSent <? safeSize then
      schedule (SendNextChunk safeSize chunkSize bytesSent)
    else ret tt.

Definition handleDownloadTest (h : Host) (size chunkSize : option Z)
    : M Task unit :=
  let size := Js.or_default size (1024 * 1024) in
  let chunkSize := Js.or_default chunkSize (64 * 1024) in
  let safeSize := Z.min size (100 * 1024 * 1024) in
  enter h Download ;;
  alloc h chunkSize ;;
  ts <- now h ;;
  send h (DownloadStarted ts safeSize) ;;
  sendNextChunk h safeSize chunkSize 0.

Definition handleUploadTest (h : Host) (contentLength : option Z)
    : M Task unit :=
  startTime <- now h ;;
  match contentLength with
  | None => send h (ErrorFrame "No content provided"%string None)
  | Some n =>
      endTime <- now h ;;
      let duration := endTime - startTime in
      send h (UploadComplete endTime n duration
                (Js.scale (Js.div (inject_Z n) (inject_Z duration))
                          (inject_Z 1000)))
  end.

Definition on_message (h : Host) (m : Msg) : M Task unit :=
  try_catch
    (match m with
     | Malformed => throw
     | Null => throw
     | PingTest timestamp => handlePingTest h timestamp
     | DownloadTest size chunkSize => handleDownloadTest h size chunkSize
     | UploadTest contentLength => handleUploadTest h contentLength
     | Unknown => send h (ErrorFrame "Unknown message type"%string None)
     end)
    (send h (ErrorFrame "Invalid message format"%string None)).

Definition run_task (h : Host) (t : Task) : M Task unit :=
  match t with
  | SendNextChunk safeSize chunkSize bytesSent =>
      sendNextChunk h safeSize chunkSize bytesSent
  | WriteDone safeSize chunkSize bytesSent currentChunkSize err =>
      write_done h safeSize chunkSize bytesSent currentChunkSize err
  end.

Definition step (h : Host) : Input Msg -> World Task -> World Task :=
  step (on_message h) (run_task h) (ret tt).

Definition run (h : Host) : list (Input Msg) -> World Task -> World Task :=
  run (on_message h) (run_task h) (ret tt).

Definition drain (h : Host) : nat -> World Task -> World Task :=
  drain (on_message h) (run_task h) (ret tt).

Definition download (h : Host) (fuel : nat) (size chunkSize : option Z)
    (w : World Task) : World Task :=
  drain h fuel (step h (Deliver (DownloadTest size chunkSize)) w).

End NodeWs.

(* ------------------------------------------------------------------ *)
(** ** The HTTP routes and the serverless ping function *)

Module Http.

(** A request with its query parameters after [parseInt]. *)
Inductive Msg : Type :=
| GetPing (timestamp : option Z)
| GetDownload (size chunkSize : option Z)
| FunctionPing (timestamp : option Z).

(** [sendChunk] handed to [setImmediate], with its captured [bytesSent]
    and the state of [res] at that point: whether the head of the response
    has gone out ([res.headersSent]). *)
Inductive Task : Type :=
| SendChunk (safeSize chunkSize bytesSent : Z) (headersSent : bool).

(** [app.get('/api/ping')]; the request counters of [updateRequestStats]
    are process-wide statistics, modelled apart in [Stats]. *)
Definition ping (h : Host) (timestamp : option Z) : M Task unit :=
  clientTimestamp <- or_now h timestamp ;;
  serverTimestamp <- now h ;;
  send h (Pong clientTimestamp serverTimestamp
               (serverTimestamp - clientTimestamp)).

(** The serverless function ([module.exports]). *)
Definition function_ping (h : Host) (timestamp : option Z)
    : M Task unit :=
  clientTimestamp <- or_now h timestamp ;;
  serverTimestamp <- now h ;;
  send h (Pong clientTimestamp serverTimestamp
               (serverTimestamp - clientTimestamp)).

(** [res.setHeader] only stores a header.  The head of the response, with
    the [Content-Length] stored by the route, goes out with the first
    [res.write], or with [res.end()] when nothing was written. *)
Definition flush_head (contentLength : Z) (headersSent : bool)
    : M Task unit :=
  fun w =>
    (Ok tt,
     if headersSent then w
     else mkWorld (session w) (queue w)
                  (outbox w ++ [Header contentLength]) (dropped w)
                  (uncaught w) (reads w) (writes w) (alive w)
                  (registered w)).

Definition sendChunk (h : Host) (safeSize chunkSize bytesSent : Z)
    (headersSent : bool) : M Task unit :=
  if bytesSent >=? safeSize then
    flush_head safeSize headersSent ;;
    send h EndOfBody
  else
    let remainingBytes := safeSize - bytesSent in
    let currentChunkSize := Z.min chunkSize remainingBytes in
    alloc h currentChunkSize ;;
    flush_head safeSize headersSent ;;
    _ <- write_body h currentChunkSize ;;
    let bytesSent := bytesSent + currentChunkSize in
    schedule (SendChunk safeSize chunkSize bytesSent true).

(** [app.get('/api/download')]: the headers are stored, [sendChunk] is
    called with nothing sent yet.  An exception that escapes is answered
    by Express, which is not modelled. *)
Definition get_download (h : Host) (size chunkSize : option Z)
    : M Task unit :=
  let size := Js.or_default size (1024 * 1024) in
  let chunkSize := Js.or_default chunkSize (64 * 1024) in
  let safeSize := Z.min size (100 * 1024 * 1024) in
  sendChunk h safeSize chunkSize 0 false.

Definition on_request (h : Host) (m : Msg) : M Task unit :=
  match m with
  | GetPing timestamp => ping h timestamp
  | GetDownload size chunkSize => get_download h size chunkSize
  | FunctionPing timestamp => function_ping h timestamp
  end.

Definition run_task (h : Host) (t : Task) : M Task unit :=
  match t with
  | SendChunk safeSize chunkSize bytesSent headersSent =>
      sendChunk h safeSize chunkSize bytesSent headersSent
  end.

Definition step (h : Host) : Input Msg -> World Task -> World Task :=
  step (on_request h) (run_task h) (ret tt).

Definition run (h : Host) : list (Input Msg) -> World Task -> World Task :=
  run (on_request h) (run_task h) (ret tt).

Definition drain (h : Host) : nat -> World Task -> World Task :=
  drain (on_request h) (run_task h) (ret tt).

Definition download (h : Host) (fuel : nat) (size chunkSize : option Z)
    (w : World Task) : World Task :=
  drain h fuel (step h (Deliver (GetDownload size chunkSize)) w).

End Http.

(* ------------------------------------------------------------------ *)
(** ** [serverStats]: the request counters of the Node server *)

Module Stats.

(** [serverStats] *)
Record ServerStats : Type := mkStats {
  startTime : Z;
  requestCount : Z;
  errors : Z;
  pingRequests : Z;
  downloadRequests : Z;
  uploadRequests : Z;
  lastMinuteRequests : list Z
}.

(** The object literal, created at [now]. *)
Definition initial (now : Z) : ServerStats :=
  mkStats now 0 0 0 0 0 [].

(** [updateRequestStats(endpoint)], where [now] is its [Date.now()]. *)
Definition updateRequestStats (endpoint : string) (now : Z)
    (s : ServerStats) : ServerStats :=
  let requestCount := requestCount s + 1 in
  let pingRequests :=
    if String.eqb endpoint "ping" then pingRequests s + 1
    else pingRequests s in
  let downloadRequests :=
    if String.eqb endpoint "download" then downloadRequests s + 1
    else downloadRequests s in
  let uploadRequests :=
    if String.eqb endpoint "upload" then uploadRequests s + 1
    else uploadRequests s in
  let pushed := lastMinuteRequests s ++ [now] in
  let oneMinuteAgo := now - 60000 in
  mkStats (startTime s) requestCount (errors s) pingRequests
          downloadRequests uploadRequests
          (filter (fun time => time >? oneMinuteAgo) pushed).

(** What [/api/status] and [/api/health] report of the counters:
    [uptime] (in whole seconds), [requestsPerMinute], [totalRequests]. *)
Definition report (now : Z) (s : ServerStats) : Z * Z * Z :=
  ((now - startTime s) / 1000,
   Z.of_nat (List.length (lastMinuteRequests s)),
   requestCount s).

(** The calls of [updateRequestStats] made for a series of requests, each
    with its endpoint and the time it was counted at. *)
Definition record_all (log : list (string * Z)) (s : ServerStats)
    : ServerStats :=
  fold_left (fun acc r => updateRequestStats (fst r) (snd r) acc) log s.

(** The answer of [POST /api/upload]. *)
Inductive UploadResponse : Type :=
| BadRequest (error : string)
| Received (received duration : Z) (throughput : Js.Num).

(** [app.post('/api/upload')]: [content] is [JSON.stringify(data.content)
    .length], [None] when the body or its content is missing or falsy;
    [t0], [t1] and [t2] are the three readings of the clock. *)
Definition post_upload (content : option Z) (t0 t1 t2 : Z)
    (s : ServerStats) : UploadResponse * ServerStats :=
  let s := updateRequestStats "upload" t0 s in
  let startTime := t1 in
  match content with
  | None => (BadRequest "No content provided", s)
  | Some contentLength =>
      let endTime := t2 in
      let duration := endTime - startTime in
      (Received contentLength duration
                (Js.scale (Js.div (inject_Z contentLength)
                                  (inject_Z duration))
                          (inject_Z 1000)),
       s)
  end.

End Stats.

(* ------------------------------------------------------------------ *)
(** ** JavaScript strings

    A string is the sequence of its code units, restricted to the code
    units below 256. *)

Module Text.

(** White space and line terminators, as [trim] understands them, among
    the code units below 256: tab, line feed, vertical tab, form feed,
    carriage return, space and no-break space. *)
Definition is_space (c : ascii) : bool :=
  let n := nat_of_ascii c in
  (Nat.eqb n 9 || Nat.eqb n 10 || Nat.eqb n 11 || Nat.eqb n 12
   || Nat.eqb n 13 || Nat.eqb n 32 || Nat.eqb n 160)%bool.

Fixpoint trim_start (s : string) : string :=
  match s with
  | EmptyString => EmptyString
  | String c s' => if is_space c then trim_start s' else s
  end.

Fixpoint trim_end (s : string) : string :=
  match s with
  | EmptyString => EmptyString
  | String c s' =>
      match trim_end s' with
      | EmptyString => if is_space c then EmptyString
                       else String c EmptyString
      | t => String c t
      end
  end.

(** [s.trim()] *)
Definition trim (s : string) : string := trim_end (trim_start s).

(** A string is truthy when it is not empty. *)
Definition truthy (s : string) : bool :=
  match s with
  | EmptyString => false
  | String _ _ => true
  end.

(** [s.startsWith(p)] *)
Fixpoint startsWith (p s : string) : bool :=
  match p with
  | EmptyString => true
  | String a p' =>
      match s with
      | EmptyString => false
      | String b s' => Ascii.eqb a b && startsWith p' s'
      end
  end.

(** [s.includes(p)] *)
Fixpoint includes (p s : string) : bool :=
  startsWith p s
  || match s with
     | EmptyString => false
     | String _ s' => includes p s'
     end.

(** [s.split(sep)] for a separator of one code unit: never empty. *)
Fixpoint split (sep : ascii) (s : string) : list string :=
  match s with
  | EmptyString => [EmptyString]
  | String c s' =>
      if Ascii.eqb c sep then EmptyString :: split sep s'
      else match split sep s' with
           | piece :: rest => String c piece :: rest
           | [] => [String c EmptyString]
           end
  end.

Fixpoint drop (n : nat) (s : string) : string :=
  match n, s with
  | O, _ => s
  | S n', String _ s' => drop n' s'
  | S _, EmptyString => EmptyString
  end.

(** [s.replace(p, r)] with a string pattern: the first occurrence only. *)
Fixpoint replace (p r s : string) : string :=
  if startsWith p s then append r (drop (String.length p) s)
  else match s with
       | EmptyString => EmptyString
       | String c s' => String c (replace p r s')
       end.

(** The line feed that separates the lines of a file. *)
Definition newline : ascii := ascii_of_nat 10.

Fixpoint has_char (c : ascii) (s : string) : bool :=
  match s with
  | EmptyString => false
  | String x s' => Ascii.eqb x c || has_char c s'
  end.

End Text.

(* ------------------------------------------------------------------ *)
(** ** The loader of the [.env] file *)

Module EnvFile.

(** The filter of the lines: not blank, not a comment. *)
Definition kept (line : string) : bool :=
  Text.truthy (Text.trim line) && negb (Text.startsWith "#" line).

(** What the loader has assigned so far, oldest first: [envConfig] is the
    accumulator of [reduce], [exported] the assignments to
    [process.env]. *)
Record Loaded : Type := mkLoaded {
  envConfig : list (string * string);
  exported : list (string * string)
}.

(** The body of the reducer. *)
Definition load_line (acc : Loaded) (line : string) : Loaded :=
  match Text.split "=" line with
  | key :: value :: _ =>
      if Text.truthy key && Text.truthy value then
        mkLoaded
          (envConfig acc ++ [(Text.trim key, Text.trim value)])
          (if negb (Text.includes "SECRET" key)
              && negb (Text.includes "KEY" key)
           then exported acc ++ [(Text.trim key, Text.trim value)]
           else exported acc)
      else acc
  | _ => acc
  end.

(** The loader applied to the content of the file. *)
Definition load (content : string) : Loaded :=
  fold_left load_line
            (filter kept (Text.split Text.newline content))
            (mkLoaded [] []).

End EnvFile.

(* ------------------------------------------------------------------ *)
(** ** The server configuration of the client *)

Module Config.

(** [location] of the window or of the worker. *)
Record Location : Type := mkLocation {
  origin : string;
  hostname : string
}.

(** Where the module is evaluated: a window, a web worker, or neither. *)
Inductive Runtime : Type :=
| Window (location : Location)
| Worker (location : Location)
| Bare.

(** [import.meta.env]; an absent variable is [None]. *)
Record Env : Type := mkEnv {
  VITE_API_BASE_URL : option string;
  VITE_WS_URL : option string;
  PROD : bool
}.

Definition getOrigin (rt : Runtime) : string :=
  match rt with
  | Window l => origin l
  | Worker l => origin l
  | Bare => EmptyString
  end.

(** The [host] both functions compute. *)
Definition host (rt : Runtime) : string :=
  match rt with
  | Window l => hostname l
  | Worker l => hostname l
  | Bare => EmptyString
  end.

Definition on_render (rt : Runtime) : bool :=
  Text.truthy (host rt) && Text.includes "onrender.com" (host rt).

Definition getBaseUrl (env : Env) (rt : Runtime) : string :=
  match VITE_API_BASE_URL env with
  | Some url =>
      if Text.truthy url then url
      else if PROD env then
             if on_render rt then EmptyString else getOrigin rt
           else "http://localhost:3000"
  | None =>
      if PROD env then
        if on_render rt then EmptyString else getOrigin rt
      else "http://localhost:3000"
  end.

(** [s.replace('https://', 'wss://').replace('http://', 'ws://')] *)
Definition to_ws (s : string) : string :=
  Text.replace "http://" "ws://" (Text.replace "https://" "wss://" s).

Definition ws_default (env : Env) (rt : Runtime) : string :=
  let baseUrl := getBaseUrl env rt in
  if PROD env then
    if on_render rt || String.eqb baseUrl EmptyString then
      to_ws (getOrigin rt)
    else append (to_ws baseUrl) "/functions/websocket"
  else "ws://localhost:3000".

Definition getWebSocketUrl (env : Env) (rt : Runtime) : string :=
  match VITE_WS_URL env with
  | Some url => if Text.truthy url then url else ws_default env rt
  | None => ws_default env rt
  end.

End Config.

(* ------------------------------------------------------------------ *)
(** ** Vocabulary of the statements *)

(** The size and chunk size every download handler derives from a
    request. *)
Definition safe_size (size : option Z) : Z :=
  Z.min (Js.or_default size (1024 * 1024)) (100 * 1024 * 1024).

Definition chunk_size (chunkSize : option Z) : Z :=
  Js.or_default chunkSize (64 * 1024).

Definition with_queue {T} (w : World T) (q : list T) : World T :=
  mkWorld (session w) q (outbox w) (dropped w) (uncaught w) (reads w)
          (writes w) (alive w) (registered w).

(** A progress frame carries the percentage of its own two counters. *)
Definition progress_ok (f : Frame) : Prop :=
  match f with
  | DownloadProgress _ b t p => p = percent b t
  | _ => True
  end.

(** What the frames [fs] of a download run amount to. *)
Record Summary (fs : list Frame) (starts chunks : list Z)
       (marks : list (Z * Z)) (completes : list Z) : Prop := mkSummary {
  sum_started : started_totals fs = starts;
  sum_chunks : chunk_lengths fs = chunks;
  sum_marks : progress_marks fs = marks;
  sum_completes : complete_totals fs = completes;
  sum_percent : Forall progress_ok fs
}.

(** A run that went from [w] to quiescence in [w'], sending [fs]. *)
Record Finished {T} (w w' : World T) (fs : list Frame) : Prop := mkFinished {
  fin_queue : queue w' = [];
  fin_alive : alive w' = true;
  fin_outbox : outbox w' = outbox w ++ fs
}.

(** The world in which a WebSocket [download_start] handler that has
    recorded the message time first calls its loop. *)
Definition started {T} (h : Host) (safeSize : Z) (w : World T) : World T :=
  mkWorld (mkSession (Some Download) 0 (Some (clock h (S (reads w))))
                     (Some (clock h (reads w))))
          (queue w)
          (outbox w ++ [DownloadStarted (clock h (S (S (reads w)))) safeSize])
          (dropped w) (uncaught w) (S (S (S (reads w)))) (writes w) true
          (registered w).

(** [sendNext] on an open socket: the world after the final frame, and
    after one chunk. *)
Definition pages_after_complete (h : Host) (total : Z)
    (w : World Pages.Task) : World Pages.Task :=
  let d := duration_s (clock h (reads w)) (start_of (session w)) in
  mkWorld (session w) (queue w)
          (outbox w ++
             [DownloadComplete (clock h (S (reads w))) total d
                               (throughputMBps total d)])
          (dropped w) (uncaught w) (S (S (reads w))) (writes w) true
          (registered w).

Definition pages_after_chunk (h : Host) (total C : Z)
    (w : World Pages.Task) : World Pages.Task :=
  let c := Z.min C (total - bytesTransferred (session w)) in
  let b := bytesTransferred (session w) + c in
  let due := progress_due b total in
  mkWorld (mkSession (testPhase (session w)) b (testStartTime (session w))
                     (lastActivity (session w)))
          (queue w ++ [Pages.SendNext total C])
          (outbox w ++
             Chunk c
             :: (if due
                 then [DownloadProgress (clock h (reads w)) b total
                                        (percent b total)]
                 else []))
          (dropped w) (uncaught w)
          (if due then S (reads w) else reads w)
          (writes w) true (registered w).

(** [sendNextChunk] with bytes left: the world after the chunk was handed
    to the socket. *)
Definition node_after_write (h : Host) (total C bs : Z)
    (w : World NodeWs.Task) : World NodeWs.Task :=
  let c := Z.min C (total - bs) in
  let err := negb (alive w) || write_error h (writes w) in
  mkWorld (session w)
          (queue w ++ [NodeWs.WriteDone total C bs c err])
          (if err then outbox w else outbox w ++ [Chunk c])
          (if err then dropped w ++ [Chunk c] else dropped w)
          (uncaught w) (reads w) (S (writes w)) (alive w) (registered w).

(** The completion callback of a successful write on an open socket. *)
Definition node_after_ack (h : Host) (total C bs c : Z)
    (w : World NodeWs.Task) : World NodeWs.Task :=
  let b := bs + c in
  let due := progress_due b total in
  mkWorld (mkSession (testPhase (session w)) b (testStartTime (session w))
                     (lastActivity (session w)))
          (queue w ++
             (if b <? total then [NodeWs.SendNextChunk total C b] else []))
          (outbox w ++
             (if due
              then [DownloadProgress (clock h (reads w)) b total
                                     (percent b total)]
              else []))
          (dropped w) (uncaught w)
          (if due then S (reads w) else reads w)
          (writes w) true (registered w).

(** The world in which [handleDownloadTest] of the Node server first calls
    [sendNextChunk]. *)
Definition node_started (h : Host) (safeSize : Z) (w : World NodeWs.Task)
    : World NodeWs.Task :=
  mkWorld (mkSession (Some Download) 0 (Some (clock h (reads w)))
                     (lastActivity (session w)))
          (queue w)
          (outbox w ++ [DownloadStarted (clock h (S (reads w))) safeSize])
          (dropped w) (uncaught w) (S (S (reads w))) (writes w) true
          (registered w).

Definition node_after_complete (h : Host) (total : Z)
    (w : World NodeWs.Task) : World NodeWs.Task :=
  let d := duration_s (clock h (reads w)) (start_of (session w)) in
  mkWorld (session w) (queue w)
          (outbox w ++
             [DownloadComplete (clock h (reads w)) total d
                               (throughputMBps total d)])
          (dropped w) (uncaught w) (S (reads w)) (writes w) true
          (registered w).

(** [sendChunk] of the Durable Object on an open socket: the world after
    the final frame, and after one chunk. *)
Definition do_after_complete (h : Host) (bs : Z)
    (w : World DurableObject.Task) : World DurableObject.Task :=
  mkWorld (session w) (queue w)
          (outbox w ++
             [DownloadCompleteMs (clock h (reads w)) bs
                (clock h (S (reads w)) - start_of (session w))])
          (dropped w) (uncaught w) (S (S (reads w))) (writes w) true
          (registered w).

Definition do_after_chunk (h : Host) (total C bs : Z)
    (w : World DurableObject.Task) : World DurableObject.Task :=
  let c := Z.min C (total - bs) in
  mkWorld (mkSession (testPhase (session w)) (bs + c)
                     (testStartTime (session w)) (lastActivity (session w)))
          (queue w ++ [DurableObject.SendChunk total C (bs + c)])
          (outbox w ++ [ChunkProgress (clock h (reads w)) (bs + c) total c])
          (dropped w) (uncaught w) (S (reads w)) (writes w) true
          (registered w).

(** Every chunk of the Durable Object carries a progress mark. *)
Definition marks_all (chunkSize total b : Z) : list (Z * Z) :=
  map (fun x => (x, total)) (cumulative_from chunkSize total b).

(** A socket that has been closed. *)
Definition closed {T} (w : World T) : World T :=
  mkWorld (session w) (queue w) (outbox w) (dropped w) (uncaught w)
          (reads w) (writes w) false (registered w).

(** Nothing reaches the client any more: the socket is closed and the
    accepted frames are [o]. *)
Definition quiet {T} (o : list Frame) (w : World T) : Prop :=
  alive w = false /\ outbox w = o.

(** A declared total never exceeds 100 MiB and a written chunk has between
    1 byte and 100 MiB. *)
Definition frame_ok (f : Frame) : Prop :=
  match f with
  | Chunk n => 1 <= n <= 100 * Js.MiB
  | ChunkProgress _ _ _ n => 1 <= n <= 100 * Js.MiB
  | Body n => 1 <= n <= 100 * Js.MiB
  | DownloadStarted _ t => t <= 100 * Js.MiB
  | Header t => t <= 100 * Js.MiB
  | _ => True
  end.

(** What a pending [sendChunk] closure is known to hold. *)
Definition loop_ok (safeSize chunkSize bytesSent : Z) : Prop :=
  safeSize <= 100 * Js.MiB /\ 0 <= bytesSent /\ chunkSize <> 0.

Definition do_task_ok (t : DurableObject.Task) : Prop :=
  match t with
  | DurableObject.SendChunk safeSize chunkSize bytesSent =>
      loop_ok safeSize chunkSize bytesSent
  end.

Definition http_task_ok (t : Http.Task) : Prop :=
  match t with
  | Http.SendChunk safeSize chunkSize bytesSent _ =>
      loop_ok safeSize chunkSize bytesSent
  end.

Definition bounded {T} (task_ok : T -> Prop) (w : World T) : Prop :=
  Forall task_ok (queue w) /\ Forall frame_ok (outbox w).

(** A reference runtime: the clock advances by one millisecond per reading,
    buffers of up to [2^31 - 1] bytes can be allocated, [send] on a closed
    socket throws, no write fails and none reports backpressure. *)
Definition host0 : Host :=
  mkHost (fun k => Z.of_nat k) 2147483647 true (fun _ => false)
         (fun _ => true).

(** The same runtime with a clock that does not advance. *)
Definition host_frozen : Host :=
  mkHost (fun _ => 0) 2147483647 true (fun _ => false) (fun _ => true).

(** The same runtime with a [send] that discards frames on a closed
    socket. *)
Definition host_lenient : Host :=
  mkHost (fun k => Z.of_nat k) 2147483647 false (fun _ => false)
         (fun _ => true).

(** The callbacks still pending once the host has picked its input. *)
Definition pending_before {T Msg} (i : Input Msg) (w : World T) : list T :=
  match i with
  | Fire k =>
      match take_nth k (queue w) with
      | Some (_, rest) => rest
      | None => queue w
      end
  | _ => queue w
  end.

(** One scheduling unit issued at most one chunk write and registered at
    most one callback, exactly one if it wrote. *)
Definition one_write_one_resumption {T} (before : list T) (w w' : World T)
    : Prop :=
  exists added,
    queue w' = before ++ added
    /\ (List.length added <= 1)%nat
    /\ (writes w' <= S (writes w))%nat
    /\ (writes w' = S (writes w) -> List.length added = 1%nat).

(** The same for the bindings that hand their chunks to [send]: at most
    one chunk frame and one callback per scheduling unit. *)
Definition one_chunk_one_resumption {T} (before : list T) (w w' : World T)
    : Prop :=
  exists added,
    queue w' = before ++ added
    /\ (List.length added <= 1)%nat
    /\ (List.length (chunk_lengths (outbox w'))
        <= S (List.length (chunk_lengths (outbox w))))%nat
    /\ (List.length (chunk_lengths (outbox w'))
        = S (List.length (chunk_lengths (outbox w))) ->
        List.length added = 1%nat).

(** The counter of the only pending [sendChunk], if any, is the one of
    the session. *)
Definition in_sync (w : World DurableObject.Task) : Prop :=
  match queue w with
  | [] => True
  | [DurableObject.SendChunk _ _ bytesSent] =>
      bytesSent = bytesTransferred (session w)
  | _ => False
  end.

(** A runtime whose clock shows a date of our days. *)
Definition host_today : Host :=
  mkHost (fun k => 1700000000000 + Z.of_nat k) 2147483647 true
         (fun _ => false) (fun _ => true).

(** The values a counter takes when the elements of [l] are added to it
    one after the other. *)
Fixpoint running_sums (b : Z) (l : list Z) : list Z :=
  match l with
  | [] => []
  | x :: l' => (b + x) :: running_sums (b + x) l'
  end.

(** [sendChunk] of the HTTP route: the world after one chunk, and after
    the end of the body on an open connection. *)
(** The head of a response, unless it has gone out already. *)
Definition head (total : Z) (headersSent : bool) : list Frame :=
  if headersSent then [] else [Header total].

Definition http_after_chunk (h : Host) (total C bs : Z) (headersSent : bool)
    (w : World Http.Task) : World Http.Task :=
  let c := Z.min C (total - bs) in
  mkWorld (session w)
          (queue w ++ [Http.SendChunk total C (bs + c) true])
          (outbox w ++ head total headersSent ++ [Body c])
          (dropped w) (uncaught w) (reads w) (S (writes w)) (alive w)
          (registered w).

Definition http_after_end (total : Z) (headersSent : bool)
    (w : World Http.Task) : World Http.Task :=
  mkWorld (session w) (queue w)
          (outbox w ++ head total headersSent ++ [EndOfBody]) (dropped w)
          (uncaught w) (reads w) (writes w) true (registered w).

(** The frames that end a transfer. *)
Definition ends (l : list Frame) : list Frame :=
  filter (fun f => match f with EndOfBody => true | _ => false end) l.

(** [sessionInfo] with a new [lastActivity]. *)
Definition touched (s : Session) (t : Z) : Session :=
  mkSession (testPhase s) (bytesTransferred s) (testStartTime s) (Some t).

(** The numbers among the [byteLength] fields of a series of frames. *)
Definition byte_lengths (vs : list Js.Value) : list Z :=
  flat_map (fun v => match v with Js.Number n => [n] | _ => [] end) vs.

(** The length of the [data] field of a series of frames. *)
Definition data_lengths (ds : list Js.Data) : list Z :=
  map Js.length_or_zero ds.

(** The running total reported by every [upload_ack] frame. *)
Definition ack_totals (l : list Frame) : list Z :=
  flat_map (fun f =>
              match f with
              | UploadAck _ _ (Some t) => [t]
              | UploadAck _ t None => [t]
              | _ => []
              end) l.

(** The [bytesReceived] field of every [upload_ack] frame. *)
Definition ack_received (l : list Frame) : list Z :=
  flat_map (fun f =>
              match f with
              | UploadAck _ n _ => [n]
              | _ => []
              end) l.

(** A [download_complete] frame of the Durable Object reports the time
    between two readings of the clock, the later minus the earlier. *)
Definition complete_timed (h : Host) (f : Frame) : Prop :=
  match f with
  | DownloadCompleteMs _ _ duration =>
      exists j k, (k < j)%nat /\ duration = clock h j - clock h k
  | _ => True
  end.

(** Whenever a [sendChunk] is pending, [testStartTime] holds a reading of
    the clock that has been made, and every [download_complete] frame sent
    so far is timed by the clock. *)
Definition clocked (h : Host) (w : World DurableObject.Task) : Prop :=
  (queue w <> [] ->
   exists k, (k < reads w)%nat /\ testStartTime (session w) = Some (clock h k))
  /\ Forall (complete_timed h) (outbox w).

(** The duration of every [download_complete] frame of the Durable
    Object. *)
Definition complete_durations (l : list Frame) : list Z :=
  flat_map (fun f =>
              match f with
              | DownloadCompleteMs _ _ d => [d]
              | _ => []
              end) l.

(** What holds of every variable the loader exports. *)
Definition exportable (kv : string * string) : Prop :=
  Text.includes "SECRET" (fst kv) = false
  /\ Text.includes "KEY" (fst kv) = false
  /\ Text.has_char "=" (fst kv) = false
  /\ Text.has_char "=" (snd kv) = false
  /\ Text.trim (fst kv) = fst kv
  /\ Text.trim (snd kv) = snd kv.

Definition loaded_ok (acc : EnvFile.Loaded) : Prop :=
  Forall exportable (EnvFile.exported acc)
  /\ incl (EnvFile.exported acc) (EnvFile.envConfig acc).

(** A client without overrides, built for production. *)
Definition production (env : Config.Env) : Prop :=
  Config.PROD env = true
  /\ (forall url, Config.VITE_API_BASE_URL env = Some url ->
                  Text.truthy url = false)
  /\ (forall url, Config.VITE_WS_URL env = Some url ->
                  Text.truthy url = false).

Definition scheme (secure : bool) : string :=
  if secure then "https://" else "http://".

Definition ws_scheme (secure : bool) : string :=
  if secure then "wss://" else "ws://".

(** [line] reads [key=value], followed by nothing or by a further [=] and
    whatever comes after it: [key] and [value] are the first two of the
    pieces that the equals signs of the line separate. *)
Definition assigns (line key value : string) : Prop :=
  Text.has_char "=" key = false
  /\ Text.has_char "=" value = false
  /\ exists rest,
       line = append key (String "=" (append value rest))
       /\ (rest = EmptyString \/ exists r, rest = String "=" r).

(** The variable [kv] stems from a line of [content] that is not a comment,
    assigns a non-empty value to a non-empty name that includes neither
    SECRET nor KEY, and is that name and value without the white space
    around them. *)
Definition exported_from (content : string) (kv : string * string)
    : Prop :=
  exists line key value,
    In line (Text.split Text.newline content)
    /\ Text.startsWith "#" line = false
    /\ assigns line key value
    /\ key <> EmptyString /\ value <> EmptyString
    /\ Text.includes "SECRET" key = false
    /\ Text.includes "KEY" key = false
    /\ kv = (Text.trim key, Text.trim value).

(** [pieces.join(sep)] *)
Fixpoint join (sep : ascii) (pieces : list string) : string :=
  match pieces with
  | [] => EmptyString
  | [piece] => piece
  | piece :: rest => append piece (String sep (join sep rest))
  end.

(** A frame without its timestamps and timings: what the order and the
    content of a download run consist of. *)
Inductive Event : Type :=
| Started (totalBytes : Z)
| Sent (len : Z)
| Progressed (bytesSent totalBytes : Z) (progress : Js.Fixed)
| SentWithProgress (bytesTransferred totalBytes len : Z)
| Completed (bytes : Z)
| Other.

Definition event_of (f : Frame) : Event :=
  match f with
  | DownloadStarted _ t => Started t
  | Chunk n => Sent n
  | DownloadProgress _ b t p => Progressed b t p
  | ChunkProgress _ b t n => SentWithProgress b t n
  | DownloadComplete _ b _ _ => Completed b
  | DownloadCompleteMs _ b _ => Completed b
  | _ => Other
  end.

Definition events (l : list Frame) : list Event := map event_of l.

(** What [sendNext] and [sendNextChunk] owe from [bytesSent = b] on, for
    [n] chunks: each chunk, followed at once by a progress event when the
    new count is a multiple of 1 MiB or the total, and by nothing
    otherwise. *)
Fixpoint stream (n : nat) (chunkSize total b : Z) : list Event :=
  match n with
  | O => []
  | S n' =>
      let c := Z.min chunkSize (total - b) in
      Sent c
      :: (if progress_due (b + c) total
          then [Progressed (b + c) total (percent (b + c) total)]
          else [])
      ++ stream n' chunkSize total (b + c)
  end.

(** The same for [sendChunk] of the Durable Object: every chunk travels
    inside its own progress event. *)
Fixpoint stream_all (n : nat) (chunkSize total b : Z) : list Event :=
  match n with
  | O => []
  | S n' =>
      let c := Z.min chunkSize (total - b) in
      SentWithProgress (b + c) total c
      :: stream_all n' chunkSize total (b + c)
  end.

(** [n] tenths are nearest to [m * 2^e]; of two numbers equally near, [n]
    is the larger. *)
Definition nearest_tenths (m : positive) (e n : Z) : Prop :=
  (2 * n - 1) * 2 ^ Z.max 0 (- e)
  <= 20 * Z.pos m * 2 ^ Z.max 0 e
  < (2 * n + 1) * 2 ^ Z.max 0 (- e).

(** [text] is the numeral of [n] tenths: the digits of the whole part, a
    point, and one digit. *)
Definition numeral_of_tenths (n : Z) (text : string) : Prop :=
  exists d : ascii,
    text = append (Js.digits (n / 10)) (String "." (String d EmptyString))
    /\ Z.of_nat (nat_of_ascii d) = 48 + n mod 10.

(** What printing the double [x] with one decimal asks of the text [t]
    that is sent. *)
Definition one_decimal_of (x : Js.double) (t : Js.Fixed) : Prop :=
  match x with
  | SpecFloat.S754_finite s m e =>
      Js.at_least_1e21 m e = false ->
      exists n text,
        nearest_tenths m e n
        /\ 0 <= n
        /\ numeral_of_tenths n text
        /\ t = Js.Decimal (append (if s then "-" else "") text)
  | SpecFloat.S754_zero _ => t = Js.Decimal "0.0"
  | SpecFloat.S754_infinity s =>
      t = Js.Decimal (if s then "-Infinity" else "Infinity")
  | SpecFloat.S754_nan => t = Js.Decimal "NaN"
  end.

(* ------------------------------------------------------------------ *)
(** ** Arithmetic of the chunking *)

Lemma chunk_count_done C r : 0 < C -> r <= 0 -> chunk_count C r = 0%nat.
Proof.
  intros HC Hr. unfold chunk_count.
  assert ((r + C - 1) / C <= 0).
  { apply Z.lt_succ_r. apply Z.div_lt_upper_bound; lia. }
  lia.
Qed.

Lemma chunk_count_step C r :
  0 < C -> 0 < r -> chunk_count C r = S (chunk_count C (r - Z.min C r)).
Proof.
  intros HC Hr. unfold chunk_count.
  destruct (Z.le_gt_cases C r) as [Hle | Hgt].
  - rewrite Z.min_l by lia.
    replace (r + C - 1) with ((r - C + C - 1) + 1 * C) by lia.
    rewrite Z.div_add by lia.
    assert (0 <= (r - C + C - 1) / C) by (apply Z.div_pos; lia).
    lia.
  - rewrite Z.min_r by lia.
    replace (r - r + C - 1) with (C - 1) by lia.
    rewrite (Z.div_small (C - 1)) by lia.
    replace (r + C - 1) with ((r - 1) + 1 * C) by lia.
    rewrite Z.div_add by lia.
    rewrite Z.div_small by lia. reflexivity.
Qed.

Lemma chunk_count_zero C r : 0 < C -> chunk_count C r = 0%nat -> r <= 0.
Proof.
  intros HC H. destruct (Z.le_gt_cases r 0) as [|Hr]; [assumption|].
  rewrite chunk_count_step in H by lia. discriminate.
Qed.

Lemma slices_done C : 0 < C -> slices C 0 = [].
Proof.
  intros HC. unfold slices. rewrite Z.div_0_l, Z.mod_0_l by lia. reflexivity.
Qed.

Lemma slices_step C r :
  0 < C -> 0 < r -> slices C r = Z.min C r :: slices C (r - Z.min C r).
Proof.
  intros HC Hr. unfold slices.
  destruct (Z.le_gt_cases C r) as [Hle | Hgt].
  - rewrite Z.min_l by lia.
    assert (Hd : r / C = (r - C) / C + 1).
    { replace r with ((r - C) + 1 * C) at 1 by lia. apply Z.div_add; lia. }
    assert (Hm : r mod C = (r - C) mod C).
    { replace r with ((r - C) + 1 * C) at 1 by lia. apply Z.mod_add; lia. }
    assert (0 <= (r - C) / C) by (apply Z.div_pos; lia).
    rewrite Hd, Hm.
    replace (Z.to_nat ((r - C) / C + 1))
      with (S (Z.to_nat ((r - C) / C))) by lia.
    reflexivity.
  - rewrite Z.min_r by lia.
    replace (r - r) with 0 by lia.
    rewrite Z.div_0_l, Z.mod_0_l by lia.
    rewrite Z.div_small, Z.mod_small by lia.
    destruct (r =? 0) eqn:E; [lia|]. reflexivity.
Qed.

Lemma cumulative_from_done C total b :
  0 < C -> total <= b -> cumulative_from C total b = [].
Proof.
  intros HC Hb. unfold cumulative_from.
  rewrite chunk_count_done by lia. reflexivity.
Qed.

Lemma cumulative_from_step C total b :
  0 < C -> b < total ->
  cumulative_from C total b =
  (b + Z.min C (total - b))
    :: cumulative_from C total (b + Z.min C (total - b)).
Proof.
  intros HC Hb. unfold cumulative_from.
  rewrite (@chunk_count_step C (total - b)) by lia.
  cbn [seq map]. f_equal.
  - lia.
  - replace (total - (b + Z.min C (total - b)))
      with (total - b - Z.min C (total - b)) by lia.
    destruct (Z.le_gt_cases C (total - b)) as [Hle | Hgt].
    + rewrite Z.min_l by lia.
      rewrite <- seq_shift, map_map.
      apply map_ext. intros i. f_equal. lia.
    + rewrite Z.min_r by lia.
      rewrite chunk_count_done by lia. reflexivity.
Qed.

Lemma sum_slices C r : 0 < C -> 0 <= r -> sum (slices C r) = r.
Proof.
  intros HC Hr. unfold slices, sum.
  rewrite fold_right_app.
  assert (Hrep : forall n acc,
             fold_right Z.add acc (repeat C n) = Z.of_nat n * C + acc).
  { induction n; intros acc; cbn [repeat fold_right];
      [lia | rewrite IHn; lia]. }
  rewrite Hrep. rewrite Z2Nat.id by (apply Z.div_pos; lia).
  pose proof (Z.div_mod r C ltac:(lia)) as E.
  destruct (r mod C =? 0) eqn:E0; cbn [fold_right]; lia.
Qed.

Lemma marks_from_done C total b :
  0 < C -> total <= b -> marks_from C total b = [].
Proof.
  intros HC Hb. unfold marks_from. rewrite cumulative_from_done by lia.
  reflexivity.
Qed.

Lemma marks_from_step C total b :
  0 < C -> b < total ->
  marks_from C total b =
  (if progress_due (b + Z.min C (total - b)) total
   then [(b + Z.min C (total - b), total)] else [])
  ++ marks_from C total (b + Z.min C (total - b)).
Proof.
  intros HC Hb. unfold marks_from.
  rewrite (@cumulative_from_step C total b) by lia.
  cbn [filter]. destruct (progress_due _ _); reflexivity.
Qed.

(* ------------------------------------------------------------------ *)
(** ** The event loop *)

Section EventLoopFacts.

Variables T Msg : Type.
Variable on_message : Msg -> M T unit.
Variable run_task : T -> M T unit.
Variable on_close : M T unit.

Lemma step_fire_head (w : World T) t rest :
  queue w = t :: rest ->
  step on_message run_task on_close (Fire 0) w =
  invoke (run_task t) (with_queue w rest).
Proof. intros Hq. unfold step. rewrite Hq. reflexivity. Qed.

Lemma drain_head fuel (w : World T) t rest :
  queue w = t :: rest ->
  drain on_message run_task on_close (S fuel) w =
  drain on_message run_task on_close fuel
        (invoke (run_task t) (with_queue w rest)).
Proof.
  intros Hq. cbn [drain]. rewrite Hq. rewrite (@step_fire_head w t rest Hq).
  reflexivity.
Qed.

Lemma drain_idle fuel (w : World T) :
  queue w = [] -> drain on_message run_task on_close fuel w = w.
Proof.
  intros Hq. destruct fuel; cbn [drain]; [|rewrite Hq]; reflexivity.
Qed.

Lemma drain_add n k (w : World T) :
  drain on_message run_task on_close (n + k) w =
  drain on_message run_task on_close k
        (drain on_message run_task on_close n w).
Proof.
  revert w. induction n as [|n IH]; intros w; [reflexivity|].
  cbn [Nat.add drain]. destruct (queue w) eqn:Hq.
  - symmetry. apply drain_idle. exact Hq.
  - apply IH.
Qed.

Lemma drain_enough n fuel (w : World T) :
  (n <= fuel)%nat ->
  queue (drain on_message run_task on_close n w) = [] ->
  drain on_message run_task on_close fuel w =
  drain on_message run_task on_close n w.
Proof.
  intros Hle Hq. replace fuel with (n + (fuel - n))%nat by lia.
  rewrite drain_add. apply drain_idle. exact Hq.
Qed.

End EventLoopFacts.

(** Projections distribute over the frames of successive steps. *)
Ltac split_frames :=
  unfold started_totals, chunk_lengths, progress_marks, complete_totals in *;
  rewrite ?flat_map_app; cbn [flat_map app].

(* ------------------------------------------------------------------ *)
(** ** [Pages]: a download run *)

Lemma sendNext_alive h total C (w : World Pages.Task) :
  alive w = true ->
  Pages.sendNext h total C w =
  (Ok tt,
   if bytesTransferred (session w) >=? total
   then pages_after_complete h total w
   else pages_after_chunk h total C w).
Proof.
  destruct w as [[ph bt st la] q o d u r wr al rg]. cbn. intros ->.
  unfold Pages.sendNext, pages_after_complete, pages_after_chunk, bind,
    get_session, set_session, now, send, schedule, ret.
  cbn.
  destruct (bt >=? total); cbn; [reflexivity|].
  destruct (progress_due _ _); cbn; try rewrite <- app_assoc; reflexivity.
Qed.

Lemma pages_loop h total C (HC : 0 < C) :
  forall n (w : World Pages.Task),
    alive w = true -> queue w = [] ->
    chunk_count C (total - bytesTransferred (session w)) = n ->
    exists fs,
      Finished w (Pages.drain h n (invoke (Pages.sendNext h total C) w)) fs
      /\ Summary fs []
                 (slices C (Z.max 0 (total - bytesTransferred (session w))))
                 (marks_from C total (bytesTransferred (session w)))
                 [total].
Proof.
  induction n as [|n IH]; intros w Ha Hq Hn.
  - apply chunk_count_zero in Hn; [|assumption].
    unfold invoke. rewrite sendNext_alive by assumption.
    assert (E : (bytesTransferred (session w) >=? total) = true) by lia.
    rewrite E. cbn [Pages.drain drain].
    eexists. split; [split; [exact Hq | reflexivity | reflexivity]|].
    split; try reflexivity.
    + rewrite Z.max_l by lia. rewrite slices_done by assumption. reflexivity.
    + rewrite marks_from_done by lia. reflexivity.
    + repeat constructor.
  - assert (Hlt : bytesTransferred (session w) < total).
    { destruct (Z.lt_ge_cases (bytesTransferred (session w)) total);
        [assumption|].
      rewrite chunk_count_done in Hn by lia. discriminate. }
    unfold invoke. rewrite sendNext_alive by assumption.
    assert (E : (bytesTransferred (session w) >=? total) = false) by lia.
    rewrite E.
    set (w1 := pages_after_chunk h total C w).
    assert (Hq1 : queue w1 = [Pages.SendNext total C]).
    { unfold w1, pages_after_chunk. cbn. rewrite Hq. reflexivity. }
    unfold Pages.drain. erewrite drain_head by exact Hq1.
    cbn [Pages.run_task]. set (w2 := with_queue w1 []).
    destruct (IH w2) as [fs ([Hq' Ha' Ho'] & [S0 S1 S2 S3 S4])].
    + reflexivity.
    + reflexivity.
    + rewrite (@chunk_count_step C (total - bytesTransferred (session w)))
        in Hn by lia.
      injection Hn as Hn. rewrite <- Hn. f_equal. unfold w2, w1. cbn. lia.
    + fold (Pages.drain h n).
      eexists. split; [split; [exact Hq' | exact Ha' |]|].
      * rewrite Ho'. unfold w2, w1, with_queue, pages_after_chunk.
        cbn [outbox]. rewrite <- app_assoc. reflexivity.
      * unfold w2, w1 in S1, S2. cbn in S1, S2.
        rewrite Z.max_r in S1 by lia.
        split.
        -- split_frames. destruct (progress_due _ _); cbn [flat_map app];
             exact S0.
        -- rewrite Z.max_r by lia.
           rewrite (@slices_step C (total - bytesTransferred (session w)))
             by lia.
           split_frames.
           destruct (progress_due _ _); cbn [flat_map app]; rewrite S1;
             f_equal; f_equal; lia.
        -- rewrite (@marks_from_step C total (bytesTransferred (session w)))
             by lia.
           split_frames.
           destruct (progress_due _ _); cbn [flat_map app]; rewrite S2;
             reflexivity.
        -- split_frames.
           destruct (progress_due _ _); cbn [flat_map app]; exact S3.
        -- apply Forall_app. split; [|exact S4].
           destruct (progress_due _ _); repeat constructor.
Qed.

Lemma pages_start h size chunkSize (w : World Pages.Task) :
  alive w = true ->
  0 <= chunk_size chunkSize <= max_alloc h ->
  Pages.step h (Deliver (Pages.DownloadStart size chunkSize)) w =
  invoke (Pages.sendNext h (safe_size size) (chunk_size chunkSize))
         (started h (safe_size size) w).
Proof.
  intros Ha HC.
  unfold Pages.step, step, invoke at 1, Pages.on_message, try_catch.
  assert (E : Pages.sendNext h (safe_size size) (chunk_size chunkSize)
                (started h (safe_size size) w) =
              (Ok tt,
               snd (Pages.sendNext h (safe_size size) (chunk_size chunkSize)
                      (started h (safe_size size) w)))).
  { rewrite sendNext_alive by reflexivity. reflexivity. }
  unfold invoke. rewrite E.
  destruct w as [[ph bt st la] q o d u r wr al rg]. cbn in Ha. subst al.
  unfold bind, now, get_session, set_session, enter, send, alloc.
  cbn -[Js.or_default Z.min Z.mul Z.ltb Pages.sendNext].
  fold (chunk_size chunkSize). fold (safe_size size).
  assert (Ea : ((chunk_size chunkSize <? 0)
                || (max_alloc h <? chunk_size chunkSize)) = false).
  { apply orb_false_iff. split; lia. }
  rewrite Ea. unfold ret.
  unfold started in E.
  cbn -[Js.or_default Z.min Z.mul Z.ltb Pages.sendNext] in E |- *.
  rewrite E. reflexivity.
Qed.

(** A whole download on [onRequestGET], for any sufficient fuel. *)
Lemma pages_download h size chunkSize (w : World Pages.Task) fuel :
  alive w = true -> queue w = [] ->
  0 < chunk_size chunkSize <= max_alloc h ->
  (chunk_count (chunk_size chunkSize) (safe_size size) <= fuel)%nat ->
  exists fs,
    Finished w (Pages.download h fuel size chunkSize w) fs
    /\ Summary fs [safe_size size]
               (slices (chunk_size chunkSize) (Z.max 0 (safe_size size)))
               (marks_from (chunk_size chunkSize) (safe_size size) 0)
               [safe_size size].
Proof.
  intros Ha Hq HC Hfuel.
  unfold Pages.download. rewrite pages_start by (assumption || lia).
  set (n := chunk_count (chunk_size chunkSize) (safe_size size)) in *.
  destruct (@pages_loop h (safe_size size) (chunk_size chunkSize)
              ltac:(lia) n (started h (safe_size size) w))
    as [fs ([Hq' Ha' Ho'] & [S0 S1 S2 S3 S4])].
  - reflexivity.
  - exact Hq.
  - unfold n. cbn. f_equal. lia.
  - unfold Pages.drain in *. rewrite (@drain_enough _ _ _ _ _ n fuel)
      by assumption.
    cbn in S1, S2. rewrite Z.sub_0_r in S1.
    eexists. split; [split; [exact Hq' | exact Ha' |]|].
    + rewrite Ho'. unfold started. cbn [outbox]. rewrite <- app_assoc.
      reflexivity.
    + split; split_frames; try (f_equal; assumption); try assumption.
      constructor; [exact I | assumption].
Qed.

(* ------------------------------------------------------------------ *)
(** ** [NodeWs]: a download run *)

Lemma invoke_ok {T} (c : M T unit) (w w' : World T) :
  c w = (Ok tt, w') -> invoke c w = w'.
Proof. intros E. unfold invoke. rewrite E. reflexivity. Qed.

Lemma sendNextChunk_more h total C bs (w : World NodeWs.Task) :
  bs < total ->
  NodeWs.sendNextChunk h total C bs w = (Ok tt, node_after_write h total C bs w).
Proof.
  intros Hlt. unfold NodeWs.sendNextChunk.
  assert (E : (bs >=? total) = false) by lia. rewrite E. reflexivity.
Qed.

Lemma write_done_ack h total C bs c (w : World NodeWs.Task) :
  alive w = true ->
  NodeWs.write_done h total C bs c false w =
  (Ok tt, node_after_ack h total C bs c w).
Proof.
  destruct w as [[ph bt st la] q o d u r wr al rg]. cbn. intros ->.
  unfold NodeWs.write_done, node_after_ack, bind, get_session, set_session,
    now, send, schedule, ret.
  cbn.
  destruct (progress_due _ _); cbn; destruct (bs + c <? total); cbn;
    rewrite ?app_nil_r; reflexivity.
Qed.

Lemma node_loop h total C (HC : 0 < C)
      (Hok : forall k, write_error h k = false) :
  forall n bs (w : World NodeWs.Task),
    alive w = true -> queue w = [] ->
    bs < total ->
    chunk_count C (total - bs) = S n ->
    exists fs,
      let w' := NodeWs.drain h (2 * n + 1)
                  (invoke (NodeWs.sendNextChunk h total C bs) w) in
      Finished w w' fs
      /\ bytesTransferred (session w') = total
      /\ Summary fs [] (slices C (total - bs)) (marks_from C total bs) [].
Proof.
  induction n as [|n IH]; intros bs w Ha Hq Hlt Hn.
  - unfold invoke. rewrite sendNextChunk_more by assumption.
    set (w1 := node_after_write h total C bs w).
    assert (Hq1 : queue w1 =
                  [NodeWs.WriteDone total C bs (Z.min C (total - bs)) false]).
    { unfold w1, node_after_write. cbn. rewrite Hq, Ha, Hok. reflexivity. }
    unfold NodeWs.drain. cbn [Nat.mul Nat.add].
    erewrite drain_head by exact Hq1.
    cbn [NodeWs.run_task drain]. unfold invoke.
    rewrite write_done_ack by (unfold w1; cbn; exact Ha).
    rewrite (@chunk_count_step C (total - bs)) in Hn by lia.
    injection Hn as Hn. apply chunk_count_zero in Hn; [|assumption].
    assert (Eb : bs + Z.min C (total - bs) = total) by lia.
    unfold node_after_ack, with_queue, w1, node_after_write.
    rewrite Ha, Hok. cbn [negb orb session queue outbox alive reads app].
    rewrite Eb.
    assert (Ed : progress_due total total = true).
    { unfold progress_due. rewrite Z.eqb_refl. apply orb_true_r. }
    rewrite Ed, Z.ltb_irrefl.
    eexists. split; [split; [reflexivity | reflexivity |]|].
    + cbn [outbox]. rewrite <- app_assoc. reflexivity.
    + split; [reflexivity|].
      split; try reflexivity.
      * rewrite (@slices_step C (total - bs)) by lia.
        replace (total - bs - Z.min C (total - bs)) with 0 by lia.
        rewrite slices_done by assumption. reflexivity.
      * rewrite (@marks_from_step C total bs) by lia.
        rewrite Eb, Ed. rewrite marks_from_done by lia. reflexivity.
      * repeat constructor.
  - unfold invoke. rewrite sendNextChunk_more by assumption.
    set (w1 := node_after_write h total C bs w).
    set (c := Z.min C (total - bs)).
    assert (Hq1 : queue w1 = [NodeWs.WriteDone total C bs c false]).
    { unfold w1, node_after_write. cbn. rewrite Hq, Ha, Hok. reflexivity. }
    unfold NodeWs.drain.
    replace (2 * S n + 1)%nat with (S (S (2 * n + 1))) by lia.
    erewrite drain_head by exact Hq1.
    cbn [NodeWs.run_task].
    rewrite (@invoke_ok _ _ _ _ (@write_done_ack h total C bs c
                                   (with_queue w1 []) Ha)).
    rewrite (@chunk_count_step C (total - bs)) in Hn by lia.
    injection Hn as Hn. fold c in Hn.
    assert (Hlt' : bs + c < total).
    { destruct (Z.lt_ge_cases (bs + c) total); [assumption|].
      rewrite chunk_count_done in Hn by lia. discriminate. }
    set (w2 := node_after_ack h total C bs c (with_queue w1 [])).
    assert (Hq2 : queue w2 = [NodeWs.SendNextChunk total C (bs + c)]).
    { unfold w2, node_after_ack. cbn.
      assert (E : (bs + c <? total) = true) by lia. rewrite E. reflexivity. }
    erewrite drain_head by exact Hq2.
    cbn [NodeWs.run_task].
    destruct (IH (bs + c) (with_queue w2 [])) as
        [fs ([Hq' Ha' Ho'] & Hb' & [S0 S1 S2 S3 S4])].
    + reflexivity.
    + reflexivity.
    + exact Hlt'.
    + rewrite <- Hn. f_equal. lia.
    + fold (NodeWs.drain h (2 * n + 1)).
      eexists. split; [split; [exact Hq' | exact Ha' |]|].
      * rewrite Ho'. unfold w2, w1, with_queue, node_after_ack,
          node_after_write.
        rewrite Ha, Hok. cbn [negb orb outbox].
        rewrite <- !app_assoc. reflexivity.
      * split; [exact Hb'|].
        split.
        -- split_frames. destruct (progress_due _ _); cbn [flat_map app];
             exact S0.
        -- rewrite (@slices_step C (total - bs)) by lia. fold c.
           split_frames.
           destruct (progress_due _ _); cbn [flat_map app]; rewrite S1;
             f_equal; f_equal; lia.
        -- rewrite (@marks_from_step C total bs) by lia. fold c.
           split_frames.
           destruct (progress_due _ _); cbn [flat_map app]; rewrite S2;
             reflexivity.
        -- split_frames.
           destruct (progress_due _ _); cbn [flat_map app]; exact S3.
        -- constructor; [exact I|]. apply Forall_app. split; [|exact S4].
           destruct (progress_due _ _); repeat constructor.
Qed.

Lemma sendNextChunk_done h total C bs (w : World NodeWs.Task) :
  alive w = true -> total <= bs ->
  NodeWs.sendNextChunk h total C bs w = (Ok tt, node_after_complete h total w).
Proof.
  destruct w as [[ph bt st la] q o d u r wr al rg]. cbn. intros -> Hle.
  unfold NodeWs.sendNextChunk.
  assert (E : (bs >=? total) = true) by lia. rewrite E. reflexivity.
Qed.

Lemma sendNextChunk_ok h total C bs (w : World NodeWs.Task) :
  alive w = true ->
  NodeWs.sendNextChunk h total C bs w =
  (Ok tt, snd (NodeWs.sendNextChunk h total C bs w)).
Proof.
  intros Ha. destruct (Z.lt_ge_cases bs total).
  - rewrite sendNextChunk_more by assumption. reflexivity.
  - rewrite sendNextChunk_done by assumption. reflexivity.
Qed.

Lemma node_start h size chunkSize (w : World NodeWs.Task) :
  alive w = true ->
  0 <= chunk_size chunkSize <= max_alloc h ->
  NodeWs.step h (Deliver (NodeWs.DownloadTest size chunkSize)) w =
  invoke (NodeWs.sendNextChunk h (safe_size size) (chunk_size chunkSize) 0)
         (node_started h (safe_size size) w).
Proof.
  intros Ha HC.
  unfold NodeWs.step, step, invoke at 1, NodeWs.on_message, try_catch.
  pose proof (@sendNextChunk_ok h (safe_size size) (chunk_size chunkSize) 0
                (node_started h (safe_size size) w) eq_refl) as E.
  unfold invoke. rewrite E.
  destruct w as [[ph bt st la] q o d u r wr al rg]. cbn in Ha. subst al.
  unfold NodeWs.handleDownloadTest, bind, now, get_session, set_session,
    enter, send, alloc.
  cbn -[Js.or_default Z.min Z.mul Z.ltb NodeWs.sendNextChunk].
  fold (chunk_size chunkSize). fold (safe_size size).
  assert (Ea : ((chunk_size chunkSize <? 0)
                || (max_alloc h <? chunk_size chunkSize)) = false).
  { apply orb_false_iff. split; lia. }
  rewrite Ea. unfold ret.
  unfold node_started in E.
  cbn -[Js.or_default Z.min Z.mul Z.ltb NodeWs.sendNextChunk] in E |- *.
  rewrite E. reflexivity.
Qed.

(** A whole download on the Node server when no write fails. *)
Lemma node_download h size chunkSize (w : World NodeWs.Task) fuel :
  alive w = true -> queue w = [] ->
  (forall k, write_error h k = false) ->
  0 < chunk_size chunkSize <= max_alloc h ->
  0 < safe_size size ->
  (2 * chunk_count (chunk_size chunkSize) (safe_size size) <= fuel)%nat ->
  exists fs,
    Finished w (NodeWs.download h fuel size chunkSize w) fs
    /\ bytesTransferred (session (NodeWs.download h fuel size chunkSize w))
       = safe_size size
    /\ Summary fs [safe_size size]
               (slices (chunk_size chunkSize) (safe_size size))
               (marks_from (chunk_size chunkSize) (safe_size size) 0)
               [].
Proof.
  intros Ha Hq Hok HC Hpos Hfuel.
  unfold NodeWs.download. rewrite node_start by (assumption || lia).
  destruct (chunk_count (chunk_size chunkSize) (safe_size size)) as [|n] eqn:En.
  { apply chunk_count_zero in En; lia. }
  destruct (@node_loop h (safe_size size) (chunk_size chunkSize)
              ltac:(lia) Hok n 0 (node_started h (safe_size size) w))
    as [fs ([Hq' Ha' Ho'] & Hb' & [S0 S1 S2 S3 S4])].
  - reflexivity.
  - exact Hq.
  - exact Hpos.
  - rewrite Z.sub_0_r. exact En.
  - unfold NodeWs.drain in *.
    rewrite (@drain_enough _ _ _ _ _ (2 * n + 1)%nat fuel) by (assumption || lia).
    rewrite Z.sub_0_r in S1.
    eexists. split; [split; [exact Hq' | exact Ha' |]|].
    + rewrite Ho'. unfold node_started. cbn [outbox]. rewrite <- app_assoc.
      reflexivity.
    + split; [exact Hb'|].
      split; split_frames; try (f_equal; assumption); try assumption.
      constructor; [exact I | assumption].
Qed.

(** With a size that is not positive the first call already sends the
    final frame. *)
Lemma node_download_empty h size chunkSize (w : World NodeWs.Task) fuel :
  alive w = true -> queue w = [] ->
  0 <= chunk_size chunkSize <= max_alloc h ->
  safe_size size <= 0 ->
  exists fs,
    Finished w (NodeWs.download h fuel size chunkSize w) fs
    /\ Summary fs [safe_size size] [] [] [safe_size size].
Proof.
  intros Ha Hq HC Hneg.
  unfold NodeWs.download. rewrite node_start by (assumption || lia).
  rewrite (@invoke_ok _ _ _ _
             (@sendNextChunk_done h (safe_size size) (chunk_size chunkSize) 0
                (node_started h (safe_size size) w) eq_refl Hneg)).
  unfold NodeWs.drain. rewrite drain_idle by exact Hq.
  eexists. split; [split; [exact Hq | reflexivity |]|].
  - unfold node_after_complete, node_started. cbn [outbox].
    rewrite <- app_assoc. reflexivity.
  - split; try reflexivity. repeat constructor.
Qed.

(* ------------------------------------------------------------------ *)
(** ** [DurableObject]: a download run *)

Lemma do_sendChunk_done h total C bs (w : World DurableObject.Task) :
  alive w = true -> total <= bs ->
  DurableObject.sendChunk h total C bs w = (Ok tt, do_after_complete h bs w).
Proof.
  destruct w as [[ph bt st la] q o d u r wr al rg]. cbn. intros -> Hle.
  unfold DurableObject.sendChunk.
  assert (E : (bs >=? total) = true) by lia. rewrite E. reflexivity.
Qed.

Lemma do_sendChunk_more h total C bs (w : World DurableObject.Task) :
  alive w = true -> bs < total ->
  0 <= Z.min C (total - bs) <= max_alloc h ->
  DurableObject.sendChunk h total C bs w =
  (Ok tt, do_after_chunk h total C bs w).
Proof.
  destruct w as [[ph bt st la] q o d u r wr al rg]. cbn. intros -> Hlt Hc.
  unfold DurableObject.sendChunk, do_after_chunk.
  assert (E : (bs >=? total) = false) by lia. rewrite E.
  unfold bind, alloc.
  assert (Ea : ((Z.min C (total - bs) <? 0)
                || (max_alloc h <? Z.min C (total - bs))) = false).
  { apply orb_false_iff. split; lia. }
  rewrite Ea. reflexivity.
Qed.

Lemma marks_all_done C total b :
  0 < C -> total <= b -> marks_all C total b = [].
Proof.
  intros HC Hb. unfold marks_all. rewrite cumulative_from_done by lia.
  reflexivity.
Qed.

Lemma marks_all_step C total b :
  0 < C -> b < total ->
  marks_all C total b =
  (b + Z.min C (total - b), total)
    :: marks_all C total (b + Z.min C (total - b)).
Proof.
  intros HC Hb. unfold marks_all.
  rewrite (@cumulative_from_step C total b) by lia. reflexivity.
Qed.

Lemma do_loop h total C (HC : 0 < C <= max_alloc h) :
  forall n bs (w : World DurableObject.Task),
    alive w = true -> queue w = [] ->
    chunk_count C (total - bs) = n ->
    exists fs,
      Finished w (DurableObject.drain h n
                    (invoke (DurableObject.sendChunk h total C bs) w)) fs
      /\ Summary fs [] (slices C (Z.max 0 (total - bs)))
                 (marks_all C total bs) [Z.max bs total].
Proof.
  induction n as [|n IH]; intros bs w Ha Hq Hn.
  - apply chunk_count_zero in Hn; [|lia].
    rewrite (@invoke_ok _ _ _ _ (@do_sendChunk_done h total C bs w Ha
                                   ltac:(lia))).
    cbn [DurableObject.drain drain].
    eexists. split; [split; [exact Hq | reflexivity | reflexivity]|].
    split; try reflexivity.
    + rewrite Z.max_l by lia. rewrite slices_done by lia. reflexivity.
    + rewrite marks_all_done by lia. reflexivity.
    + cbn. rewrite Z.max_l by lia. reflexivity.
    + repeat constructor.
  - assert (Hlt : bs < total).
    { destruct (Z.lt_ge_cases bs total); [assumption|].
      rewrite chunk_count_done in Hn by lia. discriminate. }
    rewrite (@invoke_ok _ _ _ _ (@do_sendChunk_more h total C bs w Ha Hlt
                                   ltac:(lia))).
    set (c := Z.min C (total - bs)).
    set (w1 := do_after_chunk h total C bs w).
    assert (Hq1 : queue w1 = [DurableObject.SendChunk total C (bs + c)]).
    { unfold w1, do_after_chunk. cbn. rewrite Hq. reflexivity. }
    unfold DurableObject.drain. erewrite drain_head by exact Hq1.
    cbn [DurableObject.run_task].
    destruct (IH (bs + c) (with_queue w1 [])) as
        [fs ([Hq' Ha' Ho'] & [S0 S1 S2 S3 S4])].
    + reflexivity.
    + reflexivity.
    + rewrite (@chunk_count_step C (total - bs)) in Hn by lia.
      injection Hn as Hn. rewrite <- Hn. f_equal. unfold c. lia.
    + fold (DurableObject.drain h n).
      eexists. split; [split; [exact Hq' | exact Ha' |]|].
      * rewrite Ho'. unfold w1, with_queue, do_after_chunk.
        cbn [outbox]. rewrite <- app_assoc. reflexivity.
      * rewrite Z.max_r in S1 by lia.
        split.
        -- split_frames. exact S0.
        -- rewrite Z.max_r by lia.
           rewrite (@slices_step C (total - bs)) by lia. fold c.
           split_frames. rewrite S1. f_equal. f_equal. lia.
        -- rewrite (@marks_all_step C total bs) by lia. fold c.
           split_frames. rewrite S2. reflexivity.
        -- split_frames. rewrite S3. f_equal. lia.
        -- constructor; [exact I | exact S4].
Qed.

Lemma do_sendChunk_ok h total C bs (w : World DurableObject.Task) :
  alive w = true -> 0 < C <= max_alloc h ->
  DurableObject.sendChunk h total C bs w =
  (Ok tt, snd (DurableObject.sendChunk h total C bs w)).
Proof.
  intros Ha HC. destruct (Z.lt_ge_cases bs total).
  - rewrite do_sendChunk_more by (assumption || lia). reflexivity.
  - rewrite do_sendChunk_done by assumption. reflexivity.
Qed.

Lemma do_start h size chunkSize (w : World DurableObject.Task) :
  alive w = true ->
  0 < chunk_size chunkSize <= max_alloc h ->
  DurableObject.step h
    (Deliver (DurableObject.DownloadStart size chunkSize)) w =
  invoke (DurableObject.sendChunk h (safe_size size)
            (chunk_size chunkSize) 0)
         (started h (safe_size size) w).
Proof.
  intros Ha HC.
  unfold DurableObject.step, step, invoke at 1, DurableObject.handleMessage,
    try_catch.
  pose proof (@do_sendChunk_ok h (safe_size size) (chunk_size chunkSize) 0
                (started h (safe_size size) w) eq_refl HC) as E.
  unfold invoke. rewrite E.
  destruct w as [[ph bt st la] q o d u r wr al rg]. cbn in Ha. subst al.
  unfold DurableObject.handleDownloadTest, bind, now, get_session,
    set_session, enter, send, ret.
  cbn -[Js.or_default Z.min Z.mul Z.ltb DurableObject.sendChunk].
  fold (chunk_size chunkSize). fold (safe_size size).
  unfold started in E.
  cbn -[Js.or_default Z.min Z.mul Z.ltb DurableObject.sendChunk] in E |- *.
  rewrite E. reflexivity.
Qed.

(** A whole download on the Durable Object, for any sufficient fuel. *)
Lemma do_download h size chunkSize (w : World DurableObject.Task) fuel :
  alive w = true -> queue w = [] ->
  0 < chunk_size chunkSize <= max_alloc h ->
  (chunk_count (chunk_size chunkSize) (safe_size size) <= fuel)%nat ->
  exists fs,
    Finished w (DurableObject.download h fuel size chunkSize w) fs
    /\ Summary fs [safe_size size]
               (slices (chunk_size chunkSize) (Z.max 0 (safe_size size)))
               (marks_all (chunk_size chunkSize) (safe_size size) 0)
               [Z.max 0 (safe_size size)].
Proof.
  intros Ha Hq HC Hfuel.
  unfold DurableObject.download. rewrite do_start by assumption.
  set (n := chunk_count (chunk_size chunkSize) (safe_size size)) in *.
  destruct (@do_loop h (safe_size size) (chunk_size chunkSize) HC n 0
              (started h (safe_size size) w))
    as [fs ([Hq' Ha' Ho'] & [S0 S1 S2 S3 S4])].
  - reflexivity.
  - exact Hq.
  - unfold n. f_equal. lia.
  - unfold DurableObject.drain in *.
    rewrite (@drain_enough _ _ _ _ _ n fuel) by assumption.
    rewrite Z.sub_0_r in S1.
    eexists. split; [split; [exact Hq' | exact Ha' |]|].
    + rewrite Ho'. unfold started. cbn [outbox]. rewrite <- app_assoc.
      reflexivity.
    + split; split_frames; try (f_equal; assumption); try assumption.
      constructor; [exact I | assumption].
Qed.

(* ------------------------------------------------------------------ *)
(** ** Invariants of handlers, by composition *)

Section Preservation.

Variable T : Type.
Variable I : World T -> Prop.

(** [I] looks at the pending callbacks, the accepted frames and the state
    of the socket only. *)
Hypothesis I_frame :
  forall w w' : World T,
    queue w' = queue w -> outbox w' = outbox w -> alive w' = alive w ->
    I w -> I w'.

Definition preserves {A} (c : M T A) : Prop :=
  forall w, I w -> I (snd (c w)).

Lemma preserves_ret {A} (a : A) : preserves (ret a).
Proof. intros w Hw. exact Hw. Qed.

Lemma preserves_throw {A} : preserves (@throw T A).
Proof. intros w Hw. exact Hw. Qed.

Lemma preserves_bind {A B} (c : M T A) (k : A -> M T B) :
  preserves c -> (forall a, preserves (k a)) -> preserves (bind c k).
Proof.
  intros Hc Hk w Hw. unfold bind. specialize (Hc w Hw).
  destruct (c w) as [[a|] w']; cbn in *; [apply Hk|]; assumption.
Qed.

Lemma preserves_try_catch (body handler : M T unit) :
  preserves body -> preserves handler -> preserves (try_catch body handler).
Proof.
  intros Hb Hh w Hw. unfold try_catch. specialize (Hb w Hw).
  destruct (body w) as [[a|] w']; cbn in *; [|apply Hh]; assumption.
Qed.

Lemma preserves_now h : preserves (now h).
Proof. intros w Hw. apply (I_frame w); auto. Qed.

Lemma preserves_or_now h x : preserves (or_now h x).
Proof.
  destruct x as [v|]; cbn; [destruct (v =? 0)|];
    auto using preserves_now, preserves_ret.
Qed.

Lemma preserves_get_session : preserves get_session.
Proof. intros w Hw. exact Hw. Qed.

Lemma preserves_set_session s : preserves (set_session s).
Proof. intros w Hw. apply (I_frame w); auto. Qed.

Lemma preserves_unregister : preserves unregister.
Proof. intros w Hw. apply (I_frame w); auto. Qed.

Lemma preserves_alloc_bind {B} h n (k : unit -> M T B) :
  (0 <= n <= max_alloc h -> preserves (k tt)) ->
  preserves (bind (alloc h n) k).
Proof.
  intros Hk w Hw. unfold bind, alloc.
  destruct ((n <? 0) || (max_alloc h <? n)) eqn:E; cbn; [exact Hw|].
  apply orb_false_iff in E. apply Hk; [lia | exact Hw].
Qed.

Lemma preserves_enter h p : preserves (enter h p).
Proof.
  unfold enter.
  repeat (apply preserves_bind; [|intros ?]);
    auto using preserves_get_session, preserves_set_session, preserves_now.
Qed.

Lemma preserves_invoke (c : M T unit) :
  preserves c -> forall w, I w -> I (invoke c w).
Proof.
  intros Hc w Hw. unfold invoke. specialize (Hc w Hw).
  destruct (c w) as [[a|] w']; cbn in *; [assumption|].
  apply (I_frame w'); auto.
Qed.

Variable Msg : Type.
Variable on_message : Msg -> M T unit.
Variable run_task : T -> M T unit.
Variable on_close : M T unit.

Hypothesis on_message_preserves : forall m, preserves (on_message m).
Hypothesis on_close_preserves : preserves on_close.
Hypothesis closing_preserves : forall w, I w -> I (closed w).
Hypothesis taking_preserves :
  forall w k t rest,
    I w -> take_nth k (queue w) = Some (t, rest) ->
    I (with_queue w rest) /\ preserves (run_task t).

Lemma step_preserves i w :
  I w -> I (step on_message run_task on_close i w).
Proof.
  intros Hw. destruct i as [m|k|]; cbn [step].
  - apply preserves_invoke; auto.
  - destruct (take_nth k (queue w)) as [[t rest]|] eqn:E; [|exact Hw].
    destruct (taking_preserves w k t rest Hw E) as [H1 H2].
    apply preserves_invoke; assumption.
  - apply preserves_invoke; auto. apply closing_preserves. exact Hw.
Qed.

Lemma run_preserves ins :
  forall w, I w -> I (run on_message run_task on_close ins w).
Proof.
  induction ins as [|i ins IH]; intros w Hw; cbn [run]; [exact Hw|].
  apply IH. apply step_preserves. exact Hw.
Qed.

End Preservation.

Arguments preserves {T} I {A} c.

Lemma take_nth_Forall {T} (P : T -> Prop) k :
  forall (l : list T) t rest,
    take_nth k l = Some (t, rest) -> Forall P l -> P t /\ Forall P rest.
Proof.
  induction k as [|k IH]; intros [|x l] t rest E Hl; cbn in E;
    try discriminate.
  - injection E as <- <-. inversion Hl; subst. split; assumption.
  - destruct (take_nth k l) as [[y rest']|] eqn:E'; [|discriminate].
    injection E as <- <-. inversion Hl; subst.
    destruct (IH l y rest' E' H2) as [Hy Hrest].
    split; [assumption | constructor; assumption].
Qed.

Lemma take_nth_length {T} k :
  forall (l : list T) t rest,
    take_nth k l = Some (t, rest) -> List.length l = S (List.length rest).
Proof.
  induction k as [|k IH]; intros [|x l] t rest E; cbn in E;
    try discriminate.
  - injection E as <- <-. reflexivity.
  - destruct (take_nth k l) as [[y rest']|] eqn:E'; [|discriminate].
    injection E as <- <-. cbn. f_equal. eapply IH. exact E'.
Qed.

(* ------------------------------------------------------------------ *)
(** ** After the socket has closed *)

(** Decompose a handler along its binds and branches; what is left are
    its [send]s, [schedule]s, allocations and loops. *)
Ltac preserve_with frame :=
  lazymatch goal with
  | |- preserves _ (ret _) => apply preserves_ret
  | |- preserves _ throw => apply preserves_throw
  | |- preserves _ (bind (alloc _ _) _) => idtac
  | |- preserves _ (bind _ _) =>
      apply preserves_bind; [preserve_with frame
                            | intros ?; preserve_with frame]
  | |- preserves _ (try_catch _ _) =>
      apply preserves_try_catch; preserve_with frame
  | |- preserves _ (now _) => apply preserves_now; apply frame
  | |- preserves _ (or_now _ _) => apply preserves_or_now; apply frame
  | |- preserves _ get_session => apply preserves_get_session
  | |- preserves _ (set_session _) =>
      apply preserves_set_session; apply frame
  | |- preserves _ unregister => apply preserves_unregister; apply frame
  | |- preserves _ (enter _ _) => apply preserves_enter; apply frame
  | |- preserves _ (if ?b then _ else _) => destruct b; preserve_with frame
  | |- preserves _ (match ?x with _ => _ end) =>
      destruct x; preserve_with frame
  | |- _ => idtac
  end.

Lemma quiet_frame {T} o (w w' : World T) :
  queue w' = queue w -> outbox w' = outbox w -> alive w' = alive w ->
  quiet o w -> quiet o w'.
Proof. unfold quiet. intros _ -> ->. auto. Qed.

Lemma quiet_send {T} o h f : preserves (quiet o) (send (T:=T) h f).
Proof.
  intros w [Ha Ho]. unfold send. rewrite Ha. cbn. split; auto.
Qed.

Lemma quiet_schedule {T} o (t : T) : preserves (quiet o) (schedule t).
Proof. intros w [Ha Ho]. split; assumption. Qed.

Lemma quiet_sendChunk o h total C bs :
  preserves (quiet o) (DurableObject.sendChunk h total C bs).
Proof.
  unfold DurableObject.sendChunk.
  destruct (bs >=? total).
  - preserve_with (@quiet_frame DurableObject.Task o). apply quiet_send.
  - apply preserves_alloc_bind. intros _.
    preserve_with (@quiet_frame DurableObject.Task o);
      first [apply quiet_send | apply quiet_schedule].
Qed.

Lemma quiet_handleMessage o h m :
  preserves (quiet o) (DurableObject.handleMessage h m).
Proof.
  unfold DurableObject.handleMessage, DurableObject.handlePing,
    DurableObject.handleDownloadTest, DurableObject.handleUploadStart,
    DurableObject.handleUploadData.
  preserve_with (@quiet_frame DurableObject.Task o);
    try apply quiet_send; try apply quiet_sendChunk.
Qed.

Lemma quiet_run o h ins (w : World DurableObject.Task) :
  quiet o w -> quiet o (DurableObject.run h ins w).
Proof.
  apply run_preserves.
  - apply quiet_frame.
  - apply quiet_handleMessage.
  - apply preserves_unregister. apply quiet_frame.
  - intros w' [Ha Ho]. split; [reflexivity | exact Ho].
  - intros w' k t rest [Ha Ho] _. split; [split; assumption|].
    destruct t. apply quiet_sendChunk.
Qed.

(** On a host whose [send] throws on a closed socket, a pending
    [sendChunk] that runs after the close ends without rescheduling. *)
Lemma do_fire_closed h k t rest (w : World DurableObject.Task) :
  closed_send_throws h = true -> alive w = false ->
  take_nth k (queue w) = Some (t, rest) ->
  queue (DurableObject.step h (Fire k) w) = rest.
Proof.
  intros Hthrow Ha E. unfold DurableObject.step, step. rewrite E.
  destruct t as [total C bs].
  destruct w as [[ph bt st la] q o d u r wr al rg]. cbn in Ha. subst al.
  unfold invoke, DurableObject.run_task, DurableObject.sendChunk, bind, now,
    get_session, send, alloc, throw, ret.
  cbn. destruct (bs >=? total); cbn; rewrite ?Hthrow; cbn; [reflexivity|].
  destruct ((Z.min C (total - bs) <? 0)
            || (max_alloc h <? Z.min C (total - bs))); cbn;
    rewrite ?Hthrow; reflexivity.
Qed.

(* ------------------------------------------------------------------ *)
(** ** Bounds on what is declared and written *)

Lemma or_default_nonzero x d : d <> 0 -> Js.or_default x d <> 0.
Proof.
  intros Hd. unfold Js.or_default. destruct x as [v|]; [|exact Hd].
  destruct (v =? 0) eqn:E; [exact Hd | lia].
Qed.

Lemma safe_size_le size : safe_size size <= 100 * Js.MiB.
Proof. unfold safe_size, Js.MiB. lia. Qed.

Lemma chunk_size_nonzero chunkSize : chunk_size chunkSize <> 0.
Proof. apply or_default_nonzero. lia. Qed.

Section Bounded.

Variable T : Type.
Variable task_ok : T -> Prop.

Lemma bounded_frame (w w' : World T) :
  queue w' = queue w -> outbox w' = outbox w -> alive w' = alive w ->
  bounded task_ok w -> bounded task_ok w'.
Proof. unfold bounded. intros -> -> _. auto. Qed.

Lemma bounded_send h f :
  frame_ok f -> preserves (bounded task_ok) (send h f).
Proof.
  intros Hf w [Hq Ho]. unfold send. destruct (alive w); cbn.
  - split; [exact Hq|]. apply Forall_app. split; [exact Ho|].
    constructor; [exact Hf | constructor].
  - split; assumption.
Qed.

Lemma bounded_schedule t :
  task_ok t -> preserves (bounded task_ok) (schedule t).
Proof.
  intros Ht w [Hq Ho]. split; [|exact Ho]. cbn.
  apply Forall_app. split; [exact Hq|]. constructor; [exact Ht | constructor].
Qed.

Lemma bounded_write_body h n :
  1 <= n <= 100 * Js.MiB -> preserves (bounded task_ok) (write_body h n).
Proof.
  intros Hn w [Hq Ho]. split; [exact Hq|]. cbn.
  apply Forall_app. split; [exact Ho|]. constructor; [exact Hn | constructor].
Qed.

End Bounded.

Lemma loop_chunk_ok total C bs :
  loop_ok total C bs -> (bs >=? total) = false ->
  0 <= Z.min C (total - bs) ->
  1 <= Z.min C (total - bs) <= 100 * Js.MiB
  /\ loop_ok total C (bs + Z.min C (total - bs)).
Proof. unfold loop_ok. intros (Ht & Hb & HC) E Hc. lia. Qed.

Lemma bounded_do_sendChunk h total C bs :
  loop_ok total C bs ->
  preserves (bounded do_task_ok) (DurableObject.sendChunk h total C bs).
Proof.
  intros Hok. unfold DurableObject.sendChunk.
  destruct (bs >=? total) eqn:E.
  - preserve_with (@bounded_frame DurableObject.Task do_task_ok).
    apply bounded_send. exact I.
  - apply preserves_alloc_bind. intros Hc.
    destruct (@loop_chunk_ok total C bs Hok E ltac:(lia)) as [H1 H2].
    preserve_with (@bounded_frame DurableObject.Task do_task_ok).
    + apply bounded_send. exact H1.
    + apply bounded_schedule. exact H2.
Qed.

Lemma bounded_do_handleMessage h m :
  preserves (bounded do_task_ok) (DurableObject.handleMessage h m).
Proof.
  unfold DurableObject.handleMessage, DurableObject.handlePing,
    DurableObject.handleDownloadTest, DurableObject.handleUploadStart,
    DurableObject.handleUploadData.
  destruct m as [ts|size chunkSize| |data| | | |];
    preserve_with (@bounded_frame DurableObject.Task do_task_ok);
    try (apply bounded_send; exact I).
  - apply bounded_send. apply safe_size_le.
  - apply bounded_do_sendChunk.
    split; [apply safe_size_le|]. split; [lia | apply chunk_size_nonzero].
Qed.

(** Whatever the host does with a Durable Object connection, the frames
    it accepted stay within the bounds. *)
Lemma bounded_do_run h ins (w : World DurableObject.Task) :
  bounded do_task_ok w -> bounded do_task_ok (DurableObject.run h ins w).
Proof.
  apply run_preserves.
  - apply bounded_frame.
  - apply bounded_do_handleMessage.
  - apply preserves_unregister. apply bounded_frame.
  - intros w' Hw. exact Hw.
  - intros w' k t rest [Hq Ho] E.
    destruct (take_nth_Forall do_task_ok k _ t rest E Hq) as [Ht Hrest].
    split; [split; assumption|].
    destruct t. apply bounded_do_sendChunk. exact Ht.
Qed.

Lemma bounded_http_sendChunk h total C bs sent :
  loop_ok total C bs ->
  preserves (bounded http_task_ok) (Http.sendChunk h total C bs sent).
Proof.
  intros Hok. unfold Http.sendChunk.
  assert (Hhead : preserves (bounded http_task_ok)
                            (Http.flush_head total sent)).
  { intros w [Hq Ho]. unfold Http.flush_head.
    destruct sent; [split; assumption|].
    split; [exact Hq|]. cbn. apply Forall_app. split; [exact Ho|].
    constructor; [apply Hok | constructor]. }
  destruct (bs >=? total) eqn:E.
  - preserve_with (@bounded_frame Http.Task http_task_ok);
      first [ exact Hhead | apply bounded_send; exact I ].
  - apply preserves_alloc_bind. intros Hc.
    destruct (@loop_chunk_ok total C bs Hok E ltac:(lia)) as [H1 H2].
    preserve_with (@bounded_frame Http.Task http_task_ok);
      first [ exact Hhead
            | apply bounded_write_body; exact H1
            | apply bounded_schedule; exact H2 ].
Qed.

Lemma bounded_http_on_request h m :
  preserves (bounded http_task_ok) (Http.on_request h m).
Proof.
  unfold Http.on_request, Http.ping, Http.function_ping, Http.get_download.
  destruct m as [ts|size chunkSize|ts];
    preserve_with (@bounded_frame Http.Task http_task_ok);
    try (apply bounded_send; exact I).
  - apply bounded_http_sendChunk.
    split; [apply safe_size_le|]. split; [lia | apply chunk_size_nonzero].
Qed.

Lemma bounded_http_run h ins (w : World Http.Task) :
  bounded http_task_ok w -> bounded http_task_ok (Http.run h ins w).
Proof.
  apply run_preserves.
  - apply bounded_frame.
  - apply bounded_http_on_request.
  - apply preserves_ret.
  - intros w' Hw. exact Hw.
  - intros w' k t rest [Hq Ho] E.
    destruct (take_nth_Forall http_task_ok k _ t rest E Hq) as [Ht Hrest].
    split; [split; assumption|].
    destruct t. apply bounded_http_sendChunk. exact Ht.
Qed.

(* ------------------------------------------------------------------ *)
(** ** The claims *)

Lemma safe_size_some S : S <> 0 -> safe_size (Some S) = Z.min S (100 * Js.MiB).
Proof.
  intros HS. unfold safe_size, Js.or_default, Js.MiB.
  destruct (S =? 0) eqn:E; [lia | reflexivity].
Qed.

Lemma chunk_size_some C : C <> 0 -> chunk_size (Some C) = C.
Proof.
  intros HC. unfold chunk_size, Js.or_default.
  destruct (C =? 0) eqn:E; [lia | reflexivity].
Qed.

(** C1 (as stated) fails: for a requested size of 0 the run on
    [onRequestGET] streams the 1 MiB default, not [min(0, 100 MiB) = 0]
    bytes. *)
Lemma C1_size_zero_streams_default :
  let w := Pages.download host0 1 (Some 0) (Some 1048576)
             (fresh Pages.Task (Some 0)) in
  queue w = []
  /\ payload_bytes (outbox w) = 1048576
  /\ payload_bytes (outbox w) <> Z.min 0 (100 * Js.MiB).
Proof. vm_compute. repeat split; discriminate. Qed.

(** C1 (amended): for every requested size [S >= 1] and chunk size [C >= 1]
    that the runtime can allocate, a download run on an open connection
    emits [min(S, 100 MiB)] payload bytes in total, as full chunks of [C]
    bytes followed by one shorter slice when [C] does not divide the total;
    the started event declares that total, and on [onRequestGET] the
    complete event reports it. *)
Theorem C1_download_total h S C (wp : World Pages.Task)
    (wn : World NodeWs.Task) fuel :
  1 <= S -> 1 <= C <= max_alloc h ->
  (forall k, write_error h k = false) ->
  alive wp = true -> queue wp = [] ->
  alive wn = true -> queue wn = [] ->
  (2 * chunk_count C (Z.min S (100 * Js.MiB)) <= fuel)%nat ->
  let total := Z.min S (100 * Js.MiB) in
  (exists fs,
      Finished wp (Pages.download h fuel (Some S) (Some C) wp) fs
      /\ payload_bytes fs = total
      /\ chunk_lengths fs = slices C total
      /\ started_totals fs = [total]
      /\ complete_totals fs = [total])
  /\ (exists fs,
         Finished wn (NodeWs.download h fuel (Some S) (Some C) wn) fs
         /\ payload_bytes fs = total
         /\ chunk_lengths fs = slices C total
         /\ started_totals fs = [total]).
Proof.
  intros HS HC Hok Hap Hqp Han Hqn Hfuel total.
  assert (Htot : 0 < total) by (unfold total, Js.MiB; lia).
  pose proof (@safe_size_some S ltac:(lia)) as Es. fold total in Es.
  pose proof (@chunk_size_some C ltac:(lia)) as Ec.
  fold total in Hfuel.
  split.
  - destruct (@pages_download h (Some S) (Some C) wp fuel Hap Hqp)
      as [fs (Hfin & [S0 S1 S2 S3 S4])].
    + rewrite Ec. lia.
    + rewrite Ec, Es. lia.
    + rewrite Es, Ec in *. rewrite Z.max_r in S1 by lia.
      exists fs. split; [exact Hfin|].
      split; [unfold payload_bytes; rewrite S1; apply sum_slices; lia|].
      repeat split; assumption.
  - destruct (@node_download h (Some S) (Some C) wn fuel Han Hqn Hok)
      as [fs (Hfin & _ & [S0 S1 S2 S3 S4])].
    + rewrite Ec. lia.
    + rewrite Es. exact Htot.
    + rewrite Ec, Es. exact Hfuel.
    + rewrite Es, Ec in *.
      exists fs. split; [exact Hfin|].
      split; [unfold payload_bytes; rewrite S1; apply sum_slices; lia|].
      repeat split; assumption.
Qed.

Lemma C1_download_total_witness :
  (exists fs,
      Finished (fresh Pages.Task (Some 0))
               (Pages.download host0 6 (Some 5) (Some 2)
                               (fresh Pages.Task (Some 0))) fs
      /\ payload_bytes fs = 5
      /\ chunk_lengths fs = [2; 2; 1]
      /\ started_totals fs = [5]
      /\ complete_totals fs = [5])
  /\ (exists fs,
         Finished (fresh NodeWs.Task None)
                  (NodeWs.download host0 6 (Some 5) (Some 2)
                                   (fresh NodeWs.Task None)) fs
         /\ payload_bytes fs = 5
         /\ chunk_lengths fs = [2; 2; 1]
         /\ started_totals fs = [5]).
Proof.
  apply (@C1_download_total host0 5 2 (fresh Pages.Task (Some 0))
           (fresh NodeWs.Task None) 6);
    try reflexivity; cbn; lia.
Defined.

(* ------------------------------------------------------------------ *)
(** ** Printing with one decimal *)

Lemma digit_of (r : Z) :
  0 <= r < 10 ->
  exists d : ascii,
    Js.digits r = String d EmptyString
    /\ Z.of_nat (nat_of_ascii d) = 48 + r.
Proof.
  intros Hr.
  assert (H : r = 0 \/ r = 1 \/ r = 2 \/ r = 3 \/ r = 4 \/ r = 5 \/ r = 6
              \/ r = 7 \/ r = 8 \/ r = 9) by lia.
  repeat (destruct H as [-> | H]); try subst r;
    eexists; split; reflexivity.
Qed.

Lemma tenths_nearest (m : positive) (e : Z) :
  nearest_tenths m e (Js.tenths m e) /\ 0 <= Js.tenths m e.
Proof.
  unfold nearest_tenths, Js.tenths.
  destruct (0 <=? e) eqn:E.
  - apply Z.leb_le in E.
    rewrite (Z.max_l 0 (- e)) by lia. rewrite (Z.max_r 0 e) by lia.
    change (2 ^ 0) with 1.
    pose proof (Z.pow_pos_nonneg 2 e ltac:(lia) E) as Hp.
    split; [nia|nia].
  - apply Z.leb_gt in E.
    rewrite (Z.max_r 0 (- e)) by lia. rewrite (Z.max_l 0 e) by lia.
    change (2 ^ 0) with 1.
    pose proof (Z.pow_pos_nonneg 2 (- e) ltac:(lia) ltac:(lia)) as Hd.
    set (d := 2 ^ (- e)) in *.
    pose proof (Z.div_mod (20 * Z.pos m + d) (2 * d) ltac:(lia)) as Hdm.
    pose proof (Z.mod_pos_bound (20 * Z.pos m + d) (2 * d) ltac:(lia)) as Hb.
    assert (Hn : 0 <= (20 * Z.pos m + d) / (2 * d))
      by (apply Z.div_pos; lia).
    split; [nia | exact Hn].
Qed.

Lemma toFixed1_one_decimal (x : Js.double) :
  one_decimal_of x (Js.toFixed1 x).
Proof.
  destruct x as [s|s| |s m e]; cbn [one_decimal_of Js.toFixed1];
    try reflexivity.
  intros Hbig. rewrite Hbig.
  destruct (tenths_nearest m e) as [Hn H0].
  exists (Js.tenths m e), (Js.one_decimal (Js.tenths m e)).
  split; [exact Hn|]. split; [exact H0|]. split; [|reflexivity].
  unfold numeral_of_tenths, Js.one_decimal.
  destruct (digit_of (Js.tenths m e mod 10)) as [d [Hd Hc]].
  { apply Z.mod_pos_bound. lia. }
  exists d. rewrite Hd. split; [reflexivity | exact Hc].
Qed.

(* ------------------------------------------------------------------ *)
(** ** The order of the events of a run *)

Lemma events_app l1 l2 : events (l1 ++ l2) = events l1 ++ events l2.
Proof. apply map_app. Qed.

Lemma pages_loop_events h total C (HC : 0 < C) :
  forall n (w : World Pages.Task),
    alive w = true -> queue w = [] ->
    chunk_count C (total - bytesTransferred (session w)) = n ->
    events (outbox (Pages.drain h n (invoke (Pages.sendNext h total C) w)))
    = events (outbox w)
      ++ stream n C total (bytesTransferred (session w))
      ++ [Completed total].
Proof.
  induction n as [|n IH]; intros w Ha Hq Hn.
  - apply chunk_count_zero in Hn; [|assumption].
    unfold invoke. rewrite sendNext_alive by assumption.
    assert (E : (bytesTransferred (session w) >=? total) = true) by lia.
    rewrite E. cbn [Pages.drain drain stream].
    unfold pages_after_complete. cbn [outbox].
    rewrite events_app. reflexivity.
  - assert (Hlt : bytesTransferred (session w) < total).
    { destruct (Z.lt_ge_cases (bytesTransferred (session w)) total);
        [assumption|].
      rewrite chunk_count_done in Hn by lia. discriminate. }
    unfold invoke. rewrite sendNext_alive by assumption.
    assert (E : (bytesTransferred (session w) >=? total) = false) by lia.
    rewrite E.
    set (w1 := pages_after_chunk h total C w).
    assert (Hq1 : queue w1 = [Pages.SendNext total C]).
    { unfold w1, pages_after_chunk. cbn. rewrite Hq. reflexivity. }
    unfold Pages.drain. erewrite drain_head by exact Hq1.
    cbn [Pages.run_task]. fold (Pages.drain h n).
    rewrite (IH (with_queue w1 [])).
    + unfold w1, with_queue, pages_after_chunk.
      cbn [outbox session bytesTransferred stream].
      rewrite events_app.
      destruct (progress_due _ _); cbn [events map app];
        rewrite <- !app_assoc; reflexivity.
    + reflexivity.
    + reflexivity.
    + rewrite (@chunk_count_step C (total - bytesTransferred (session w)))
        in Hn by lia.
      injection Hn as Hn. rewrite <- Hn. f_equal.
      unfold w1, with_queue, pages_after_chunk. cbn. lia.
Qed.

Lemma pages_download_events h size chunkSize (w : World Pages.Task) fuel :
  alive w = true -> queue w = [] ->
  0 < chunk_size chunkSize <= max_alloc h ->
  (chunk_count (chunk_size chunkSize) (safe_size size) <= fuel)%nat ->
  events (outbox (Pages.download h fuel size chunkSize w))
  = events (outbox w)
    ++ Started (safe_size size)
    :: stream (chunk_count (chunk_size chunkSize) (safe_size size))
              (chunk_size chunkSize) (safe_size size) 0
    ++ [Completed (safe_size size)].
Proof.
  intros Ha Hq HC Hfuel.
  destruct (@pages_download h size chunkSize w fuel Ha Hq HC Hfuel)
    as [fs ([Hq' _ _] & _)].
  unfold Pages.download in *. rewrite pages_start in * by (assumption || lia).
  set (n := chunk_count (chunk_size chunkSize) (safe_size size)) in *.
  unfold Pages.drain in *.
  assert (Hn : chunk_count (chunk_size chunkSize)
                 (safe_size size
                  - bytesTransferred
                      (session (started h (safe_size size) w))) = n).
  { unfold n. cbn. f_equal. lia. }
  pose proof (@pages_loop_events h (safe_size size) (chunk_size chunkSize)
                ltac:(lia) n (started h (safe_size size) w) eq_refl Hq Hn)
    as He.
  unfold Pages.drain in He.
  assert (Hqn : queue (drain (Pages.on_message h) (Pages.run_task h) (ret tt)
                         n (invoke (Pages.sendNext h (safe_size size)
                                      (chunk_size chunkSize))
                                   (started h (safe_size size) w))) = []).
  { destruct (@pages_loop h (safe_size size) (chunk_size chunkSize)
                ltac:(lia) n (started h (safe_size size) w) eq_refl Hq Hn)
      as [fs' ([Hq'' _ _] & _)]. exact Hq''. }
  rewrite (@drain_enough _ _ _ _ _ n fuel) by assumption.
  rewrite He. unfold started. cbn [outbox session bytesTransferred].
  rewrite events_app, <- app_assoc. reflexivity.
Qed.

Lemma node_loop_events h total C (HC : 0 < C)
      (Hok : forall k, write_error h k = false) :
  forall n bs (w : World NodeWs.Task),
    alive w = true -> queue w = [] ->
    bs < total ->
    chunk_count C (total - bs) = S n ->
    events (outbox (NodeWs.drain h (2 * n + 1)
                      (invoke (NodeWs.sendNextChunk h total C bs) w)))
    = events (outbox w) ++ stream (S n) C total bs.
Proof.
  induction n as [|n IH]; intros bs w Ha Hq Hlt Hn.
  - unfold invoke. rewrite sendNextChunk_more by assumption.
    set (w1 := node_after_write h total C bs w).
    assert (Hq1 : queue w1 =
                  [NodeWs.WriteDone total C bs (Z.min C (total - bs)) false]).
    { unfold w1, node_after_write. cbn. rewrite Hq, Ha, Hok. reflexivity. }
    unfold NodeWs.drain. cbn [Nat.mul Nat.add].
    erewrite drain_head by exact Hq1.
    cbn [NodeWs.run_task drain]. unfold invoke.
    rewrite write_done_ack by (unfold w1; cbn; exact Ha).
    unfold node_after_ack, with_queue, w1, node_after_write.
    rewrite Ha, Hok. cbn [negb orb session queue outbox alive reads app].
    cbn [stream]. rewrite !events_app.
    destruct (progress_due _ _); cbn [events map app];
      rewrite <- ?app_assoc; reflexivity.
  - unfold invoke. rewrite sendNextChunk_more by assumption.
    set (w1 := node_after_write h total C bs w).
    set (c := Z.min C (total - bs)).
    assert (Hq1 : queue w1 = [NodeWs.WriteDone total C bs c false]).
    { unfold w1, node_after_write. cbn. rewrite Hq, Ha, Hok. reflexivity. }
    unfold NodeWs.drain.
    replace (2 * S n + 1)%nat with (S (S (2 * n + 1))) by lia.
    erewrite drain_head by exact Hq1.
    cbn [NodeWs.run_task].
    rewrite (@invoke_ok _ _ _ _ (@write_done_ack h total C bs c
                                   (with_queue w1 []) Ha)).
    rewrite (@chunk_count_step C (total - bs)) in Hn by lia.
    injection Hn as Hn. fold c in Hn.
    assert (Hlt' : bs + c < total).
    { destruct (Z.lt_ge_cases (bs + c) total); [assumption|].
      rewrite chunk_count_done in Hn by lia. discriminate. }
    set (w2 := node_after_ack h total C bs c (with_queue w1 [])).
    assert (Hq2 : queue w2 = [NodeWs.SendNextChunk total C (bs + c)]).
    { unfold w2, node_after_ack. cbn.
      assert (E : (bs + c <? total) = true) by lia. rewrite E. reflexivity. }
    erewrite drain_head by exact Hq2.
    cbn [NodeWs.run_task]. fold (NodeWs.drain h (2 * n + 1)).
    rewrite (IH (bs + c) (with_queue w2 [])).
    + unfold w2, w1, with_queue, node_after_ack, node_after_write.
      rewrite Ha, Hok. cbn [negb orb outbox].
      change (stream (S (S n)) C total bs)
        with (Sent c
              :: (if progress_due (bs + c) total
                  then [Progressed (bs + c) total (percent (bs + c) total)]
                  else [])
              ++ stream (S n) C total (bs + c)).
      rewrite !events_app.
      destruct (progress_due _ _); cbn [events map app];
        rewrite <- ?app_assoc; reflexivity.
    + reflexivity.
    + reflexivity.
    + exact Hlt'.
    + rewrite <- Hn. f_equal. lia.
Qed.

Lemma node_download_events h size chunkSize (w : World NodeWs.Task) fuel :
  alive w = true -> queue w = [] ->
  (forall k, write_error h k = false) ->
  0 < chunk_size chunkSize <= max_alloc h ->
  0 < safe_size size ->
  (2 * chunk_count (chunk_size chunkSize) (safe_size size) <= fuel)%nat ->
  events (outbox (NodeWs.download h fuel size chunkSize w))
  = events (outbox w)
    ++ Started (safe_size size)
    :: stream (chunk_count (chunk_size chunkSize) (safe_size size))
              (chunk_size chunkSize) (safe_size size) 0.
Proof.
  intros Ha Hq Hok HC Hpos Hfuel.
  unfold NodeWs.download. rewrite node_start by (assumption || lia).
  destruct (chunk_count (chunk_size chunkSize) (safe_size size)) as [|n] eqn:En.
  { apply chunk_count_zero in En; lia. }
  assert (En' : chunk_count (chunk_size chunkSize) (safe_size size - 0)
                = S n) by (rewrite Z.sub_0_r; exact En).
  destruct (@node_loop h (safe_size size) (chunk_size chunkSize)
              ltac:(lia) Hok n 0 (node_started h (safe_size size) w)
              eq_refl Hq Hpos En')
    as [fs ([Hq' _ _] & _)].
  pose proof (@node_loop_events h (safe_size size) (chunk_size chunkSize)
                ltac:(lia) Hok n 0 (node_started h (safe_size size) w)
                eq_refl Hq Hpos En') as He.
  unfold NodeWs.drain in *.
  rewrite (@drain_enough _ _ _ _ _ (2 * n + 1)%nat fuel)
    by (assumption || lia).
  rewrite He. unfold node_started. cbn [outbox].
  rewrite events_app, <- app_assoc. reflexivity.
Qed.

Lemma do_loop_events h total C (HC : 0 < C <= max_alloc h) :
  forall n bs (w : World DurableObject.Task),
    alive w = true -> queue w = [] ->
    chunk_count C (total - bs) = n ->
    events (outbox (DurableObject.drain h n
                      (invoke (DurableObject.sendChunk h total C bs) w)))
    = events (outbox w)
      ++ stream_all n C total bs ++ [Completed (Z.max bs total)].
Proof.
  induction n as [|n IH]; intros bs w Ha Hq Hn.
  - apply chunk_count_zero in Hn; [|lia].
    rewrite (@invoke_ok _ _ _ _ (@do_sendChunk_done h total C bs w Ha
                                   ltac:(lia))).
    cbn [DurableObject.drain drain stream_all].
    unfold do_after_complete. cbn [outbox]. rewrite events_app.
    rewrite Z.max_l by lia. reflexivity.
  - assert (Hlt : bs < total).
    { destruct (Z.lt_ge_cases bs total); [assumption|].
      rewrite chunk_count_done in Hn by lia. discriminate. }
    rewrite (@invoke_ok _ _ _ _ (@do_sendChunk_more h total C bs w Ha Hlt
                                   ltac:(lia))).
    set (c := Z.min C (total - bs)).
    set (w1 := do_after_chunk h total C bs w).
    assert (Hq1 : queue w1 = [DurableObject.SendChunk total C (bs + c)]).
    { unfold w1, do_after_chunk. cbn. rewrite Hq. reflexivity. }
    unfold DurableObject.drain. erewrite drain_head by exact Hq1.
    cbn [DurableObject.run_task]. fold (DurableObject.drain h n).
    rewrite (IH (bs + c) (with_queue w1 [])).
    + unfold w1, with_queue, do_after_chunk. cbn [outbox stream_all].
      fold c. rewrite events_app. cbn [events map app].
      rewrite <- !app_assoc. cbn [app].
      replace (Z.max (bs + c) total) with (Z.max bs total) by lia.
      reflexivity.
    + reflexivity.
    + reflexivity.
    + rewrite (@chunk_count_step C (total - bs)) in Hn by lia.
      injection Hn as Hn. rewrite <- Hn. f_equal. unfold c. lia.
Qed.

Lemma do_download_events h size chunkSize (w : World DurableObject.Task)
    fuel :
  alive w = true -> queue w = [] ->
  0 < chunk_size chunkSize <= max_alloc h ->
  (chunk_count (chunk_size chunkSize) (safe_size size) <= fuel)%nat ->
  events (outbox (DurableObject.download h fuel size chunkSize w))
  = events (outbox w)
    ++ Started (safe_size size)
    :: stream_all (chunk_count (chunk_size chunkSize) (safe_size size))
                  (chunk_size chunkSize) (safe_size size) 0
    ++ [Completed (Z.max 0 (safe_size size))].
Proof.
  intros Ha Hq HC Hfuel.
  unfold DurableObject.download. rewrite do_start by assumption.
  set (n := chunk_count (chunk_size chunkSize) (safe_size size)) in *.
  assert (Hn : chunk_count (chunk_size chunkSize) (safe_size size - 0) = n)
    by (unfold n; f_equal; lia).
  destruct (@do_loop h (safe_size size) (chunk_size chunkSize) HC n 0
              (started h (safe_size size) w) eq_refl Hq Hn)
    as [fs ([Hq' _ _] & _)].
  pose proof (@do_loop_events h (safe_size size) (chunk_size chunkSize) HC
                n 0 (started h (safe_size size) w) eq_refl Hq Hn) as He.
  unfold DurableObject.drain in *.
  rewrite (@drain_enough _ _ _ _ _ n fuel) by assumption.
  rewrite He. unfold started. cbn [outbox].
  rewrite events_app, <- app_assoc. reflexivity.
Qed.

Lemma events_of_run {T} (w w' : World T) (fs : list Frame)
    (es : list Event) :
  outbox w' = outbox w ++ fs ->
  events (outbox w') = events (outbox w) ++ es ->
  events fs = es.
Proof.
  intros Ho He. rewrite Ho, events_app in He.
  apply app_inv_head in He. exact He.
Qed.

(** C2 (as stated) fails: with 700000-byte chunks [bytesSent] passes the
    1 MiB boundary on the second chunk of [onRequestGET] and no progress
    event is emitted there; and the Durable Object emits one progress event
    per chunk, at 65536 bytes already. *)
Lemma C2_boundary_crossed_silently :
  let w := Pages.download host0 3 (Some 2097152) (Some 700000)
             (fresh Pages.Task (Some 0)) in
  let d := DurableObject.download host0 2 (Some 131072) (Some 65536)
             (fresh DurableObject.Task None) in
  queue w = []
  /\ chunk_lengths (outbox w) = [700000; 700000; 697152]
  /\ 700000 < Js.MiB <= 700000 + 700000
  /\ progress_marks (outbox w) = [(2097152, 2097152)]
  /\ progress_marks (outbox d) = [(65536, 131072); (131072, 131072)].
Proof. vm_compute. repeat split; discriminate. Qed.

(** C2 (amended): on the Node server and on [onRequestGET] the started
    event is followed by the chunks in order, and each chunk is followed at
    once by a progress event exactly when the cumulative [bytesSent] is a
    multiple of 1 MiB or equals [totalBytes], and by nothing before the
    next chunk otherwise.  The progress event carries [bytesSent],
    [totalBytes] and the text [(bytesSent / totalBytes * 100).toFixed(1)]:
    the double printed with one decimal, the digit nearest to it.  On the
    Durable Object every chunk travels inside its own progress event, which
    carries no percentage.  On [onRequestGET] and the Durable Object one
    complete event follows the last chunk and its progress event.  For size
    2097152 and chunk size 1048576 the events after the started one are a
    chunk, the progress event at 1048576 with the text 50.0, a chunk and
    the progress event at 2097152 with the text 100.0, then the complete
    event for 2097152 bytes. *)
Theorem C2_progress_marks h size chunkSize (wp : World Pages.Task)
    (wn : World NodeWs.Task) (wd : World DurableObject.Task) fuel :
  0 < chunk_size chunkSize <= max_alloc h ->
  0 < safe_size size ->
  (forall k, write_error h k = false) ->
  alive wp = true -> queue wp = [] ->
  alive wn = true -> queue wn = [] ->
  alive wd = true -> queue wd = [] ->
  (2 * chunk_count (chunk_size chunkSize) (safe_size size) <= fuel)%nat ->
  let C := chunk_size chunkSize in
  let total := safe_size size in
  let n := chunk_count C total in
  (exists fs,
      Finished wp (Pages.download h fuel size chunkSize wp) fs
      /\ events fs = Started total :: stream n C total 0 ++ [Completed total]
      /\ progress_marks fs =
         map (fun b => (b, total))
             (filter (fun b => (Z.rem b Js.MiB =? 0) || (b =? total))
                     (cumulative C total))
      /\ Forall progress_ok fs
      /\ complete_totals fs = [total])
  /\ (exists fs,
         Finished wn (NodeWs.download h fuel size chunkSize wn) fs
         /\ events fs = Started total :: stream n C total 0
         /\ progress_marks fs =
            map (fun b => (b, total))
                (filter (fun b => (Z.rem b Js.MiB =? 0) || (b =? total))
                        (cumulative C total))
         /\ Forall progress_ok fs)
  /\ (exists fs,
         Finished wd (DurableObject.download h fuel size chunkSize wd) fs
         /\ events fs =
            Started total :: stream_all n C total 0 ++ [Completed total]
         /\ progress_marks fs = map (fun b => (b, total)) (cumulative C total)
         /\ complete_totals fs = [total])
  /\ (forall b t, one_decimal_of (percent_value b t) (percent b t))
  /\ (size = Some 2097152 -> chunkSize = Some 1048576 ->
      stream n C total 0 =
      [Sent 1048576;
       Progressed 1048576 2097152 (Js.Decimal "50.0");
       Sent 1048576;
       Progressed 2097152 2097152 (Js.Decimal "100.0")]
      /\ stream_all n C total 0 =
         [SentWithProgress 1048576 2097152 1048576;
          SentWithProgress 2097152 2097152 1048576]
      /\ cumulative C total = [1048576; 2097152]
      /\ filter (fun b => (Z.rem b Js.MiB =? 0) || (b =? total))
                (cumulative C total) = [1048576; 2097152]).
Proof.
  intros HC Htot Hok Hap Hqp Han Hqn Had Hqd Hfuel C total n.
  fold C in HC, Hfuel. fold total in Htot, Hfuel. fold n in Hfuel.
  split; [|split; [|split; [|split]]].
  - destruct (@pages_download h size chunkSize wp fuel Hap Hqp HC)
      as [fs (Hfin & [S0 S1 S2 S3 S4])]; [fold C total n; lia|].
    exists fs. split; [exact Hfin|].
    split.
    { apply (events_of_run wp _ fs _ (@fin_outbox _ _ _ _ Hfin)).
      apply pages_download_events; try assumption. fold C total n. lia. }
    split; [exact S2|]. split; [exact S4 | exact S3].
  - destruct (@node_download h size chunkSize wn fuel Han Hqn Hok HC Htot
                Hfuel) as [fs (Hfin & _ & [S0 S1 S2 S3 S4])].
    exists fs. split; [exact Hfin|].
    split.
    { apply (events_of_run wn _ fs _ (@fin_outbox _ _ _ _ Hfin)).
      apply node_download_events; assumption. }
    split; [exact S2 | exact S4].
  - destruct (@do_download h size chunkSize wd fuel Had Hqd HC)
      as [fs (Hfin & [S0 S1 S2 S3 S4])]; [fold C total n; lia|].
    exists fs. fold total in S3. rewrite Z.max_r in S3 by lia.
    split; [exact Hfin|].
    split.
    { apply (events_of_run wd _ fs _ (@fin_outbox _ _ _ _ Hfin)).
      rewrite do_download_events; try assumption;
        [|fold C total n; lia].
      fold C total n. rewrite Z.max_r by lia. reflexivity. }
    split; [exact S2 | exact S3].
  - intros b t. apply toFixed1_one_decimal.
  - intros -> ->. vm_compute. repeat split.
Qed.

Lemma C2_progress_marks_witness :
  exists fs,
    Finished (fresh Pages.Task (Some 0))
             (Pages.download host0 4 (Some 2097152) (Some 1048576)
                             (fresh Pages.Task (Some 0))) fs
    /\ events fs =
       [Started 2097152;
        Sent 1048576;
        Progressed 1048576 2097152 (Js.Decimal "50.0");
        Sent 1048576;
        Progressed 2097152 2097152 (Js.Decimal "100.0");
        Completed 2097152]
    /\ progress_marks fs = [(1048576, 2097152); (2097152, 2097152)]
    /\ Forall progress_ok fs
    /\ complete_totals fs = [2097152].
Proof.
  refine (proj1 (@C2_progress_marks host0 (Some 2097152) (Some 1048576)
                   (fresh Pages.Task (Some 0)) (fresh NodeWs.Task None)
                   (fresh DurableObject.Task None) 4 _ _ _ _ _ _ _ _ _ _));
    first [ reflexivity | vm_compute; lia
          | vm_compute; split; [reflexivity | discriminate] ].
Defined.

Lemma duration_s_zero t : duration_s t t = 0%Q.
Proof. unfold duration_s. rewrite Z.sub_diag. reflexivity. Qed.

Lemma duration_s_nonzero endTs startTs :
  endTs <> startTs -> Qeq_bool (duration_s endTs startTs) 0 = false.
Proof.
  intros Hne. destruct (Qeq_bool (duration_s endTs startTs) 0) eqn:E;
    [|reflexivity].
  apply Qeq_bool_iff in E. unfold duration_s in E.
  rewrite Qred_correct in E.
  unfold Qeq, Qdiv, Qmult, Qinv, inject_Z in E. cbn in E. lia.
Qed.

Lemma throughput_finite total endTs startTs :
  endTs <> startTs ->
  exists q,
    throughputMBps total (duration_s endTs startTs) = Js.Fin q
    /\ (q == inject_Z total / inject_Z Js.MiB
             / (inject_Z (endTs - startTs) / inject_Z 1000))%Q.
Proof.
  intros Hne. unfold throughputMBps, Js.div.
  rewrite duration_s_nonzero by assumption.
  eexists. split; [reflexivity|].
  rewrite Qred_correct. unfold duration_s. rewrite Qred_correct.
  reflexivity.
Qed.

Lemma throughput_zero_duration total t :
  throughputMBps total (duration_s t t) =
  match total ?= 0 with
  | Gt => Js.PosInf
  | Lt => Js.NegInf
  | Eq => Js.NaN
  end.
Proof.
  rewrite duration_s_zero. unfold throughputMBps, Js.div.
  cbn [Qeq_bool]. 
  replace (Qeq_bool 0 0) with true by reflexivity.
  unfold Qcompare, Qdiv, Qmult, Qinv, inject_Z. cbn.
  rewrite !Z.mul_1_r. reflexivity.
Qed.

(** C3 (as stated) fails: a run that completes within one clock reading
    has a duration of 0 and reports the throughput [Infinity]; there is no
    sentinel. *)
Lemma C3_zero_duration_is_infinity :
  let w := Pages.download host_frozen 1 (Some 1048576) (Some 1048576)
             (fresh Pages.Task (Some 0)) in
  queue w = []
  /\ complete_throughputs (outbox w) = [Js.PosInf]
  /\ throughputMBps 1048576 (duration_s 7 7) = Js.PosInf.
Proof. vm_compute. repeat split. Qed.

(** C3 (amended): the throughput is a function of [totalBytes] and the two
    timestamps only.  When they differ it is
    [totalBytes / (1024 * 1024) / ((endTs - startTs) / 1000)] (negative when
    the clock went backwards); when they are equal the division by zero
    yields [Infinity], [-Infinity] or [NaN] according to the sign of
    [totalBytes].  This is the value the complete event of [sendNext] and
    of [sendNextChunk] carries. *)
Theorem C3_throughput h total C bs startTs endTs (wp : World Pages.Task)
    (wn : World NodeWs.Task) :
  (endTs <> startTs ->
   exists q,
     throughputMBps total (duration_s endTs startTs) = Js.Fin q
     /\ (q == inject_Z total / inject_Z Js.MiB
              / (inject_Z (endTs - startTs) / inject_Z 1000))%Q)
  /\ (endTs = startTs ->
      throughputMBps total (duration_s endTs startTs) =
      match total ?= 0 with
      | Gt => Js.PosInf
      | Lt => Js.NegInf
      | Eq => Js.NaN
      end)
  /\ (alive wp = true -> total <= bytesTransferred (session wp) ->
      complete_throughputs (outbox (snd (Pages.sendNext h total C wp))) =
      complete_throughputs (outbox wp)
      ++ [throughputMBps total
            (duration_s (clock h (reads wp)) (start_of (session wp)))])
  /\ (alive wn = true -> total <= bs ->
      complete_throughputs
        (outbox (snd (NodeWs.sendNextChunk h total C bs wn))) =
      complete_throughputs (outbox wn)
      ++ [throughputMBps total
            (duration_s (clock h (reads wn)) (start_of (session wn)))]).
Proof.
  split; [|split; [|split]].
  - apply throughput_finite.
  - intros ->. apply throughput_zero_duration.
  - intros Ha Hle. rewrite sendNext_alive by assumption.
    assert (E : (bytesTransferred (session wp) >=? total) = true) by lia.
    rewrite E. unfold pages_after_complete, complete_throughputs. cbn.
    rewrite flat_map_app. reflexivity.
  - intros Ha Hle. rewrite sendNextChunk_done by assumption.
    unfold node_after_complete, complete_throughputs. cbn.
    rewrite flat_map_app. reflexivity.
Qed.

Lemma C3_throughput_witness :
  exists q,
    throughputMBps 2097152 (duration_s 3000 1000) = Js.Fin q
    /\ (q == 1)%Q.
Proof.
  destruct (proj1 (@C3_throughput host0 2097152 1 0 1000 3000
                     (fresh Pages.Task (Some 0)) (fresh NodeWs.Task None))
                  ltac:(discriminate)) as [q [E Hq]].
  exists q. split; [exact E|]. rewrite Hq. reflexivity.
Defined.

Lemma slices_bound C r :
  0 < C -> 0 <= r -> Forall (fun c => 1 <= c <= C) (slices C r).
Proof.
  intros HC Hr. unfold slices. apply Forall_app. split.
  - apply Forall_forall. intros x Hx. apply repeat_spec in Hx. lia.
  - destruct (r mod C =? 0) eqn:E; constructor; [|constructor].
    pose proof (Z.mod_pos_bound r C HC). lia.
Qed.

Lemma bounded_fresh {T} (ok : T -> Prop) t0 : bounded ok (fresh T t0).
Proof. split; constructor. Qed.

(** [GET /api/download] with a size that is not positive: the headers,
    then the end of the body. *)
Lemma http_download_empty h size chunkSize (w : World Http.Task) :
  alive w = true -> safe_size size <= 0 ->
  outbox (Http.step h (Deliver (Http.GetDownload size chunkSize)) w) =
  outbox w ++ [Header (safe_size size); EndOfBody]
  /\ queue (Http.step h (Deliver (Http.GetDownload size chunkSize)) w) =
     queue w.
Proof.
  intros Ha Hs.
  destruct w as [[ph bt st la] q o d u r wr al rg]. cbn in Ha. subst al.
  unfold Http.step, step, invoke, Http.on_request, Http.get_download,
    Http.sendChunk.
  fold (safe_size size). fold (chunk_size chunkSize).
  assert (E : (0 >=? safe_size size) = true) by lia. rewrite E.
  unfold bind, send. cbn -[safe_size]. rewrite <- app_assoc.
  split; reflexivity.
Qed.

(** C4 (as stated) fails: a requested chunk size of 2 MiB is written as
    2 MiB chunks, and a negative size is declared as it is. *)
Lemma C4_chunk_of_two_MiB :
  let w := Http.download host0 2 (Some 4194304) (Some 2097152)
             (fresh Http.Task None) in
  let n := Http.download host0 0 (Some (-5)) None (fresh Http.Task None) in
  queue w = []
  /\ chunk_lengths (outbox w) = [2097152; 2097152]
  /\ Js.MiB < 2097152
  /\ outbox n = [Header (-5); EndOfBody].
Proof. vm_compute. repeat split. Qed.

(** C4 (amended): the total size is capped from above only: the declared
    total is [min(size, 100 MiB)], with [size] replaced by 1 MiB when absent
    or 0, and never exceeds 100 MiB; a total that is not positive is
    declared as it is and followed by the end of the transfer without any
    chunk.  The chunk size is the requested one (64 KiB when absent or 0)
    and is not clamped to 1 MiB: every chunk written has at least 1 byte
    and at most [min(chunkSize, 100 MiB)] bytes. *)
Theorem C4_size_and_chunk_bounds h size chunkSize
    (insd : list (Input DurableObject.Msg)) (insh : list (Input Http.Msg))
    (wd : World DurableObject.Task) (wh : World Http.Task) fuel :
  Forall frame_ok (outbox (DurableObject.run h insd
                             (fresh DurableObject.Task None)))
  /\ Forall frame_ok (outbox (Http.run h insh (fresh Http.Task None)))
  /\ (alive wd = true -> queue wd = [] ->
      0 < chunk_size chunkSize <= max_alloc h ->
      (chunk_count (chunk_size chunkSize) (safe_size size) <= fuel)%nat ->
      exists fs,
        Finished wd (DurableObject.download h fuel size chunkSize wd) fs
        /\ started_totals fs =
           [Z.min (Js.or_default size (1024 * 1024)) (100 * 1024 * 1024)]
        /\ Forall (fun c => 1 <= c <= chunk_size chunkSize)
                  (chunk_lengths fs)
        /\ (safe_size size <= 0 -> chunk_lengths fs = []))
  /\ (alive wh = true -> safe_size size <= 0 ->
      outbox (Http.step h (Deliver (Http.GetDownload size chunkSize)) wh) =
      outbox wh ++ [Header (safe_size size); EndOfBody]
      /\ queue (Http.step h (Deliver (Http.GetDownload size chunkSize)) wh)
         = queue wh).
Proof.
  split; [|split; [|split]].
  - apply bounded_do_run. apply bounded_fresh.
  - apply bounded_http_run. apply bounded_fresh.
  - intros Ha Hq HC Hfuel.
    destruct (@do_download h size chunkSize wd fuel Ha Hq HC Hfuel)
      as [fs (Hfin & [S0 S1 S2 S3 S4])].
    exists fs. split; [exact Hfin|]. split; [exact S0|]. split.
    + rewrite S1. apply slices_bound; lia.
    + intros Hneg. rewrite S1. rewrite Z.max_l by lia.
      apply slices_done. lia.
  - apply http_download_empty.
Qed.

Lemma C4_size_and_chunk_bounds_witness :
  exists fs,
    Finished (fresh DurableObject.Task None)
             (DurableObject.download host0 3 (Some 5) (Some 2)
                (fresh DurableObject.Task None)) fs
    /\ started_totals fs = [5]
    /\ Forall (fun c => 1 <= c <= 2) (chunk_lengths fs)
    /\ (safe_size (Some 5) <= 0 -> chunk_lengths fs = []).
Proof.
  refine (proj1 (proj2 (proj2
            (@C4_size_and_chunk_bounds host0 (Some 5) (Some 2) [] []
               (fresh DurableObject.Task None) (fresh Http.Task None) 3)))
            _ _ _ _);
    first [ reflexivity | vm_compute; lia
          | vm_compute; split; [reflexivity | discriminate] ].
Defined.

Lemma progress_due_total total : progress_due total total = true.
Proof. unfold progress_due. rewrite Z.eqb_refl. apply orb_true_r. Qed.

(** The last progress mark of a run is the one at [totalBytes]. *)
Lemma marks_from_last C total (HC : 0 < C) :
  forall n b,
    b < total -> chunk_count C (total - b) = n ->
    exists l, marks_from C total b = l ++ [(total, total)].
Proof.
  induction n as [|n IH]; intros b Hb Hn.
  - apply chunk_count_zero in Hn; lia.
  - rewrite (@marks_from_step C total b) by lia.
    rewrite (@chunk_count_step C (total - b)) in Hn by lia.
    injection Hn as Hn.
    set (b' := b + Z.min C (total - b)) in *.
    destruct (Z.lt_ge_cases b' total) as [Hlt | Hge].
    + destruct (IH b' Hlt) as [l Hl].
      { rewrite <- Hn. f_equal. unfold b'. lia. }
      rewrite Hl. eexists. rewrite app_assoc. reflexivity.
    + assert (Eb : b' = total) by (unfold b' in *; lia).
      rewrite Eb, progress_due_total, marks_from_done by lia.
      exists []. reflexivity.
Qed.

Lemma pages_download_empty h size chunkSize (w : World Pages.Task) :
  alive w = true -> safe_size size <= 0 ->
  0 <= chunk_size chunkSize <= max_alloc h ->
  Pages.step h (Deliver (Pages.DownloadStart size chunkSize)) w =
  pages_after_complete h (safe_size size) (started h (safe_size size) w).
Proof.
  intros Ha Hs HC. rewrite pages_start by assumption.
  apply invoke_ok. rewrite sendNext_alive by reflexivity.
  assert (E : (bytesTransferred (session (started h (safe_size size) w))
               >=? safe_size size) = true) by (cbn; lia).
  rewrite E. reflexivity.
Qed.

Lemma node_start_empty h size chunkSize (w : World NodeWs.Task) :
  alive w = true -> safe_size size <= 0 ->
  0 <= chunk_size chunkSize <= max_alloc h ->
  NodeWs.step h (Deliver (NodeWs.DownloadTest size chunkSize)) w =
  node_after_complete h (safe_size size) (node_started h (safe_size size) w).
Proof.
  intros Ha Hs HC. rewrite node_start by assumption.
  apply invoke_ok. apply sendNextChunk_done; [reflexivity | exact Hs].
Qed.

Lemma do_download_empty h size chunkSize (w : World DurableObject.Task) :
  alive w = true -> safe_size size <= 0 ->
  DurableObject.step h
    (Deliver (DurableObject.DownloadStart size chunkSize)) w =
  do_after_complete h 0 (started h (safe_size size) w).
Proof.
  intros Ha Hs.
  destruct w as [[ph bt st la] q o d u r wr al rg]. cbn in Ha. subst al.
  unfold DurableObject.step, step, invoke, DurableObject.handleMessage,
    try_catch, DurableObject.handleDownloadTest, DurableObject.sendChunk.
  fold (safe_size size).
  assert (E : (0 >=? safe_size size) = true) by lia. rewrite E.
  reflexivity.
Qed.

(** C5 (as stated) fails: a requested size of 0 declares the 1 MiB default
    and streams it with a progress event. *)
Lemma C5_size_zero_streams_one_MiB :
  let w := Pages.download host0 16 (Some 0) None
             (fresh Pages.Task (Some 0)) in
  queue w = []
  /\ started_totals (outbox w) = [1048576]
  /\ progress_marks (outbox w) = [(1048576, 1048576)]
  /\ complete_totals (outbox w) = [1048576].
Proof. vm_compute. repeat split. Qed.

(** C5 (amended): a requested size of 0 is handled exactly like an absent
    size, in every binding: the started event declares 1048576 bytes and
    the run streams them, with a last progress event at 1048576.  A started
    event immediately followed by the complete event, with no chunk and no
    progress event, is what a request whose total is not positive (a
    negative size [S]) produces.  The started event then carries [S]; the
    complete event carries [S] on [onRequestGET] and on the Node server,
    and the 0 bytes sent on the Durable Object; the HTTP route declares a
    [Content-Length] of [S] and ends the body at once. *)
Theorem C5_size_zero_is_default h size chunkSize (wp : World Pages.Task)
    (wn : World NodeWs.Task) (wd : World DurableObject.Task)
    (wh : World Http.Task) fuel :
  Pages.step h (Deliver (Pages.DownloadStart (Some 0) chunkSize)) wp =
  Pages.step h (Deliver (Pages.DownloadStart None chunkSize)) wp
  /\ NodeWs.step h (Deliver (NodeWs.DownloadTest (Some 0) chunkSize)) wn =
     NodeWs.step h (Deliver (NodeWs.DownloadTest None chunkSize)) wn
  /\ DurableObject.step h
       (Deliver (DurableObject.DownloadStart (Some 0) chunkSize)) wd =
     DurableObject.step h
       (Deliver (DurableObject.DownloadStart None chunkSize)) wd
  /\ Http.step h (Deliver (Http.GetDownload (Some 0) chunkSize)) wh =
     Http.step h (Deliver (Http.GetDownload None chunkSize)) wh
  /\ (alive wp = true -> queue wp = [] ->
      0 < chunk_size chunkSize <= max_alloc h ->
      (chunk_count (chunk_size chunkSize) 1048576 <= fuel)%nat ->
      exists fs marks,
        Finished wp (Pages.download h fuel (Some 0) chunkSize wp) fs
        /\ started_totals fs = [1048576]
        /\ payload_bytes fs = 1048576
        /\ progress_marks fs = marks ++ [(1048576, 1048576)]
        /\ complete_totals fs = [1048576])
  /\ (alive wp = true -> safe_size size <= 0 ->
      0 <= chunk_size chunkSize <= max_alloc h ->
      exists t1 t2 d v,
        outbox (Pages.step h
                  (Deliver (Pages.DownloadStart size chunkSize)) wp) =
        outbox wp ++ [DownloadStarted t1 (safe_size size);
                      DownloadComplete t2 (safe_size size) d v]
        /\ queue (Pages.step h
                    (Deliver (Pages.DownloadStart size chunkSize)) wp) =
           queue wp)
  /\ (alive wn = true -> safe_size size <= 0 ->
      0 <= chunk_size chunkSize <= max_alloc h ->
      exists t1 t2 d v,
        outbox (NodeWs.step h
                  (Deliver (NodeWs.DownloadTest size chunkSize)) wn) =
        outbox wn ++ [DownloadStarted t1 (safe_size size);
                      DownloadComplete t2 (safe_size size) d v]
        /\ queue (NodeWs.step h
                    (Deliver (NodeWs.DownloadTest size chunkSize)) wn) =
           queue wn)
  /\ (alive wd = true -> safe_size size <= 0 ->
      exists t1 t2 d,
        outbox (DurableObject.step h
                  (Deliver (DurableObject.DownloadStart size chunkSize))
                  wd) =
        outbox wd ++ [DownloadStarted t1 (safe_size size);
                      DownloadCompleteMs t2 0 d]
        /\ queue (DurableObject.step h
                    (Deliver (DurableObject.DownloadStart size chunkSize))
                    wd) =
           queue wd)
  /\ (alive wh = true -> safe_size size <= 0 ->
      outbox (Http.step h (Deliver (Http.GetDownload size chunkSize)) wh) =
      outbox wh ++ [Header (safe_size size); EndOfBody]
      /\ queue (Http.step h (Deliver (Http.GetDownload size chunkSize)) wh)
         = queue wh).
Proof.
  split.
  { unfold Pages.step, step, Pages.on_message.
    change (Js.or_default (Some 0) (1024 * 1024))
      with (Js.or_default None (1024 * 1024)).
    reflexivity. }
  split.
  { unfold NodeWs.step, step, NodeWs.on_message, NodeWs.handleDownloadTest.
    change (Js.or_default (Some 0) (1024 * 1024))
      with (Js.or_default None (1024 * 1024)).
    reflexivity. }
  split.
  { unfold DurableObject.step, step, DurableObject.handleMessage,
      DurableObject.handleDownloadTest.
    change (Js.or_default (Some 0) (1024 * 1024))
      with (Js.or_default None (1024 * 1024)).
    reflexivity. }
  split.
  { unfold Http.step, step, Http.on_request, Http.get_download.
    change (Js.or_default (Some 0) (1024 * 1024))
      with (Js.or_default None (1024 * 1024)).
    reflexivity. }
  split; [|split; [|split; [|split]]].
  - intros Ha Hq HC Hfuel.
    destruct (@pages_download h (Some 0) chunkSize wp fuel Ha Hq HC Hfuel)
      as [fs (Hfin & [S0 S1 S2 S3 S4])].
    change (safe_size (Some 0)) with 1048576 in *.
    destruct (@marks_from_last (chunk_size chunkSize) 1048576 ltac:(lia)
                _ 0 ltac:(lia) eq_refl) as [l Hl].
    exists fs, l. split; [exact Hfin|]. split; [exact S0|].
    split; [|split; [rewrite S2; exact Hl | exact S3]].
    unfold payload_bytes. rewrite S1. apply sum_slices; lia.
  - intros Ha Hs HC. rewrite pages_download_empty by assumption.
    do 4 eexists. unfold pages_after_complete, started. cbn [outbox queue].
    rewrite <- app_assoc. split; reflexivity.
  - intros Ha Hs HC. rewrite node_start_empty by assumption.
    do 4 eexists. unfold node_after_complete, node_started.
    cbn [outbox queue]. rewrite <- app_assoc. split; reflexivity.
  - intros Ha Hs. rewrite do_download_empty by assumption.
    do 3 eexists. unfold do_after_complete, started.
    cbn [outbox queue]. rewrite <- app_assoc. split; reflexivity.
  - apply http_download_empty.
Qed.

Lemma C5_size_zero_is_default_witness :
  exists t1 t2 d v,
    outbox (Pages.step host0
              (Deliver (Pages.DownloadStart (Some (-3)) None))
              (fresh Pages.Task (Some 0))) =
    outbox (fresh Pages.Task (Some 0))
    ++ [DownloadStarted t1 (-3); DownloadComplete t2 (-3) d v]
    /\ queue (Pages.step host0
                (Deliver (Pages.DownloadStart (Some (-3)) None))
                (fresh Pages.Task (Some 0))) =
       queue (fresh Pages.Task (Some 0)).
Proof.
  refine (proj1 (proj2 (proj2 (proj2 (proj2 (proj2
            (@C5_size_zero_is_default host0 (Some (-3)) None
               (fresh Pages.Task (Some 0)) (fresh NodeWs.Task None)
               (fresh DurableObject.Task None) (fresh Http.Task None)
               0)))))) _ _ _);
    first [ reflexivity | vm_compute; lia | vm_compute; discriminate
          | vm_compute; split; discriminate ].
Defined.

(** C6 (as stated) fails: the ['close'] listener cancels nothing, so the
    [sendChunk] that was scheduled before the disconnection still runs
    after it.  On a runtime whose [send] throws it hands a progress frame
    to the closed socket and dies there; on one whose [send] discards, the
    run goes on counting. *)
Lemma C6_step_runs_after_close :
  let start := Deliver (DurableObject.DownloadStart (Some 3) (Some 1)) in
  let w := DurableObject.run host0 [start; Close]
             (fresh DurableObject.Task None) in
  let w' := DurableObject.step host0 (Fire 0) w in
  let l := DurableObject.run host_lenient [start; Close]
             (fresh DurableObject.Task None) in
  let l' := DurableObject.step host_lenient (Fire 0) l in
  alive w = false
  /\ queue w = [DurableObject.SendChunk 3 1 1]
  /\ dropped w = []
  /\ dropped w' = [ChunkProgress 4 2 3 1]
  /\ uncaught w' = 1%nat
  /\ bytesTransferred (session l) = 1
  /\ bytesTransferred (session l') = 2
  /\ queue l' = [DurableObject.SendChunk 3 1 2].
Proof. vm_compute. repeat split. Qed.

(** C6 (amended): disconnecting removes the connection from the [sessions]
    map and cancels nothing: the chunk-send step that was scheduled stays
    pending and still runs.  Whatever runs after the disconnection point,
    the socket accepts no further frame; and on a runtime whose [send]
    throws on a closed socket, a pending step that runs after the close
    ends without rescheduling itself. *)
Theorem C6_after_disconnect h (w w1 : World DurableObject.Task)
    (ins : list (Input DurableObject.Msg)) k t rest :
  let w0 := DurableObject.step h Close w in
  queue w0 = queue w
  /\ alive w0 = false
  /\ registered w0 = false
  /\ outbox (DurableObject.run h ins w0) = outbox w
  /\ (closed_send_throws h = true -> alive w1 = false ->
      take_nth k (queue w1) = Some (t, rest) ->
      queue (DurableObject.step h (Fire k) w1) = rest).
Proof.
  intros w0.
  assert (Hq : quiet (outbox w) w0) by (split; reflexivity).
  repeat split.
  - apply (proj2 (@quiet_run (outbox w) h ins w0 Hq)).
  - apply do_fire_closed.
Qed.

Lemma C6_after_disconnect_witness :
  queue (DurableObject.step host0 (Fire 0)
           (mkWorld (mkSession (Some Download) 1 (Some 1) (Some 0))
                    [DurableObject.SendChunk 3 1 1] [] [] 0 3 0 false
                    false)) = [].
Proof.
  refine (proj2 (proj2 (proj2 (proj2
            (@C6_after_disconnect host0 (fresh DurableObject.Task None)
               (mkWorld (mkSession (Some Download) 1 (Some 1) (Some 0))
                        [DurableObject.SendChunk 3 1 1] [] [] 0 3 0 false
                        false)
               [] 0 (DurableObject.SendChunk 3 1 1) [])))) _ _ _);
    reflexivity.
Defined.

(** Run a handler symbolically: unfold the handlers and the primitives,
    and nothing of the arithmetic. *)
Ltac run_handler :=
  cbv beta iota zeta delta
    [step invoke try_catch bind ret throw now or_now send alloc schedule
     write_then write_body unregister get_session set_session enter
     session queue outbox dropped uncaught reads writes alive registered
     testPhase bytesTransferred testStartTime lastActivity fst snd
     pending_before
     Http.step Http.on_request Http.ping Http.function_ping
     Http.get_download Http.sendChunk Http.flush_head Http.run_task
     NodeWs.step NodeWs.on_message NodeWs.handlePingTest
     NodeWs.handleDownloadTest NodeWs.handleUploadTest NodeWs.sendNextChunk
     NodeWs.write_done NodeWs.run_task
     DurableObject.step DurableObject.handleMessage DurableObject.handlePing
     DurableObject.handleDownloadTest DurableObject.handleUploadStart
     DurableObject.handleUploadData DurableObject.sendChunk
     DurableObject.run_task DurableObject.on_close
     Pages.step Pages.on_message Pages.sendNext Pages.run_task].

Ltac count_units :=
  unfold chunk_lengths;
  rewrite ?flat_map_app, ?length_app; cbn [flat_map app List.length];
  repeat split; first [reflexivity | lia].

Ltac by_cases :=
  repeat match goal with
         | |- context [if ?b then _ else _] => destruct b; run_handler
         end;
  first [ exists []; rewrite app_nil_r; count_units
        | eexists; split; [reflexivity|]; count_units ].

Lemma http_unit h i (w : World Http.Task) :
  one_write_one_resumption (pending_before i w) w (Http.step h i w).
Proof.
  unfold one_write_one_resumption.
  destruct w as [s q o d u r wr al rg].
  destruct i as [m|k|].
  - destruct m as [ts|size chunkSize|ts];
      try (destruct ts as [v|]); run_handler; by_cases.
  - run_handler.
    destruct (take_nth k q) as [[[total C bs sent] rest]|];
      run_handler; by_cases.
  - run_handler. by_cases.
Qed.

Lemma node_unit h i (w : World NodeWs.Task) :
  one_write_one_resumption (pending_before i w) w (NodeWs.step h i w).
Proof.
  unfold one_write_one_resumption.
  destruct w as [s q o d u r wr al rg].
  destruct i as [m|k|].
  - destruct m as [ts|size chunkSize|len| | |];
      try (destruct ts as [v|]); try (destruct len as [n|]);
      run_handler; by_cases.
  - run_handler.
    destruct (take_nth k q) as [[[total C bs|total C bs c err] rest]|];
      run_handler; by_cases.
  - run_handler. by_cases.
Qed.

Lemma do_unit h i (w : World DurableObject.Task) :
  alive w = true ->
  one_chunk_one_resumption (pending_before i w) w
                           (DurableObject.step h i w).
Proof.
  unfold one_chunk_one_resumption.
  destruct w as [s q o d u r wr al rg]. cbn [alive]. intros ->.
  destruct i as [m|k|].
  - destruct m as [ts|size chunkSize| |data| | | |];
      try (destruct ts as [v|]); run_handler; by_cases.
  - run_handler.
    destruct (take_nth k q) as [[[total C bs] rest]|];
      run_handler; by_cases.
  - run_handler. by_cases.
Qed.

Lemma pages_unit h i (w : World Pages.Task) :
  alive w = true ->
  one_chunk_one_resumption (pending_before i w) w (Pages.step h i w).
Proof.
  unfold one_chunk_one_resumption.
  destruct w as [s q o d u r wr al rg]. cbn [alive]. intros ->.
  destruct i as [m|k|].
  - destruct m as [ts|size chunkSize| |v| | | |];
      try (destruct ts as [x|]); try (destruct v);
      run_handler; by_cases.
  - run_handler.
    destruct (take_nth k q) as [[[total C] rest]|];
      run_handler; by_cases.
  - run_handler. by_cases.
Qed.

Lemma http_sendChunk_more h total C bs sent (w : World Http.Task) :
  bs < total -> 0 <= Z.min C (total - bs) <= max_alloc h ->
  let c := Z.min C (total - bs) in
  let w' := invoke (Http.sendChunk h total C bs sent) w in
  outbox w' = outbox w ++ head total sent ++ [Body c]
  /\ queue w' = queue w ++ [Http.SendChunk total C (bs + c) true]
  /\ writes w' = S (writes w).
Proof.
  intros Hlt Hc. destruct w as [s q o d u r wr al rg].
  unfold invoke, Http.sendChunk, Http.flush_head, bind, alloc, write_body,
    schedule, head.
  assert (E : (bs >=? total) = false) by lia. rewrite E.
  assert (Ea : ((Z.min C (total - bs) <? 0)
                || (max_alloc h <? Z.min C (total - bs))) = false).
  { apply orb_false_iff. split; lia. }
  rewrite Ea. destruct sent; cbn; rewrite <- ?app_assoc; repeat split.
Qed.

(** C7: in every binding a scheduling unit of the emission loop (the
    handling of a message, or one callback) issues at most one chunk write
    and registers at most one resumption, exactly one when it wrote,
    whatever the transport reported: no write is retried and there is no
    loop.  In particular an HTTP chunk write that returns [false]
    (backpressure) is followed by exactly one [setImmediate(sendChunk)] and
    by no other write. *)
Theorem C7_one_write_one_resumption h
    (ih : Input Http.Msg) (wh : World Http.Task)
    (inode : Input NodeWs.Msg) (wn : World NodeWs.Task)
    (ido : Input DurableObject.Msg) (wd : World DurableObject.Task)
    (ip : Input Pages.Msg) (wp : World Pages.Task) total C bs
    headersSent :
  one_write_one_resumption (pending_before ih wh) wh (Http.step h ih wh)
  /\ one_write_one_resumption (pending_before inode wn) wn
                              (NodeWs.step h inode wn)
  /\ (alive wd = true ->
      one_chunk_one_resumption (pending_before ido wd) wd
                               (DurableObject.step h ido wd))
  /\ (alive wp = true ->
      one_chunk_one_resumption (pending_before ip wp) wp
                               (Pages.step h ip wp))
  /\ (write_flushed h (writes wh) = false ->
      bs < total -> 0 <= Z.min C (total - bs) <= max_alloc h ->
      let c := Z.min C (total - bs) in
      let w' := invoke (Http.sendChunk h total C bs headersSent) wh in
      outbox w' = outbox wh ++ head total headersSent ++ [Body c]
      /\ queue w' = queue wh ++ [Http.SendChunk total C (bs + c) true]
      /\ writes w' = S (writes wh)).
Proof.
  split; [apply http_unit|].
  split; [apply node_unit|].
  split; [apply do_unit|].
  split; [apply pages_unit|].
  intros _. apply http_sendChunk_more.
Qed.

Lemma C7_one_write_one_resumption_witness :
  let h := mkHost (fun k => Z.of_nat k) 2147483647 true (fun _ => false)
                  (fun _ => false) in
  let w' := invoke (Http.sendChunk h 5 2 0 false) (fresh Http.Task None) in
  outbox w' = [Header 5; Body 2]
  /\ queue w' = [Http.SendChunk 5 2 2 true]
  /\ writes w' = 1%nat.
Proof.
  refine (proj2 (proj2 (proj2 (proj2
            (@C7_one_write_one_resumption
               (mkHost (fun k => Z.of_nat k) 2147483647 true
                       (fun _ => false) (fun _ => false))
               Close (fresh Http.Task None)
               Close (fresh NodeWs.Task None)
               Close (fresh DurableObject.Task None)
               Close (fresh Pages.Task (Some 0)) 5 2 0 false)))) _ _ _);
    first [ reflexivity | vm_compute; split; discriminate ].
Defined.

(* ------------------------------------------------------------------ *)
(** ** The byte counter of a session *)

Lemma enter_session h {T} p (w : World T) :
  enter h p w =
  (Ok tt,
   mkWorld (mkSession (Some p) 0 (Some (clock h (reads w)))
                      (lastActivity (session w)))
           (queue w) (outbox w) (dropped w) (uncaught w) (S (reads w))
           (writes w) (alive w) (registered w)).
Proof. destruct w as [[ph bt st la] q o d u r wr al rg]. reflexivity. Qed.

Lemma do_sendChunk_grows h total C bs (w : World DurableObject.Task) :
  queue w = [] -> bs = bytesTransferred (session w) ->
  let w' := invoke (DurableObject.sendChunk h total C bs) w in
  in_sync w' /\ bytesTransferred (session w) <= bytesTransferred (session w').
Proof.
  destruct w as [[ph bt st la] q o d u r wr al rg]. cbn [queue session
    bytesTransferred]. intros -> ->.
  unfold in_sync. run_handler.
  destruct (bt >=? total); run_handler.
  - destruct al; run_handler; [split; [exact I | lia]|].
    destruct (closed_send_throws h); run_handler; split;
      first [exact I | lia].
  - destruct ((Z.min C (total - bt) <? 0)
              || (max_alloc h <? Z.min C (total - bt))) eqn:E; run_handler;
      [split; [exact I | lia]|].
    apply orb_false_iff in E.
    destruct al; run_handler; [split; [reflexivity | cbn; lia]|].
    destruct (closed_send_throws h); run_handler; split;
      first [exact I | reflexivity | cbn; lia].
Qed.

Lemma do_fire_grows h (w : World DurableObject.Task) :
  in_sync w ->
  let w' := DurableObject.step h (Fire 0) w in
  in_sync w' /\ bytesTransferred (session w) <= bytesTransferred (session w').
Proof.
  unfold in_sync. intros Hs.
  destruct (queue w) as [|[total C bs] [|t q]] eqn:Hq; try contradiction.
  - unfold DurableObject.step, step. rewrite Hq. cbn.
    rewrite Hq. split; [exact I | lia].
  - unfold DurableObject.step. erewrite step_fire_head by exact Hq.
    apply (@do_sendChunk_grows h total C bs (with_queue w []));
      [reflexivity | exact Hs].
Qed.

Lemma do_drain_sync h n :
  forall w, in_sync w -> in_sync (DurableObject.drain h n w).
Proof.
  induction n as [|n IH]; intros w Hs; [exact Hs|].
  unfold DurableObject.drain. cbn [drain].
  destruct (queue w) eqn:Hq; [exact Hs|].
  apply IH. apply do_fire_grows. exact Hs.
Qed.

Lemma do_drain_next h n (w : World DurableObject.Task) :
  DurableObject.drain h (S n) w =
  match queue (DurableObject.drain h n w) with
  | [] => DurableObject.drain h n w
  | _ :: _ => DurableObject.step h (Fire 0) (DurableObject.drain h n w)
  end.
Proof.
  unfold DurableObject.drain. replace (S n) with (n + 1)%nat by lia.
  rewrite drain_add. reflexivity.
Qed.

Lemma do_start_sync h size chunkSize (w : World DurableObject.Task) :
  alive w = true -> queue w = [] ->
  0 < chunk_size chunkSize <= max_alloc h ->
  in_sync (DurableObject.step h
             (Deliver (DurableObject.DownloadStart size chunkSize)) w).
Proof.
  intros Ha Hq HC. rewrite do_start by assumption.
  apply do_sendChunk_grows; [exact Hq | reflexivity].
Qed.

Lemma do_upload_counts h data (w : World DurableObject.Task) :
  bytesTransferred
    (session (DurableObject.step h (Deliver (DurableObject.UploadData data))
                                 w))
  = bytesTransferred (session w) + Js.length_or_zero data.
Proof.
  destruct w as [[ph bt st la] q o d u r wr al rg].
  run_handler.
  repeat match goal with
         | |- context [if ?b then _ else _] => destruct b; run_handler
         end; reflexivity.
Qed.

Lemma length_or_zero_nonneg data :
  (forall n, data <> Js.Object n) -> 0 <= Js.length_or_zero data.
Proof.
  intros Hd. destruct data as [|s|n|n]; cbn; try lia.
  contradiction (Hd n). reflexivity.
Qed.

(** C8 (as stated) fails: during a download run on the Durable Object an
    [upload_data] message raises [bytesTransferred] from 1 to 6, and the
    next chunk-send step sets it back to the run's own counter, 2; an
    [upload_data] message whose [data] is an object with the member
    [length: -5] then lowers it to -3.  The session is in the download
    phase throughout. *)
Lemma C8_counter_overwritten :
  let w1 := DurableObject.step host0
              (Deliver (DurableObject.DownloadStart (Some 3) (Some 1)))
              (fresh DurableObject.Task None) in
  let w2 := DurableObject.step host0
              (Deliver (DurableObject.UploadData (Js.Text "abcde")))
              w1 in
  let w3 := DurableObject.step host0 (Fire 0) w2 in
  let w4 := DurableObject.step host0
              (Deliver (DurableObject.UploadData (Js.Object (-5)))) w3 in
  testPhase (session w1) = Some Download
  /\ testPhase (session w2) = Some Download
  /\ testPhase (session w3) = Some Download
  /\ testPhase (session w4) = Some Download
  /\ bytesTransferred (session w1) = 1
  /\ bytesTransferred (session w2) = 6
  /\ bytesTransferred (session w3) = 2
  /\ bytesTransferred (session w4) = -3.
Proof. vm_compute. repeat split. Qed.

(** C8 (amended): handling a download-start or upload-start message sets
    the phase, resets [bytesTransferred] to 0 and sets [testStartTime] to
    the current time before anything is sent.  Afterwards an [upload_data]
    message adds to [bytesTransferred] the [length] of its [data] (0 for a
    falsy one), so the counter does not decrease when [data] is absent, a
    string or an array; and it does not decrease from one chunk-send step
    to the next of a download run that no other message interleaves
    with. *)
Theorem C8_reset_and_growth h p size chunkSize data
    (w : World DurableObject.Task) (wn : World NodeWs.Task) fuel :
  enter h p w =
  (Ok tt,
   mkWorld (mkSession (Some p) 0 (Some (clock h (reads w)))
                      (lastActivity (session w)))
           (queue w) (outbox w) (dropped w) (uncaught w) (S (reads w))
           (writes w) (alive w) (registered w))
  /\ (alive w = true ->
      session (DurableObject.step h (Deliver DurableObject.UploadStart) w) =
      mkSession (Some Upload) 0 (Some (clock h (S (reads w))))
                (Some (clock h (reads w))))
  /\ (alive w = true -> 0 < chunk_size chunkSize <= max_alloc h ->
      DurableObject.step h
        (Deliver (DurableObject.DownloadStart size chunkSize)) w =
      invoke (DurableObject.sendChunk h (safe_size size)
                (chunk_size chunkSize) 0)
             (started h (safe_size size) w)
      /\ session (started h (safe_size size) w) =
         mkSession (Some Download) 0 (Some (clock h (S (reads w))))
                   (Some (clock h (reads w))))
  /\ (alive wn = true -> 0 <= chunk_size chunkSize <= max_alloc h ->
      NodeWs.step h (Deliver (NodeWs.DownloadTest size chunkSize)) wn =
      invoke (NodeWs.sendNextChunk h (safe_size size)
                (chunk_size chunkSize) 0)
             (node_started h (safe_size size) wn)
      /\ session (node_started h (safe_size size) wn) =
         mkSession (Some Download) 0 (Some (clock h (reads wn)))
                   (lastActivity (session wn)))
  /\ bytesTransferred
       (session (DurableObject.step h
                   (Deliver (DurableObject.UploadData data)) w))
     = bytesTransferred (session w) + Js.length_or_zero data
  /\ ((forall n, data <> Js.Object n) ->
      bytesTransferred (session w) <=
      bytesTransferred
        (session (DurableObject.step h
                    (Deliver (DurableObject.UploadData data)) w)))
  /\ (alive w = true -> queue w = [] ->
      0 < chunk_size chunkSize <= max_alloc h ->
      bytesTransferred
        (session (DurableObject.download h fuel size chunkSize w)) <=
      bytesTransferred
        (session (DurableObject.download h (S fuel) size chunkSize w))).
Proof.
  split; [apply enter_session|].
  split.
  { intros Ha. destruct w as [[ph bt st la] q o d u r wr al rg].
    cbn in Ha. subst al. reflexivity. }
  split; [intros Ha HC; split; [apply do_start; assumption | reflexivity]|].
  split; [intros Ha HC; split; [apply node_start; assumption
                               | reflexivity]|].
  split; [apply do_upload_counts|].
  split.
  { intros Hd. rewrite do_upload_counts.
    pose proof (length_or_zero_nonneg data Hd). lia. }
  intros Ha Hq HC. unfold DurableObject.download.
  rewrite do_drain_next.
  set (w0 := DurableObject.step h _ w).
  assert (Hs : in_sync (DurableObject.drain h fuel w0)).
  { apply do_drain_sync. apply do_start_sync; assumption. }
  destruct (queue (DurableObject.drain h fuel w0)); [lia|].
  apply do_fire_grows. exact Hs.
Qed.

Lemma C8_reset_and_growth_witness :
  session (DurableObject.step host0 (Deliver DurableObject.UploadStart)
             (mkWorld (mkSession (Some Download) 7 (Some 1) (Some 0))
                      [] [] [] 0 3 0 true true)) =
  mkSession (Some Upload) 0 (Some 4) (Some 3).
Proof.
  refine (proj1 (proj2
            (@C8_reset_and_growth host0 Upload None None Js.Falsy
               (mkWorld (mkSession (Some Download) 7 (Some 1) (Some 0))
                        [] [] [] 0 3 0 true true)
               (fresh NodeWs.Task None) 0)) _).
  reflexivity.
Defined.

(* ------------------------------------------------------------------ *)
(** ** Ping *)

(** C9 (as stated) fails: a client timestamp of 0 is falsy, so the server
    answers with its own time as [clientTimestamp] and a processing time
    of one clock tick instead of [serverTimestamp - 0]. *)
Lemma C9_timestamp_zero_is_replaced :
  outbox (NodeWs.step host_today (Deliver (NodeWs.PingTest (Some 0)))
                      (fresh NodeWs.Task None)) =
  [Pong 1700000000000 1700000000001 1]
  /\ outbox (Http.step host_today (Deliver (Http.FunctionPing (Some 0)))
                       (fresh Http.Task None)) =
     [Pong 1700000000000 1700000000001 1]
  /\ 1700000000001 - 0 <> 1.
Proof. vm_compute. repeat split; discriminate. Qed.

Lemma or_now_truthy h {T} v (w : World T) :
  v <> 0 -> or_now h (Some v) w = (Ok v, w).
Proof.
  intros Hv. unfold or_now. destruct (v =? 0) eqn:E; [lia | reflexivity].
Qed.

Lemma or_now_falsy h {T} x (w : World T) :
  x = None \/ x = Some 0 -> or_now h x w = now h w.
Proof. intros [-> | ->]; reflexivity. Qed.

(** The reply of every ping handler on an open connection. *)
Lemma ping_reply h {T} x (w : World T) :
  alive w = true ->
  outbox (invoke (clientTimestamp <- or_now h x ;;
                  serverTimestamp <- now h ;;
                  send h (Pong clientTimestamp serverTimestamp
                               (serverTimestamp - clientTimestamp))) w) =
  outbox w ++
  [match x with
   | Some v =>
       if v =? 0
       then Pong (clock h (reads w)) (clock h (S (reads w)))
                 (clock h (S (reads w)) - clock h (reads w))
       else Pong v (clock h (reads w)) (clock h (reads w) - v)
   | None => Pong (clock h (reads w)) (clock h (S (reads w)))
                  (clock h (S (reads w)) - clock h (reads w))
   end].
Proof.
  destruct w as [s q o d u r wr al rg]. cbn [alive]. intros ->.
  destruct x as [v|]; [destruct (v =? 0) eqn:E|];
    run_handler; rewrite ?E; reflexivity.
Qed.

(** C9 (amended): for every ping request carrying a client timestamp
    [T <> 0] the reply contains [clientTimestamp = T], the server's current
    time as [serverTimestamp] and [serverProcessingTime = serverTimestamp -
    T], negative exactly when [T] is ahead of the server's clock; when the
    timestamp is absent, unparsable or 0, the server's own current time is
    used as [clientTimestamp]. *)
Theorem C9_ping_reply h T x (wn : World NodeWs.Task) (wh : World Http.Task) :
  (T <> 0 -> alive wn = true ->
   outbox (NodeWs.step h (Deliver (NodeWs.PingTest (Some T))) wn) =
   outbox wn ++ [Pong T (clock h (reads wn)) (clock h (reads wn) - T)])
  /\ (T <> 0 -> alive wh = true ->
      outbox (Http.step h (Deliver (Http.FunctionPing (Some T))) wh) =
      outbox wh ++ [Pong T (clock h (reads wh)) (clock h (reads wh) - T)])
  /\ (T <> 0 -> alive wh = true ->
      outbox (Http.step h (Deliver (Http.GetPing (Some T))) wh) =
      outbox wh ++ [Pong T (clock h (reads wh)) (clock h (reads wh) - T)])
  /\ (clock h (reads wn) - T < 0 <-> clock h (reads wn) < T)
  /\ (x = None \/ x = Some 0 -> alive wn = true ->
      outbox (NodeWs.step h (Deliver (NodeWs.PingTest x)) wn) =
      outbox wn ++ [Pong (clock h (reads wn)) (clock h (S (reads wn)))
                         (clock h (S (reads wn)) - clock h (reads wn))])
  /\ (x = None \/ x = Some 0 -> alive wh = true ->
      outbox (Http.step h (Deliver (Http.FunctionPing x)) wh) =
      outbox wh ++ [Pong (clock h (reads wh)) (clock h (S (reads wh)))
                         (clock h (S (reads wh)) - clock h (reads wh))]).
Proof.
  assert (Hn : forall y,
             alive wn = true ->
             NodeWs.step h (Deliver (NodeWs.PingTest y)) wn =
             invoke (clientTimestamp <- or_now h y ;;
                     serverTimestamp <- now h ;;
                     send h (Pong clientTimestamp serverTimestamp
                                  (serverTimestamp - clientTimestamp))) wn).
  { intros y Ha. destruct wn as [s q o d u r wr al rg]. cbn in Ha. subst al.
    destruct y as [v|]; [destruct (v =? 0) eqn:E|];
      run_handler; rewrite ?E; reflexivity. }
  repeat match goal with |- _ /\ _ => split end.
  - intros HT Ha. rewrite Hn, ping_reply by assumption.
    destruct (T =? 0) eqn:E; [lia | reflexivity].
  - intros HT Ha.
    change (Http.step h (Deliver (Http.FunctionPing (Some T))) wh)
      with (invoke (Http.function_ping h (Some T)) wh).
    unfold Http.function_ping. rewrite ping_reply by assumption.
    destruct (T =? 0) eqn:E; [lia | reflexivity].
  - intros HT Ha.
    change (Http.step h (Deliver (Http.GetPing (Some T))) wh)
      with (invoke (Http.ping h (Some T)) wh).
    unfold Http.ping. rewrite ping_reply by assumption.
    destruct (T =? 0) eqn:E; [lia | reflexivity].
  - lia.
  - intros Hx Ha. rewrite Hn, ping_reply by assumption.
    destruct Hx as [-> | ->]; reflexivity.
  - intros Hx Ha.
    change (Http.step h (Deliver (Http.FunctionPing x)) wh)
      with (invoke (Http.function_ping h x) wh).
    unfold Http.function_ping. rewrite ping_reply by assumption.
    destruct Hx as [-> | ->]; reflexivity.
Qed.

Lemma C9_ping_reply_witness :
  outbox (NodeWs.step host0 (Deliver (NodeWs.PingTest (Some 5000)))
                      (fresh NodeWs.Task None)) =
  outbox (fresh NodeWs.Task None) ++ [Pong 5000 0 (-5000)].
Proof.
  refine (proj1 (@C9_ping_reply host0 5000 None (fresh NodeWs.Task None)
                   (fresh Http.Task None)) _ _);
    [discriminate | reflexivity].
Defined.

(* ------------------------------------------------------------------ *)
(** ** Upload frames on [onRequestGET] *)

(** C10: on [onRequestGET] an [upload_data] frame whose [byteLength] is
    absent or not a number is answered by no frame at all, neither
    [upload_ack] nor [error]: nothing is handed to the socket, nothing is
    scheduled, and [bytesTransferred] keeps its value. *)
Theorem C10_upload_data_without_length h v (w : World Pages.Task) :
  Js.typeof_number v = false ->
  let w' := Pages.step h (Deliver (Pages.UploadData v)) w in
  outbox w' = outbox w
  /\ dropped w' = dropped w
  /\ queue w' = queue w
  /\ uncaught w' = uncaught w
  /\ bytesTransferred (session w') = bytesTransferred (session w).
Proof.
  intros Hv. destruct w as [[ph bt st la] q o d u r wr al rg].
  destruct v; try discriminate; run_handler; repeat split.
Qed.

Lemma C10_upload_data_without_length_witness :
  let w := mkWorld (mkSession (Some Upload) 42 (Some 1) (Some 0))
                   [] [UploadReady 2] [] 0 3 0 true true in
  let w' := Pages.step host0
              (Deliver (Pages.UploadData (Js.Str "12"%string))) w in
  outbox w' = outbox w
  /\ dropped w' = dropped w
  /\ queue w' = queue w
  /\ uncaught w' = uncaught w
  /\ bytesTransferred (session w') = bytesTransferred (session w).
Proof.
  exact (@C10_upload_data_without_length host0 (Js.Str "12"%string)
           (mkWorld (mkSession (Some Upload) 42 (Some 1) (Some 0))
                    [] [UploadReady 2] [] 0 3 0 true true) eq_refl).
Defined.

(* ------------------------------------------------------------------ *)
(** ** Further properties of the download loops *)

Lemma cumulative_from_sorted C total (HC : 0 < C) :
  forall n b,
    chunk_count C (total - b) = n ->
    StronglySorted Z.lt (cumulative_from C total b)
    /\ Forall (fun x => b < x <= total) (cumulative_from C total b).
Proof.
  induction n as [|n IH]; intros b Hn.
  - apply chunk_count_zero in Hn; [|assumption].
    rewrite cumulative_from_done by lia. split; constructor.
  - assert (Hb : b < total).
    { destruct (Z.lt_ge_cases b total); [assumption|].
      rewrite chunk_count_done in Hn by lia. discriminate. }
    rewrite (@cumulative_from_step C total b) by lia.
    rewrite (@chunk_count_step C (total - b)) in Hn by lia.
    injection Hn as Hn.
    set (b' := b + Z.min C (total - b)) in *.
    destruct (IH b') as [Hs Hf].
    { rewrite <- Hn. f_equal. unfold b'. lia. }
    split.
    + constructor; [exact Hs|].
      eapply Forall_impl; [|exact Hf]. cbn. intros x Hx. lia.
    + constructor; [unfold b'; lia|].
      eapply Forall_impl; [|exact Hf]. cbn. intros x Hx. unfold b' in Hx. lia.
Qed.

Lemma StronglySorted_filter {A} (R : A -> A -> Prop) (f : A -> bool) l :
  StronglySorted R l -> StronglySorted R (filter f l).
Proof.
  induction 1 as [|a l Hs IH Ha]; cbn; [constructor|].
  destruct (f a); [|exact IH].
  constructor; [exact IH|].
  apply Forall_forall. intros x Hx. apply filter_In in Hx.
  rewrite Forall_forall in Ha. apply Ha. tauto.
Qed.

Lemma marks_from_sorted C total b :
  0 < C ->
  StronglySorted Z.lt (map fst (marks_from C total b))
  /\ Forall (fun m => b < fst m <= total /\ snd m = total)
            (marks_from C total b).
Proof.
  intros HC. unfold marks_from. rewrite map_map. cbn [fst]. rewrite map_id.
  destruct (@cumulative_from_sorted C total HC _ b eq_refl) as [Hs Hf].
  split; [apply StronglySorted_filter; exact Hs|].
  apply Forall_forall. intros m Hm. apply in_map_iff in Hm.
  destruct Hm as [x [<- Hx]]. apply filter_In in Hx. destruct Hx as [Hx _].
  rewrite Forall_forall in Hf. cbn. split; [apply Hf; exact Hx | reflexivity].
Qed.

(** X1: on [onRequestGET] and on the Node server the progress events of a run
    are strictly increasing in [bytesSent], each names the declared total,
    and the last one is at [bytesSent = totalBytes]. *)
Theorem progress_events_increase h size chunkSize (wp : World Pages.Task)
    (wn : World NodeWs.Task) fuel :
  0 < chunk_size chunkSize <= max_alloc h ->
  0 < safe_size size ->
  (forall k, write_error h k = false) ->
  alive wp = true -> queue wp = [] ->
  alive wn = true -> queue wn = [] ->
  (2 * chunk_count (chunk_size chunkSize) (safe_size size) <= fuel)%nat ->
  (exists fs marks,
      Finished wp (Pages.download h fuel size chunkSize wp) fs
      /\ StronglySorted Z.lt (map fst (progress_marks fs))
      /\ Forall (fun m => 0 < fst m <= safe_size size
                          /\ snd m = safe_size size) (progress_marks fs)
      /\ progress_marks fs = marks ++ [(safe_size size, safe_size size)])
  /\ (exists fs marks,
         Finished wn (NodeWs.download h fuel size chunkSize wn) fs
         /\ StronglySorted Z.lt (map fst (progress_marks fs))
         /\ Forall (fun m => 0 < fst m <= safe_size size
                             /\ snd m = safe_size size) (progress_marks fs)
         /\ progress_marks fs = marks ++ [(safe_size size, safe_size size)]).
Proof.
  intros HC Htot Hok Hap Hqp Han Hqn Hfuel.
  destruct (@marks_from_sorted (chunk_size chunkSize) (safe_size size) 0
              ltac:(lia)) as [Hs Hf].
  destruct (@marks_from_last (chunk_size chunkSize) (safe_size size)
              ltac:(lia) _ 0 Htot eq_refl) as [l Hl].
  split.
  - destruct (@pages_download h size chunkSize wp fuel Hap Hqp HC)
      as [fs (Hfin & [S0 S1 S2 S3 S4])]; [lia|].
    exists fs, l. rewrite S2.
    split; [exact Hfin|]. split; [exact Hs|]. split; [exact Hf | exact Hl].
  - destruct (@node_download h size chunkSize wn fuel Han Hqn Hok HC Htot
                Hfuel) as [fs (Hfin & _ & [S0 S1 S2 S3 S4])].
    exists fs, l. rewrite S2.
    split; [exact Hfin|]. split; [exact Hs|]. split; [exact Hf | exact Hl].
Qed.

Lemma progress_events_increase_witness :
  (exists fs marks,
      Finished (fresh Pages.Task (Some 0))
               (Pages.download host0 6 (Some 3145728) (Some 1048576)
                               (fresh Pages.Task (Some 0))) fs
      /\ StronglySorted Z.lt (map fst (progress_marks fs))
      /\ Forall (fun m => 0 < fst m <= 3145728 /\ snd m = 3145728)
                (progress_marks fs)
      /\ progress_marks fs = marks ++ [(3145728, 3145728)])
  /\ (exists fs marks,
         Finished (fresh NodeWs.Task None)
                  (NodeWs.download host0 6 (Some 3145728) (Some 1048576)
                                   (fresh NodeWs.Task None)) fs
         /\ StronglySorted Z.lt (map fst (progress_marks fs))
         /\ Forall (fun m => 0 < fst m <= 3145728 /\ snd m = 3145728)
                   (progress_marks fs)
         /\ progress_marks fs = marks ++ [(3145728, 3145728)]).
Proof.
  apply (@progress_events_increase host0 (Some 3145728) (Some 1048576)
           (fresh Pages.Task (Some 0)) (fresh NodeWs.Task None) 6);
    first [ reflexivity | vm_compute; lia
          | vm_compute; split; [reflexivity | discriminate] ].
Defined.

(** X2: on the Node server a download of positive size that ran to its end
    without a write error has sent every byte and ends with no callback
    pending and no [download_complete] frame: the last write callback does
    not reschedule [sendNextChunk]. *)
Theorem node_download_never_completes h size chunkSize
    (w : World NodeWs.Task) fuel more :
  alive w = true -> queue w = [] ->
  (forall k, write_error h k = false) ->
  0 < chunk_size chunkSize <= max_alloc h ->
  0 < safe_size size ->
  (2 * chunk_count (chunk_size chunkSize) (safe_size size) <= fuel)%nat ->
  let w' := NodeWs.download h fuel size chunkSize w in
  exists fs,
    outbox w' = outbox w ++ fs
    /\ payload_bytes fs = safe_size size
    /\ bytesTransferred (session w') = safe_size size
    /\ complete_totals fs = []
    /\ queue w' = []
    /\ NodeWs.drain h more w' = w'.
Proof.
  intros Ha Hq Hok HC Htot Hfuel w'.
  destruct (@node_download h size chunkSize w fuel Ha Hq Hok HC Htot Hfuel)
    as [fs ([Hq' Ha' Ho'] & Hb & [S0 S1 S2 S3 S4])].
  exists fs. split; [exact Ho'|].
  split; [unfold payload_bytes; rewrite S1; apply sum_slices; lia|].
  split; [exact Hb|]. split; [exact S3|]. split; [exact Hq'|].
  unfold NodeWs.drain. apply drain_idle. exact Hq'.
Qed.

Lemma node_download_never_completes_witness :
  let w' := NodeWs.download host0 4 (Some 5) (Some 3)
              (fresh NodeWs.Task None) in
  exists fs,
    outbox w' = outbox (fresh NodeWs.Task None) ++ fs
    /\ payload_bytes fs = 5
    /\ bytesTransferred (session w') = 5
    /\ complete_totals fs = []
    /\ queue w' = []
    /\ NodeWs.drain host0 100 w' = w'.
Proof.
  apply (@node_download_never_completes host0 (Some 5) (Some 3)
           (fresh NodeWs.Task None) 4 100);
    first [ reflexivity | vm_compute; lia
          | vm_compute; split; [reflexivity | discriminate] ].
Defined.

Lemma cumulative_running_sums C total (HC : 0 < C) :
  forall n b,
    b <= total -> chunk_count C (total - b) = n ->
    cumulative_from C total b = running_sums b (slices C (total - b)).
Proof.
  induction n as [|n IH]; intros b Hb Hn.
  - apply chunk_count_zero in Hn; [|assumption].
    rewrite cumulative_from_done by lia.
    replace (total - b) with 0 by lia.
    rewrite slices_done by assumption. reflexivity.
  - assert (Hlt : b < total).
    { destruct (Z.lt_ge_cases b total); [assumption|].
      rewrite chunk_count_done in Hn by lia. discriminate. }
    rewrite (@cumulative_from_step C total b) by lia.
    rewrite (@slices_step C (total - b)) by lia.
    rewrite (@chunk_count_step C (total - b)) in Hn by lia.
    injection Hn as Hn. cbn [running_sums]. f_equal.
    rewrite (IH (b + Z.min C (total - b))); [|lia|].
    + f_equal. f_equal. lia.
    + rewrite <- Hn. f_equal. lia.
Qed.

(** X3: on the Durable Object a download run on an open connection sends
    [max(0, total)] payload bytes, every chunk frame reports in
    [bytesTransferred] exactly the bytes sent so far, and the final
    [download_complete] reports the sum of the chunks. *)
Theorem do_download_totals h size chunkSize (w : World DurableObject.Task)
    fuel :
  alive w = true -> queue w = [] ->
  0 < chunk_size chunkSize <= max_alloc h ->
  (chunk_count (chunk_size chunkSize) (safe_size size) <= fuel)%nat ->
  exists fs,
    Finished w (DurableObject.download h fuel size chunkSize w) fs
    /\ started_totals fs = [safe_size size]
    /\ payload_bytes fs = Z.max 0 (safe_size size)
    /\ map fst (progress_marks fs) = running_sums 0 (chunk_lengths fs)
    /\ complete_totals fs = [payload_bytes fs].
Proof.
  intros Ha Hq HC Hfuel.
  destruct (@do_download h size chunkSize w fuel Ha Hq HC Hfuel)
    as [fs (Hfin & [S0 S1 S2 S3 S4])].
  assert (Hp : payload_bytes fs = Z.max 0 (safe_size size)).
  { unfold payload_bytes. rewrite S1. apply sum_slices; lia. }
  exists fs. split; [exact Hfin|]. split; [exact S0|]. split; [exact Hp|].
  split; [|rewrite Hp; exact S3].
  rewrite S2, S1. unfold marks_all. rewrite map_map. cbn [fst].
  rewrite map_id.
  destruct (Z.le_gt_cases 0 (safe_size size)) as [Hpos | Hneg].
  - rewrite Z.max_r by lia.
    rewrite (@cumulative_running_sums (chunk_size chunkSize)
               (safe_size size) ltac:(lia) _ 0 Hpos eq_refl).
    rewrite Z.sub_0_r. reflexivity.
  - rewrite Z.max_l by lia. rewrite cumulative_from_done by lia.
    rewrite slices_done by lia. reflexivity.
Qed.

Lemma do_download_totals_witness :
  exists fs,
    Finished (fresh DurableObject.Task None)
             (DurableObject.download host0 3 (Some 5) (Some 2)
                (fresh DurableObject.Task None)) fs
    /\ started_totals fs = [5]
    /\ payload_bytes fs = 5
    /\ map fst (progress_marks fs) = running_sums 0 (chunk_lengths fs)
    /\ complete_totals fs = [payload_bytes fs].
Proof.
  apply (@do_download_totals host0 (Some 5) (Some 2)
           (fresh DurableObject.Task None) 3);
    first [ reflexivity | vm_compute; lia
          | vm_compute; split; [reflexivity | discriminate] ].
Defined.

(* ------------------------------------------------------------------ *)
(** ** [GET /api/download]: a whole response *)

Lemma http_sendChunk_done h total C bs sent (w : World Http.Task) :
  alive w = true -> total <= bs ->
  Http.sendChunk h total C bs sent w = (Ok tt, http_after_end total sent w).
Proof.
  destruct w as [s q o d u r wr al rg]. cbn [alive]. intros -> Hle.
  unfold Http.sendChunk, http_after_end, head.
  assert (E : (bs >=? total) = true) by lia. rewrite E.
  destruct sent; cbn; rewrite <- ?app_assoc; reflexivity.
Qed.

Lemma http_sendChunk_step h total C bs sent (w : World Http.Task) :
  bs < total -> 0 <= Z.min C (total - bs) <= max_alloc h ->
  Http.sendChunk h total C bs sent w =
  (Ok tt, http_after_chunk h total C bs sent w).
Proof.
  intros Hlt Hc. destruct w as [s q o d u r wr al rg].
  unfold Http.sendChunk, Http.flush_head, http_after_chunk, head, bind,
    alloc, write_body, schedule.
  assert (E : (bs >=? total) = false) by lia. rewrite E.
  assert (Ea : ((Z.min C (total - bs) <? 0)
                || (max_alloc h <? Z.min C (total - bs))) = false).
  { apply orb_false_iff. split; lia. }
  rewrite Ea. destruct sent; cbn; rewrite <- ?app_assoc; reflexivity.
Qed.

Lemma http_loop h total C (HC : 0 < C <= max_alloc h) :
  forall n bs sent (w : World Http.Task),
    alive w = true -> queue w = [] ->
    chunk_count C (total - bs) = n ->
    exists fs,
      Finished w (Http.drain h n
                    (invoke (Http.sendChunk h total C bs sent) w))
               (head total sent ++ fs)
      /\ chunk_lengths fs = slices C (Z.max 0 (total - bs))
      /\ started_totals fs = []
      /\ ends fs = [EndOfBody]
      /\ last fs EndOfBody = EndOfBody
      /\ (writes (Http.drain h n
                    (invoke (Http.sendChunk h total C bs sent) w))
          = writes w + n)%nat.
Proof.
  induction n as [|n IH]; intros bs sent w Ha Hq Hn.
  - apply chunk_count_zero in Hn; [|lia].
    rewrite (@invoke_ok _ _ _ _ (@http_sendChunk_done h total C bs sent w Ha
                                   ltac:(lia))).
    cbn [Http.drain drain].
    exists [EndOfBody].
    split; [split; [exact Hq | reflexivity | reflexivity]|].
    rewrite Z.max_l by lia. rewrite slices_done by lia.
    cbn. repeat split. lia.
  - assert (Hlt : bs < total).
    { destruct (Z.lt_ge_cases bs total); [assumption|].
      rewrite chunk_count_done in Hn by lia. discriminate. }
    rewrite (@invoke_ok _ _ _ _ (@http_sendChunk_step h total C bs sent w
                                   Hlt ltac:(lia))).
    set (c := Z.min C (total - bs)).
    set (w1 := http_after_chunk h total C bs sent w).
    assert (Hq1 : queue w1 = [Http.SendChunk total C (bs + c) true]).
    { unfold w1, http_after_chunk. cbn. rewrite Hq. reflexivity. }
    unfold Http.drain. erewrite drain_head by exact Hq1.
    cbn [Http.run_task].
    destruct (IH (bs + c) true (with_queue w1 [])) as
        [fs ([Hq' Ha' Ho'] & S1 & S0 & S2 & S3 & S4)].
    + exact Ha.
    + reflexivity.
    + rewrite (@chunk_count_step C (total - bs)) in Hn by lia.
      injection Hn as Hn. rewrite <- Hn. f_equal. unfold c. lia.
    + fold (Http.drain h n) in *.
      exists (Body c :: fs).
      split; [split; [exact Hq' | exact Ha' |]|].
      * rewrite Ho'. unfold w1, with_queue, http_after_chunk.
        cbn [outbox head app]. rewrite <- !app_assoc. reflexivity.
      * rewrite Z.max_r in S1 by lia.
        split; [|split; [|split; [|split]]].
        -- rewrite Z.max_r by lia.
           rewrite (@slices_step C (total - bs)) by lia. fold c.
           split_frames. rewrite S1. f_equal. f_equal. lia.
        -- split_frames. exact S0.
        -- cbn. exact S2.
        -- destruct fs as [|f fs']; [discriminate S2|]. exact S3.
        -- rewrite S4. unfold w1, with_queue, http_after_chunk. cbn. lia.
Qed.

Lemma http_start h size chunkSize (w : World Http.Task) :
  Http.step h (Deliver (Http.GetDownload size chunkSize)) w =
  invoke (Http.sendChunk h (safe_size size) (chunk_size chunkSize) 0 false)
         w.
Proof. reflexivity. Qed.

(** X4: [GET /api/download] with a positive chunk size that can be
    allocated answers with a [Content-Length] of [safeSize], then streams
    the chunks and ends the body: the bytes written are
    [max(0, safeSize)], in one [res.write] per chunk. *)
Theorem http_download_content_length h size chunkSize (w : World Http.Task)
    fuel :
  alive w = true -> queue w = [] ->
  0 < chunk_size chunkSize <= max_alloc h ->
  (chunk_count (chunk_size chunkSize) (safe_size size) <= fuel)%nat ->
  let w' := Http.download h fuel size chunkSize w in
  exists fs,
    Finished w w' fs
    /\ started_totals fs = [safe_size size]
    /\ chunk_lengths fs =
       slices (chunk_size chunkSize) (Z.max 0 (safe_size size))
    /\ payload_bytes fs = Z.max 0 (safe_size size)
    /\ ends fs = [EndOfBody]
    /\ last fs EndOfBody = EndOfBody
    /\ (writes w' =
        writes w + chunk_count (chunk_size chunkSize) (safe_size size))%nat.
Proof.
  intros Ha Hq HC Hfuel w'. unfold w', Http.download.
  rewrite http_start.
  set (n := chunk_count (chunk_size chunkSize) (safe_size size)) in *.
  destruct (@http_loop h (safe_size size) (chunk_size chunkSize) HC n 0
              false w)
    as [fs ([Hq' Ha' Ho'] & S1 & S0 & S2 & S3 & S4)].
  - exact Ha.
  - exact Hq.
  - unfold n. f_equal. lia.
  - unfold Http.drain in *.
    rewrite (@drain_enough _ _ _ _ _ n fuel) by assumption.
    rewrite Z.sub_0_r in S1.
    exists (Header (safe_size size) :: fs).
    split; [split; [exact Hq' | exact Ha' | exact Ho']|].
    split; [split_frames; rewrite S0; reflexivity|].
      split; [split_frames; exact S1|].
      split; [unfold payload_bytes; split_frames; rewrite S1;
              apply sum_slices; lia|].
      split; [cbn; exact S2|].
      split; [destruct fs as [|f fs']; [discriminate S2 | exact S3]|].
      exact S4.
Qed.

Lemma http_download_content_length_witness :
  let w' := Http.download host0 3 (Some 5) (Some 2)
              (fresh Http.Task None) in
  exists fs,
    Finished (fresh Http.Task None) w' fs
    /\ started_totals fs = [5]
    /\ chunk_lengths fs = [2; 2; 1]
    /\ payload_bytes fs = 5
    /\ ends fs = [EndOfBody]
    /\ last fs EndOfBody = EndOfBody
    /\ writes w' = 3%nat.
Proof.
  apply (@http_download_content_length host0 (Some 5) (Some 2)
           (fresh Http.Task None) 3);
    first [ reflexivity | vm_compute; lia
          | vm_compute; split; [reflexivity | discriminate] ].
Defined.

(* ------------------------------------------------------------------ *)
(** ** Frames that cannot be processed *)

(** X5: on an open connection a frame that is not JSON is answered by
    exactly one error frame, in each socket binding, and starts nothing:
    the phase, the byte counter and the pending callbacks are unchanged
    ([onRequestGET] has recorded the activity time before parsing, the
    Durable Object has not).  A frame that parses to a value other than
    [null] and names no known type is answered by an error frame on the
    Node server and by nothing in the two others.  The frame [null], whose
    type cannot be read, is answered like a frame that is not JSON on the
    Node server and on the Durable Object, which has recorded the activity
    time by then, and by nothing on [onRequestGET]. *)
Theorem malformed_frame_is_rejected h (wn : World NodeWs.Task)
    (wd : World DurableObject.Task) (wp : World Pages.Task) :
  alive wn = true -> alive wd = true -> alive wp = true ->
  NodeWs.step h (Deliver NodeWs.Malformed) wn =
  mkWorld (session wn) (queue wn)
          (outbox wn ++ [ErrorFrame "Invalid message format"%string None])
          (dropped wn) (uncaught wn) (reads wn) (writes wn) true
          (registered wn)
  /\ DurableObject.step h (Deliver DurableObject.Malformed) wd =
     mkWorld (session wd) (queue wd)
             (outbox wd ++ [ErrorFrame "Failed to process message"%string
                                       (Some (clock h (reads wd)))])
             (dropped wd) (uncaught wd) (S (reads wd)) (writes wd) true
             (registered wd)
  /\ Pages.step h (Deliver Pages.Malformed) wp =
     mkWorld (touched (session wp) (clock h (reads wp))) (queue wp)
             (outbox wp ++ [ErrorFrame "Invalid message"%string
                                       (Some (clock h (S (reads wp))))])
             (dropped wp) (uncaught wp) (S (S (reads wp))) (writes wp) true
             (registered wp)
  /\ NodeWs.step h (Deliver NodeWs.Unknown) wn =
     mkWorld (session wn) (queue wn)
             (outbox wn ++ [ErrorFrame "Unknown message type"%string None])
             (dropped wn) (uncaught wn) (reads wn) (writes wn) true
             (registered wn)
  /\ DurableObject.step h (Deliver DurableObject.Unknown) wd =
     mkWorld (touched (session wd) (clock h (reads wd))) (queue wd)
             (outbox wd) (dropped wd) (uncaught wd) (S (reads wd))
             (writes wd) true (registered wd)
  /\ Pages.step h (Deliver Pages.Unknown) wp =
     mkWorld (touched (session wp) (clock h (reads wp))) (queue wp)
             (outbox wp) (dropped wp) (uncaught wp) (S (reads wp))
             (writes wp) true (registered wp)
  /\ NodeWs.step h (Deliver NodeWs.Null) wn =
     mkWorld (session wn) (queue wn)
             (outbox wn ++ [ErrorFrame "Invalid message format"%string None])
             (dropped wn) (uncaught wn) (reads wn) (writes wn) true
             (registered wn)
  /\ DurableObject.step h (Deliver DurableObject.Null) wd =
     mkWorld (touched (session wd) (clock h (reads wd))) (queue wd)
             (outbox wd ++ [ErrorFrame "Failed to process message"%string
                                       (Some (clock h (S (reads wd))))])
             (dropped wd) (uncaught wd) (S (S (reads wd))) (writes wd) true
             (registered wd)
  /\ Pages.step h (Deliver Pages.Null) wp =
     mkWorld (touched (session wp) (clock h (reads wp))) (queue wp)
             (outbox wp) (dropped wp) (uncaught wp) (S (reads wp))
             (writes wp) true (registered wp).
Proof.
  destruct wn as [sn qn on dn un rn wrn aln rgn].
  destruct wd as [sd qd od dd ud rd wrd ald rgd].
  destruct wp as [sp qp op dp up rp wrp alp rgp].
  cbn [alive]. intros -> -> ->. repeat split.
Qed.

Lemma malformed_frame_is_rejected_witness :
  NodeWs.step host0 (Deliver NodeWs.Malformed) (fresh NodeWs.Task None) =
  mkWorld (mkSession None 0 None None) []
          [ErrorFrame "Invalid message format"%string None] [] 0 0 0 true
          true.
Proof.
  exact (proj1 (@malformed_frame_is_rejected host0 (fresh NodeWs.Task None)
                  (fresh DurableObject.Task None)
                  (fresh Pages.Task (Some 0)) eq_refl eq_refl eq_refl)).
Defined.

(* ------------------------------------------------------------------ *)
(** ** A negative chunk size *)

(** X6: a download request with a negative chunk size is aborted by the
    allocation of the chunk buffer before any chunk is written and before
    anything is scheduled.  [onRequestGET] has sent the started event
    already and follows it with an error frame; the Node server answers
    with the error frame alone; both have switched the session to the
    download phase, whatever the size.  The Durable Object and the HTTP
    route allocate chunk by chunk, so they abort when the total is
    positive: the Durable Object like [onRequestGET]; the HTTP route has
    only stored its headers, so nothing of the response has been written
    when the exception escapes the route. *)
Theorem negative_chunk_size_aborts h size chunkSize
    (wp : World Pages.Task) (wd : World DurableObject.Task)
    (wn : World NodeWs.Task) (wh : World Http.Task) :
  chunk_size chunkSize < 0 ->
  alive wp = true -> alive wd = true -> alive wn = true ->
  (let w' := Pages.step h (Deliver (Pages.DownloadStart size chunkSize)) wp
   in outbox w' =
      outbox wp ++ [DownloadStarted (clock h (S (S (reads wp))))
                                    (safe_size size);
                    ErrorFrame "Invalid message"%string
                               (Some (clock h (S (S (S (reads wp))))))]
      /\ queue w' = queue wp
      /\ testPhase (session w') = Some Download
      /\ bytesTransferred (session w') = 0)
  /\ (let w' := NodeWs.step h
                  (Deliver (NodeWs.DownloadTest size chunkSize)) wn
      in outbox w' =
         outbox wn ++ [ErrorFrame "Invalid message format"%string None]
         /\ queue w' = queue wn
         /\ testPhase (session w') = Some Download
         /\ bytesTransferred (session w') = 0)
  /\ (0 < safe_size size ->
      let w' := DurableObject.step h
                  (Deliver (DurableObject.DownloadStart size chunkSize)) wd
      in outbox w' =
         outbox wd ++ [DownloadStarted (clock h (S (S (reads wd))))
                                       (safe_size size);
                       ErrorFrame "Failed to process message"%string
                                  (Some (clock h (S (S (S (reads wd))))))]
         /\ queue w' = queue wd
         /\ testPhase (session w') = Some Download
         /\ bytesTransferred (session w') = 0)
  /\ (0 < safe_size size ->
      let w' := Http.step h (Deliver (Http.GetDownload size chunkSize)) wh
      in outbox w' = outbox wh
         /\ queue w' = queue wh
         /\ uncaught w' = S (uncaught wh)
         /\ writes w' = writes wh).
Proof.
  intros HC Hap Had Han.
  destruct wp as [sp qp op dp up rp wrp alp rgp].
  destruct wd as [sd qd od dd ud rd wrd ald rgd].
  destruct wn as [sn qn on dn un rn wrn aln rgn].
  destruct wh as [sh qh oh dh uh rh wrh alh rgh].
  cbn [alive] in *. subst.
  assert (E1 : ((chunk_size chunkSize <? 0)
                || (max_alloc h <? chunk_size chunkSize)) = true).
  { apply orb_true_iff. left. lia. }
  split; [|split; [|split]].
  - cbv zeta. run_handler.
    fold (safe_size size); fold (chunk_size chunkSize).
    rewrite E1. run_handler. rewrite <- ?app_assoc. repeat split.
  - cbv zeta. run_handler.
    fold (safe_size size); fold (chunk_size chunkSize).
    rewrite E1. run_handler. repeat split.
  - intros Hs.
    assert (E0 : (0 >=? safe_size size) = false) by lia.
    assert (E2 : ((Z.min (chunk_size chunkSize) (safe_size size - 0) <? 0)
                  || (max_alloc h
                      <? Z.min (chunk_size chunkSize) (safe_size size - 0)))
                 = true).
    { apply orb_true_iff. left. lia. }
    cbv zeta. run_handler.
    fold (safe_size size); fold (chunk_size chunkSize).
    rewrite E0. run_handler. rewrite E2. run_handler.
    rewrite <- ?app_assoc. repeat split.
  - intros Hs.
    assert (E0 : (0 >=? safe_size size) = false) by lia.
    assert (E2 : ((Z.min (chunk_size chunkSize) (safe_size size - 0) <? 0)
                  || (max_alloc h
                      <? Z.min (chunk_size chunkSize) (safe_size size - 0)))
                 = true).
    { apply orb_true_iff. left. lia. }
    cbv zeta. run_handler.
    fold (safe_size size); fold (chunk_size chunkSize).
    rewrite E0. run_handler. rewrite E2. run_handler. repeat split.
Qed.

Lemma negative_chunk_size_aborts_witness :
  let w' := Http.step host0
              (Deliver (Http.GetDownload (Some 10) (Some (-1))))
              (fresh Http.Task None) in
  outbox w' = outbox (fresh Http.Task None)
  /\ queue w' = queue (fresh Http.Task None)
  /\ uncaught w' = S (uncaught (fresh Http.Task None))
  /\ writes w' = writes (fresh Http.Task None).
Proof.
  refine (proj2 (proj2 (proj2
            (@negative_chunk_size_aborts host0 (Some 10) (Some (-1))
               (fresh Pages.Task (Some 0)) (fresh DurableObject.Task None)
               (fresh NodeWs.Task None) (fresh Http.Task None)
               _ _ _ _))) _);
    first [ reflexivity | vm_compute; lia ].
Defined.

(* ------------------------------------------------------------------ *)
(** ** Counting an upload *)

Lemma pages_upload_data h v (w : World Pages.Task) :
  alive w = true ->
  let w' := Pages.step h (Deliver (Pages.UploadData v)) w in
  exists fs,
    outbox w' = outbox w ++ fs
    /\ alive w' = true
    /\ queue w' = queue w
    /\ testPhase (session w') = testPhase (session w)
    /\ bytesTransferred (session w') =
       bytesTransferred (session w) + sum (byte_lengths [v])
    /\ ack_received fs = byte_lengths [v]
    /\ ack_totals fs =
       running_sums (bytesTransferred (session w)) (byte_lengths [v]).
Proof.
  destruct w as [[ph bt st la] q o d u r wr al rg]. cbn [alive]. intros ->.
  destruct v; run_handler; eexists;
    (split; [first [reflexivity | symmetry; apply app_nil_r]|]);
    cbn; repeat split; try lia.
Qed.

Lemma sum_app l1 l2 : sum (l1 ++ l2) = sum l1 + sum l2.
Proof.
  unfold sum. induction l1 as [|x l1 IH]; cbn; [reflexivity|].
  rewrite IH. lia.
Qed.

Lemma running_sums_app b l1 l2 :
  running_sums b (l1 ++ l2) =
  running_sums b l1 ++ running_sums (b + sum l1) l2.
Proof.
  revert b. induction l1 as [|x l1 IH]; intros b; cbn.
  - f_equal. unfold sum. cbn. lia.
  - f_equal. rewrite IH. f_equal. f_equal. unfold sum. cbn. lia.
Qed.

Lemma pages_run_cons h i ins (w : World Pages.Task) :
  Pages.run h (i :: ins) w = Pages.run h ins (Pages.step h i w).
Proof. reflexivity. Qed.

Lemma byte_lengths_cons v vs :
  byte_lengths (v :: vs) = byte_lengths [v] ++ byte_lengths vs.
Proof. unfold byte_lengths. cbn. rewrite app_nil_r. reflexivity. Qed.

Lemma pages_upload_series h vs :
  forall (w : World Pages.Task),
    alive w = true ->
    let w' := Pages.run h (map (fun v => Deliver (Pages.UploadData v)) vs) w
    in
    exists fs,
      outbox w' = outbox w ++ fs
      /\ alive w' = true
      /\ queue w' = queue w
      /\ testPhase (session w') = testPhase (session w)
      /\ bytesTransferred (session w') =
         bytesTransferred (session w) + sum (byte_lengths vs)
      /\ ack_received fs = byte_lengths vs
      /\ ack_totals fs =
         running_sums (bytesTransferred (session w)) (byte_lengths vs).
Proof.
  induction vs as [|v vs IH]; intros w Ha.
  - exists []. cbn. rewrite app_nil_r. repeat split; [exact Ha | lia].
  - cbn [map]. rewrite pages_run_cons.
    destruct (@pages_upload_data h v w Ha)
      as [f1 (Ho1 & Ha1 & Hq1 & Hp1 & Hb1 & Hr1 & Ht1)].
    set (w1 := Pages.step h (Deliver (Pages.UploadData v)) w) in *.
    destruct (IH w1 Ha1) as [f2 (Ho2 & Ha2 & Hq2 & Hp2 & Hb2 & Hr2 & Ht2)].
    exists (f1 ++ f2).
    rewrite (byte_lengths_cons v vs).
    split; [rewrite Ho2, Ho1, app_assoc; reflexivity|].
    split; [exact Ha2|].
    split; [rewrite Hq2; exact Hq1|].
    split; [rewrite Hp2; exact Hp1|].
    split; [rewrite Hb2, Hb1, sum_app; lia|].
    split.
    + unfold ack_received in *. rewrite flat_map_app, Hr1, Hr2.
      reflexivity.
    + unfold ack_totals in *. rewrite flat_map_app, Ht1, Ht2.
      rewrite running_sums_app, Hb1. reflexivity.
Qed.

(** X7: on [onRequestGET], after [upload_start] a series of [upload_data]
    frames is acknowledged once per frame that carries a numeric
    [byteLength]: each acknowledgement echoes that length and reports the
    running total, and [bytesTransferred] ends as the sum of the numeric
    lengths; the session stays in the upload phase and nothing is
    scheduled. *)
Theorem upload_is_counted h vs (w : World Pages.Task) :
  alive w = true ->
  let w' := Pages.run h (Deliver Pages.UploadStart
                         :: map (fun v => Deliver (Pages.UploadData v)) vs)
                      w in
  exists t fs,
    outbox w' = outbox w ++ UploadReady t :: fs
    /\ queue w' = queue w
    /\ testPhase (session w') = Some Upload
    /\ bytesTransferred (session w') = sum (byte_lengths vs)
    /\ ack_received fs = byte_lengths vs
    /\ ack_totals fs = running_sums 0 (byte_lengths vs).
Proof.
  intros Ha. rewrite pages_run_cons.
  set (w1 := Pages.step h (Deliver Pages.UploadStart) w).
  assert (H1 : alive w1 = true
               /\ outbox w1 =
                  outbox w ++ [UploadReady (clock h (S (S (reads w))))]
               /\ queue w1 = queue w
               /\ testPhase (session w1) = Some Upload
               /\ bytesTransferred (session w1) = 0).
  { unfold w1. destruct w as [[ph bt st la] q o d u r wr al rg].
    cbn in Ha. subst al. run_handler. repeat split. }
  destruct H1 as (Ha1 & Ho1 & Hq1 & Hp1 & Hb1).
  destruct (@pages_upload_series h vs w1 Ha1)
    as [fs (Ho & _ & Hq & Hp & Hb & Hr & Ht)].
  exists (clock h (S (S (reads w)))), fs.
  split; [rewrite Ho, Ho1, <- app_assoc; reflexivity|].
  split; [rewrite Hq; exact Hq1|].
  split; [rewrite Hp; exact Hp1|].
  split; [rewrite Hb, Hb1; lia|].
  split; [exact Hr|]. rewrite Ht, Hb1. reflexivity.
Qed.

Lemma upload_is_counted_witness :
  let w' := Pages.run host0
              [Deliver Pages.UploadStart;
               Deliver (Pages.UploadData (Js.Number 10));
               Deliver (Pages.UploadData Js.Undefined);
               Deliver (Pages.UploadData (Js.Number 5))]
              (fresh Pages.Task (Some 0)) in
  exists t fs,
    outbox w' = outbox (fresh Pages.Task (Some 0)) ++ UploadReady t :: fs
    /\ queue w' = queue (fresh Pages.Task (Some 0))
    /\ testPhase (session w') = Some Upload
    /\ bytesTransferred (session w') = 15
    /\ ack_received fs = [10; 5]
    /\ ack_totals fs = [10; 15].
Proof.
  exact (@upload_is_counted host0
           [Js.Number 10; Js.Undefined; Js.Number 5]
           (fresh Pages.Task (Some 0)) eq_refl).
Defined.

(* ------------------------------------------------------------------ *)
(** ** Uploads on the Node server *)

Lemma inject_Z_nonzero d : d <> 0 -> Qeq_bool (inject_Z d) 0 = false.
Proof.
  intros Hd. destruct (Qeq_bool (inject_Z d) 0) eqn:E; [|reflexivity].
  apply Qeq_bool_iff in E. unfold Qeq, inject_Z in E. cbn in E. lia.
Qed.

(** X10: the Node server answers an [upload] message without touching the
    session or scheduling anything.  Without content the answer is the
    error frame alone; otherwise it is one [upload_complete] frame with the
    length of the content, the time between the two clock readings and the
    throughput [received / duration * 1000], which is [Infinity] when the
    two readings coincide. *)
Theorem node_upload_reply h len (w : World NodeWs.Task) :
  alive w = true ->
  let w' := NodeWs.step h (Deliver (NodeWs.UploadTest len)) w in
  let d := clock h (S (reads w)) - clock h (reads w) in
  session w' = session w
  /\ queue w' = queue w
  /\ match len with
     | None =>
         outbox w' =
         outbox w ++ [ErrorFrame "No content provided"%string None]
     | Some n =>
         exists v,
           outbox w' =
           outbox w ++ [UploadComplete (clock h (S (reads w))) n d v]
           /\ (d = 0 -> 0 < n -> v = Js.PosInf)
           /\ (d <> 0 ->
               exists q,
                 v = Js.Fin q
                 /\ (q == inject_Z n / inject_Z d * inject_Z 1000)%Q)
     end.
Proof.
  destruct w as [s q o dr u r wr al rg]. cbn [alive]. intros ->.
  cbv zeta. destruct len as [n|]; run_handler; [|repeat split].
  split; [reflexivity|]. split; [reflexivity|].
  eexists. split; [reflexivity|]. split.
  - intros Hd Hn. rewrite Hd. unfold Js.div.
    replace (Qeq_bool (inject_Z 0) 0) with true by reflexivity.
    assert (E : Qcompare (inject_Z n) 0 = Gt).
    { unfold Qcompare, inject_Z. cbn. rewrite Z.mul_1_r.
      apply Z.compare_gt_iff. lia. }
    rewrite E. reflexivity.
  - intros Hd. unfold Js.div. rewrite inject_Z_nonzero by assumption.
    eexists. split; [reflexivity|].
    rewrite Qred_correct, Qred_correct. reflexivity.
Qed.

Lemma node_upload_reply_witness :
  let w' := NodeWs.step host_frozen (Deliver (NodeWs.UploadTest (Some 12)))
              (fresh NodeWs.Task None) in
  session w' = session (fresh NodeWs.Task None)
  /\ queue w' = queue (fresh NodeWs.Task None)
  /\ exists v,
       outbox w' =
       outbox (fresh NodeWs.Task None) ++ [UploadComplete 0 12 0 v]
       /\ (0 = 0 -> 0 < 12 -> v = Js.PosInf)
       /\ (0 <> 0 ->
           exists q,
             v = Js.Fin q
             /\ (q == inject_Z 12 / inject_Z 0 * inject_Z 1000)%Q).
Proof.
  exact (@node_upload_reply host_frozen (Some 12) (fresh NodeWs.Task None)
           eq_refl).
Defined.

(* ------------------------------------------------------------------ *)
(** ** A failed chunk write *)

(** X12: on the Node server a chunk write that fails, or that is issued on
    a closed socket, ends the run: its callback returns without counting
    the chunk, without a progress or complete frame and without
    rescheduling, so the session keeps the acknowledged byte count and no
    callback stays pending. *)
Theorem node_failed_write_ends_run h total C bs (w : World NodeWs.Task)
    more :
  queue w = [] -> bs < total ->
  negb (alive w) || write_error h (writes w) = true ->
  let c := Z.min C (total - bs) in
  let w1 := invoke (NodeWs.sendNextChunk h total C bs) w in
  let w' := NodeWs.drain h (S more) w1 in
  queue w1 = [NodeWs.WriteDone total C bs c true]
  /\ queue w' = []
  /\ outbox w' = outbox w
  /\ dropped w' = dropped w ++ [Chunk c]
  /\ session w' = session w
  /\ uncaught w' = uncaught w.
Proof.
  intros Hq Hlt Herr c w1 w'.
  assert (E1 : w1 = node_after_write h total C bs w).
  { unfold w1. apply invoke_ok. apply sendNextChunk_more. exact Hlt. }
  assert (Hq1 : queue w1 = [NodeWs.WriteDone total C bs c true]).
  { rewrite E1. unfold node_after_write. cbn [queue]. rewrite Herr, Hq.
    reflexivity. }
  split; [exact Hq1|].
  assert (E2 : w' = with_queue w1 []).
  { unfold w', NodeWs.drain. erewrite drain_head by exact Hq1.
    cbn [NodeWs.run_task]. unfold NodeWs.write_done.
    apply drain_idle. reflexivity. }
  rewrite E2, E1. unfold with_queue, node_after_write. cbn.
  rewrite Herr. repeat split.
Qed.

Lemma node_failed_write_ends_run_witness :
  let h := mkHost (fun k => Z.of_nat k) 2147483647 true (fun _ => true)
                  (fun _ => true) in
  let w := fresh NodeWs.Task None in
  let w1 := invoke (NodeWs.sendNextChunk h 10 4 0) w in
  let w' := NodeWs.drain h 3 w1 in
  queue w1 = [NodeWs.WriteDone 10 4 0 4 true]
  /\ queue w' = []
  /\ outbox w' = outbox w
  /\ dropped w' = dropped w ++ [Chunk 4]
  /\ session w' = session w
  /\ uncaught w' = uncaught w.
Proof.
  exact (@node_failed_write_ends_run
           (mkHost (fun k => Z.of_nat k) 2147483647 true (fun _ => true)
                   (fun _ => true))
           10 4 0 (fresh NodeWs.Task None) 2 eq_refl eq_refl eq_refl).
Defined.

(* ------------------------------------------------------------------ *)
(** ** The start time of a Durable Object session *)

Lemma take_nth_nonempty {T} k (l : list T) t rest :
  take_nth k l = Some (t, rest) -> l <> [].
Proof. destruct l; [destruct k; discriminate | discriminate]. Qed.

Ltac timed_frames Ho :=
  cbn [start_of testStartTime];
  repeat (apply Forall_app; split);
  first [ exact Ho
        | constructor; [|constructor];
          first [ exact I
                | do 2 eexists; split; [|reflexivity]; lia ] ].

Lemma clocked_step h i (w : World DurableObject.Task) :
  clocked h w -> clocked h (DurableObject.step h i w).
Proof.
  unfold clocked.
  destruct w as [[ph bt st la] q o d u r wr al rg].
  cbn [queue session testStartTime outbox reads]. intros [Hw Ho].
  destruct i as [m|k|].
  - destruct m as [ts|size chunkSize| |data| | | |];
      try (destruct ts as [v|]); run_handler;
      repeat match goal with
             | |- context [if ?b then _ else _] => destruct b; run_handler
             end;
      (split;
       [ first [ intros Hq; destruct (Hw Hq) as [k0 [Hk Ek]];
                 exists k0; split; [lia | exact Ek]
               | intros _; eexists; split; [|reflexivity]; lia ]
       | timed_frames Ho ]).
  - run_handler.
    destruct (take_nth k q) as [[[total C bs] rest]|] eqn:E;
      [|split; assumption].
    destruct (Hw (@take_nth_nonempty _ k q _ _ E)) as [k0 [Hk Est]].
    subst st.
    run_handler;
      repeat match goal with
             | |- context [if ?b then _ else _] => destruct b; run_handler
             end;
      (split;
       [ intros _; exists k0; split; [lia | reflexivity]
       | timed_frames Ho ]).
  - run_handler. split; assumption.
Qed.

Lemma clocked_run h ins :
  forall w, clocked h w -> clocked h (DurableObject.run h ins w).
Proof.
  induction ins as [|i l IH]; intros w Hw; [exact Hw|].
  apply IH. apply clocked_step. exact Hw.
Qed.

Lemma clocked_fresh h : clocked h (fresh DurableObject.Task None).
Proof.
  split; [intros Hq; contradiction Hq; reflexivity | constructor].
Qed.

Lemma timed_durations h l :
  Forall (complete_timed h) l ->
  Forall (fun d => exists j k, (k < j)%nat /\ d = clock h j - clock h k)
         (complete_durations l).
Proof.
  unfold complete_durations.
  induction 1 as [|f l Hf _ IH]; [constructor|].
  destruct f; cbn [flat_map app]; try exact IH.
  constructor; [exact Hf | exact IH].
Qed.

(** X11: in every state a Durable Object connection can reach, a pending
    [sendChunk] implies that [testStartTime] holds a reading of the clock
    made earlier, and the duration reported by every [download_complete]
    frame sent so far is the difference of two clock readings, the later
    minus the earlier: it is never computed from an unset start time, and
    it is not negative when the clock never goes back. *)
Theorem do_start_time_is_set h (ins : list (Input DurableObject.Msg)) :
  let w := DurableObject.run h ins (fresh DurableObject.Task None) in
  (queue w <> [] ->
   exists k, (k < reads w)%nat
             /\ testStartTime (session w) = Some (clock h k))
  /\ Forall (fun d => exists j k, (k < j)%nat /\ d = clock h j - clock h k)
            (complete_durations (outbox w))
  /\ ((forall j k, (k <= j)%nat -> clock h k <= clock h j) ->
      Forall (fun d => 0 <= d) (complete_durations (outbox w))).
Proof.
  cbv zeta.
  destruct (clocked_run h ins _ (clocked_fresh h)) as [Hq Ho].
  apply timed_durations in Ho.
  split; [exact Hq|]. split; [exact Ho|].
  intros Hmono. eapply Forall_impl; [|exact Ho].
  intros d' (j & k & Hjk & ->).
  pose proof (Hmono j k ltac:(lia)). lia.
Qed.

Lemma do_start_time_is_set_witness :
  complete_durations
    (outbox
       (DurableObject.run host0
          [Deliver (DurableObject.DownloadStart (Some 2) (Some 1));
           Fire 0; Fire 0]
          (fresh DurableObject.Task None))) = [5]
  /\ Forall (fun d => exists j k,
                (k < j)%nat /\ d = clock host0 j - clock host0 k)
            (complete_durations
               (outbox
                  (DurableObject.run host0
                     [Deliver (DurableObject.DownloadStart (Some 2) (Some 1));
                      Fire 0; Fire 0]
                     (fresh DurableObject.Task None)))).
Proof.
  split; [reflexivity|].
  exact (proj1 (proj2
           (@do_start_time_is_set host0
              [Deliver (DurableObject.DownloadStart (Some 2) (Some 1));
               Fire 0; Fire 0]))).
Defined.

(* ------------------------------------------------------------------ *)
(** ** Properties of the request counters *)

Lemma record_all_snoc log r s :
  Stats.record_all (log ++ [r]) s =
  Stats.updateRequestStats (fst r) (snd r) (Stats.record_all log s).
Proof. unfold Stats.record_all. rewrite fold_left_app. reflexivity. Qed.

Lemma count_occ_snoc (l : list string) x y :
  Z.of_nat (count_occ string_dec (l ++ [x]) y) =
  Z.of_nat (count_occ string_dec l y) + (if String.eqb x y then 1 else 0).
Proof.
  rewrite count_occ_app. cbn [count_occ].
  destruct (string_dec x y) as [E | E].
  - apply String.eqb_eq in E. rewrite E. lia.
  - apply String.eqb_neq in E. rewrite E. lia.
Qed.

(** X8: whatever requests are counted, [requestCount] is their number,
    each endpoint counter is the number of requests of its endpoint, so
    their sum never exceeds [requestCount]; [requestsPerMinute] never
    exceeds [requestCount] either, and [startTime] and [errors] are left
    alone. *)
Theorem request_counters_count (log : list (string * Z)) (s0 : Stats.ServerStats) :
  let s := Stats.record_all log s0 in
  let n e := Z.of_nat (count_occ string_dec (map fst log) e) in
  Stats.requestCount s = Stats.requestCount s0 + Z.of_nat (List.length log)
  /\ Stats.pingRequests s = Stats.pingRequests s0 + n "ping"%string
  /\ Stats.downloadRequests s =
     Stats.downloadRequests s0 + n "download"%string
  /\ Stats.uploadRequests s = Stats.uploadRequests s0 + n "upload"%string
  /\ n "ping"%string + n "download"%string + n "upload"%string
     <= Z.of_nat (List.length log)
  /\ (List.length (Stats.lastMinuteRequests s)
      <= List.length (Stats.lastMinuteRequests s0) + List.length log)%nat
  /\ Stats.startTime s = Stats.startTime s0
  /\ Stats.errors s = Stats.errors s0.
Proof.
  cbv zeta. induction log as [|[e t] log IH] using rev_ind.
  - cbn. repeat split; lia.
  - rewrite record_all_snoc. cbn [fst snd].
    destruct IH as (H1 & H2 & H3 & H4 & H5 & H6 & H7 & H8).
    rewrite map_app. cbn [map fst].
    rewrite !count_occ_snoc, length_app. cbn [List.length].
    unfold Stats.updateRequestStats. cbn [Stats.requestCount
      Stats.pingRequests Stats.downloadRequests Stats.uploadRequests
      Stats.lastMinuteRequests Stats.startTime Stats.errors].
    split; [lia|].
    split; [destruct (String.eqb e "ping"); lia|].
    split; [destruct (String.eqb e "download"); lia|].
    split; [destruct (String.eqb e "upload"); lia|].
    split.
    { destruct (String.eqb e "ping") eqn:E1;
        destruct (String.eqb e "download") eqn:E2;
        destruct (String.eqb e "upload") eqn:E3; try lia;
        try (apply String.eqb_eq in E1); try (apply String.eqb_eq in E2);
        try (apply String.eqb_eq in E3); subst; discriminate. }
    split; [|split; assumption].
    pose proof (filter_length_le
                  (fun time => time >? t - 60000)
                  (Stats.lastMinuteRequests (Stats.record_all log s0)
                   ++ [t])) as Hf.
    rewrite length_app in Hf. cbn [List.length] in Hf. lia.
Qed.

Lemma sorted_snoc (l : list Z) x :
  StronglySorted Z.le (l ++ [x]) ->
  StronglySorted Z.le l /\ Forall (fun y => y <= x) l.
Proof.
  induction l as [|a l IH]; cbn; intros H; [split; constructor|].
  inversion H as [|? ? Hs Hf]; subst.
  destruct (IH Hs) as [H1 H2].
  apply Forall_app in Hf. destruct Hf as [Hf1 Hf2].
  inversion Hf2; subst.
  split; constructor; assumption.
Qed.

Lemma last_in (l : list Z) d : l <> [] -> In (last l d) l.
Proof.
  induction l as [|a l IH]; [contradiction|]. intros _.
  destruct l as [|b l]; [left; reflexivity|].
  right. apply IH. discriminate.
Qed.

Lemma filter_filter_weaker {A} (f g : A -> bool) l :
  (forall x, In x l -> f x = true -> g x = true) ->
  filter f (filter g l) = filter f l.
Proof.
  intros H. induction l as [|a l IH]; cbn; [reflexivity|].
  assert (IH' : filter f (filter g l) = filter f l).
  { apply IH. intros x Hx. apply H. right. exact Hx. }
  destruct (g a) eqn:Eg; cbn.
  - rewrite IH'. reflexivity.
  - destruct (f a) eqn:Ef; [|exact IH'].
    rewrite (H a (or_introl eq_refl) Ef) in Eg. discriminate.
Qed.

(** X9: as long as the clock never goes back between two requests, the
    window kept by [updateRequestStats] holds exactly the times of the
    requests counted less than 60000 ms before the latest one, in order:
    [requestsPerMinute] is the number of requests of the last minute. *)
Theorem requests_per_minute_is_exact (log : list (string * Z)) t0 :
  StronglySorted Z.le (map snd log) ->
  let s := Stats.record_all log (Stats.initial t0) in
  let latest := last (map snd log) 0 in
  Stats.lastMinuteRequests s =
  filter (fun time => time >? latest - 60000) (map snd log)
  /\ forall now,
       snd (fst (Stats.report now s)) =
       Z.of_nat (List.length
                   (filter (fun time => time >? latest - 60000)
                           (map snd log))).
Proof.
  cbv zeta. intros Hs.
  assert (H : Stats.lastMinuteRequests
                (Stats.record_all log (Stats.initial t0)) =
              filter (fun time => time >? last (map snd log) 0 - 60000)
                     (map snd log)).
  { induction log as [|[e t] log IH] using rev_ind; [reflexivity|].
    rewrite record_all_snoc. cbn [fst snd].
    rewrite map_app in *. cbn [map snd] in *.
    apply sorted_snoc in Hs. destruct Hs as [Hs Hle].
    rewrite last_last.
    unfold Stats.updateRequestStats. cbn [Stats.lastMinuteRequests].
    rewrite (IH Hs). rewrite !filter_app.
    f_equal. apply filter_filter_weaker.
    intros x Hx Hf.
    assert (Hl : last (map snd log) 0 <= t).
    { rewrite Forall_forall in Hle. apply Hle. apply last_in.
      intros El. rewrite El in Hx. contradiction Hx. }
    lia. }
  split; [exact H|].
  intros now. unfold Stats.report. cbn [fst snd]. rewrite H. reflexivity.
Qed.

Lemma requests_per_minute_is_exact_witness :
  let log := [("ping"%string, 1000); ("download"%string, 30000);
              ("ping"%string, 70000)] in
  let s := Stats.record_all log (Stats.initial 0) in
  Stats.lastMinuteRequests s = [30000; 70000]
  /\ forall now, snd (fst (Stats.report now s)) = 2.
Proof.
  refine (@requests_per_minute_is_exact
            [("ping"%string, 1000); ("download"%string, 30000);
             ("ping"%string, 70000)] 0 _).
  repeat constructor; discriminate.
Defined.

(** X13: [POST /api/upload] counts the request before it looks at the
    body: a request without content is answered with the 400 error and is
    still counted in [requestCount] and [uploadRequests].  A request with
    content is answered with its length, the time between the two later
    clock readings and the throughput [received / duration * 1000], which
    is [Infinity] when the two readings coincide. *)
Theorem upload_route_counts_first content t0 t1 t2 (s : Stats.ServerStats) :
  let r := Stats.post_upload content t0 t1 t2 s in
  Stats.requestCount (snd r) = Stats.requestCount s + 1
  /\ Stats.uploadRequests (snd r) = Stats.uploadRequests s + 1
  /\ Stats.pingRequests (snd r) = Stats.pingRequests s
  /\ Stats.downloadRequests (snd r) = Stats.downloadRequests s
  /\ In t0 (Stats.lastMinuteRequests (snd r))
  /\ match content with
     | None => fst r = Stats.BadRequest "No content provided"%string
     | Some n =>
         exists v,
           fst r = Stats.Received n (t2 - t1) v
           /\ (t2 = t1 -> 0 < n -> v = Js.PosInf)
           /\ (t2 <> t1 ->
               exists q,
                 v = Js.Fin q
                 /\ (q == inject_Z n / inject_Z (t2 - t1) * inject_Z 1000)%Q)
     end.
Proof.
  cbv zeta.
  assert (Hs : snd (Stats.post_upload content t0 t1 t2 s) =
               Stats.updateRequestStats "upload" t0 s)
    by (destruct content; reflexivity).
  rewrite Hs.
  split; [reflexivity|]. split; [reflexivity|]. split; [reflexivity|].
  split; [reflexivity|]. split.
  { unfold Stats.updateRequestStats. cbn [Stats.lastMinuteRequests].
    apply filter_In. split; [apply in_or_app; right; left; reflexivity|].
    lia. }
  destruct content as [n|]; [|reflexivity].
  unfold Stats.post_upload. cbn [fst].
  eexists. split; [reflexivity|]. split.
  - intros -> Hn. rewrite Z.sub_diag. unfold Js.div.
    replace (Qeq_bool (inject_Z 0) 0) with true by reflexivity.
    assert (E : Qcompare (inject_Z n) 0 = Gt).
    { unfold Qcompare, inject_Z. cbn. rewrite Z.mul_1_r.
      apply Z.compare_gt_iff. lia. }
    rewrite E. reflexivity.
  - intros Hd. unfold Js.div. rewrite inject_Z_nonzero by lia.
    eexists. split; [reflexivity|].
    rewrite Qred_correct, Qred_correct. reflexivity.
Qed.

Lemma upload_route_counts_first_witness :
  let r := Stats.post_upload None 5 5 5 (Stats.initial 0) in
  Stats.requestCount (snd r) = 1
  /\ Stats.uploadRequests (snd r) = 1
  /\ Stats.pingRequests (snd r) = 0
  /\ Stats.downloadRequests (snd r) = 0
  /\ In 5 (Stats.lastMinuteRequests (snd r))
  /\ fst r = Stats.BadRequest "No content provided"%string.
Proof.
  exact (@upload_route_counts_first None 5 5 5 (Stats.initial 0)).
Defined.

(* ------------------------------------------------------------------ *)
(** ** Strings *)

Lemma startsWith_app (p t w : string) :
  Text.startsWith p t = true -> Text.startsWith p (append t w) = true.
Proof.
  revert t; induction p as [|a p IH]; intros t H; [reflexivity|].
  destruct t as [|b t]; [discriminate|].
  cbn in *. apply andb_true_iff in H. destruct H as [H1 H2].
  rewrite H1. cbn. auto.
Qed.

Lemma includes_app (p t w : string) :
  Text.includes p t = true -> Text.includes p (append t w) = true.
Proof.
  induction t as [|b t IH]; intros H.
  - cbn [Text.includes] in H. rewrite orb_false_r in H.
    destruct p; [|discriminate].
    destruct w; reflexivity.
  - cbn [Text.includes] in H. apply orb_true_iff in H.
    change (append (String b t) w) with (String b (append t w)).
    cbn [Text.includes]. apply orb_true_iff.
    destruct H as [H|H].
    + left. exact (startsWith_app p (String b t) w H).
    + right; auto.
Qed.

Lemma includes_tail (p : string) (c : ascii) (s : string) :
  Text.includes p s = true -> Text.includes p (String c s) = true.
Proof.
  intros H. cbn [Text.includes]. rewrite H. apply orb_true_r.
Qed.

Lemma includes_trim_start (p s : string) :
  Text.includes p (Text.trim_start s) = true -> Text.includes p s = true.
Proof.
  induction s as [|c s IH]; [auto|].
  cbn [Text.trim_start]. destruct (Text.is_space c); [|auto].
  intros H. apply includes_tail; auto.
Qed.

Lemma trim_end_is_prefix (s : string) :
  exists w, s = append (Text.trim_end s) w.
Proof.
  induction s as [|c s [w IH]].
  - exists EmptyString; reflexivity.
  - cbn [Text.trim_end]. destruct (Text.trim_end s) as [|d t] eqn:E.
    + destruct (Text.is_space c).
      * exists (String c s); reflexivity.
      * exists w. cbn. rewrite IH at 1. reflexivity.
    + exists w. cbn. rewrite IH at 1. reflexivity.
Qed.

Lemma includes_trim (p s : string) :
  Text.includes p (Text.trim s) = true -> Text.includes p s = true.
Proof.
  unfold Text.trim. intros H.
  apply includes_trim_start.
  destruct (trim_end_is_prefix (Text.trim_start s)) as [w Hw].
  rewrite Hw. apply includes_app; exact H.
Qed.

Lemma has_char_app (c : ascii) (t w : string) :
  Text.has_char c (append t w)
  = (Text.has_char c t || Text.has_char c w)%bool.
Proof.
  induction t as [|b t IH]; [reflexivity|].
  cbn. rewrite IH. apply orb_assoc.
Qed.

Lemma has_char_trim_start (c : ascii) (s : string) :
  Text.has_char c s = false -> Text.has_char c (Text.trim_start s) = false.
Proof.
  induction s as [|b s IH]; [auto|].
  cbn [Text.trim_start]. destruct (Text.is_space b); [|auto].
  cbn [Text.has_char]. intros H. apply orb_false_iff in H. apply IH, H.
Qed.

Lemma has_char_trim (c : ascii) (s : string) :
  Text.has_char c s = false -> Text.has_char c (Text.trim s) = false.
Proof.
  intros H. apply has_char_trim_start in H.
  unfold Text.trim.
  destruct (trim_end_is_prefix (Text.trim_start s)) as [w Hw].
  rewrite Hw, has_char_app in H. apply orb_false_iff in H. apply H.
Qed.

Lemma split_nonempty (sep : ascii) (s : string) : Text.split sep s <> [].
Proof.
  destruct s as [|c s]; cbn; [discriminate|].
  destruct (Ascii.eqb c sep); [discriminate|].
  destruct (Text.split sep s); discriminate.
Qed.

Lemma split_pieces (sep : ascii) (s : string) :
  Forall (fun piece => Text.has_char sep piece = false) (Text.split sep s).
Proof.
  induction s as [|c s IH]; cbn [Text.split].
  - constructor; [reflexivity | constructor].
  - destruct (Ascii.eqb c sep) eqn:E.
    + constructor; [reflexivity | exact IH].
    + destruct (Text.split sep s) as [|piece rest].
      * constructor; [cbn; rewrite E; reflexivity | constructor].
      * inversion IH; subst. constructor; [|assumption].
        cbn. rewrite E. assumption.
Qed.

Lemma trim_end_idem (s : string) :
  Text.trim_end (Text.trim_end s) = Text.trim_end s.
Proof.
  induction s as [|c s IH]; [reflexivity|].
  cbn [Text.trim_end].
  destruct (Text.trim_end s) as [|d t] eqn:E.
  - destruct (Text.is_space c) eqn:Hc; [reflexivity|].
    cbn. rewrite Hc. reflexivity.
  - cbn [Text.trim_end] in *. rewrite IH. reflexivity.
Qed.

Lemma trim_end_head (c : ascii) (s : string) :
  Text.is_space c = false ->
  exists t, Text.trim_end (String c s) = String c t.
Proof.
  intros Hc. cbn [Text.trim_end].
  destruct (Text.trim_end s); [rewrite Hc|]; eauto.
Qed.

Lemma trim_start_head (s : string) :
  Text.trim_start s = EmptyString
  \/ exists c t, Text.trim_start s = String c t /\ Text.is_space c = false.
Proof.
  induction s as [|c s IH]; [left; reflexivity|].
  cbn [Text.trim_start]. destruct (Text.is_space c) eqn:Hc; [exact IH|].
  right; eauto.
Qed.

Lemma trim_idem (s : string) : Text.trim (Text.trim s) = Text.trim s.
Proof.
  unfold Text.trim.
  destruct (trim_start_head s) as [E | (c & t & E & Hc)]; rewrite E.
  - reflexivity.
  - destruct (trim_end_head c t Hc) as [u Hu].
    rewrite Hu. cbn [Text.trim_start]. rewrite Hc.
    rewrite <- Hu. apply trim_end_idem.
Qed.

Lemma includes_none_replace (p r s : string) :
  Text.includes p s = false -> Text.replace p r s = s.
Proof.
  induction s as [|c s IH]; cbn [Text.includes Text.replace]; intros H;
    apply orb_false_iff in H; destruct H as [H1 H2]; rewrite H1.
  - reflexivity.
  - rewrite IH by exact H2. reflexivity.
Qed.

(* ------------------------------------------------------------------ *)
(** ** The loader of the [.env] file *)

Lemma load_line_ok (acc : EnvFile.Loaded) (line : string) :
  loaded_ok acc -> loaded_ok (EnvFile.load_line acc line).
Proof.
  intros [Hexp Hincl]. unfold EnvFile.load_line.
  pose proof (split_pieces "=" line) as Hp.
  destruct (Text.split "=" line) as [|key [|value rest]];
    try (split; assumption).
  destruct (Text.truthy key && Text.truthy value)%bool;
    [|split; assumption].
  inversion Hp as [|? ? Hk Hp']; subst.
  inversion Hp' as [|? ? Hv _]; subst.
  destruct (Text.includes "SECRET" key) eqn:Hs; cbn [negb andb].
  { split; cbn; [assumption | apply incl_appl; assumption]. }
  destruct (Text.includes "KEY" key) eqn:Hy; cbn [negb].
  { split; cbn; [assumption | apply incl_appl; assumption]. }
  split; cbn.
  - apply Forall_app; split; [assumption|].
    constructor; [|constructor].
    unfold exportable; cbn [fst snd].
    repeat split.
    + destruct (Text.includes "SECRET" (Text.trim key)) eqn:E;
        [|reflexivity].
      apply includes_trim in E. congruence.
    + destruct (Text.includes "KEY" (Text.trim key)) eqn:E;
        [|reflexivity].
      apply includes_trim in E. congruence.
    + apply has_char_trim; assumption.
    + apply has_char_trim; assumption.
    + apply trim_idem.
    + apply trim_idem.
  - apply incl_app; [apply incl_appl; assumption|].
    apply incl_appr, incl_refl.
Qed.

Lemma fold_load_ok (lines : list string) (acc : EnvFile.Loaded) :
  loaded_ok acc -> loaded_ok (fold_left EnvFile.load_line lines acc).
Proof.
  revert acc; induction lines as [|l ls IH]; intros acc H; [exact H|].
  cbn. apply IH, load_line_ok, H.
Qed.

(* ------------------------------------------------------------------ *)
(** ** The pieces of a split *)

Lemma split_piece (sep : ascii) (a t : string) :
  Text.has_char sep a = false ->
  Text.split sep (append a (String sep t)) = a :: Text.split sep t.
Proof.
  induction a as [|c a IH]; intros H.
  - cbn. rewrite Ascii.eqb_refl. reflexivity.
  - cbn in H. apply orb_false_iff in H. destruct H as [Hc Ha].
    cbn [append Text.split]. rewrite Hc. rewrite (IH Ha). reflexivity.
Qed.

Lemma split_last (sep : ascii) (a : string) :
  Text.has_char sep a = false -> Text.split sep a = [a].
Proof.
  induction a as [|c a IH]; intros H; [reflexivity|].
  cbn in H. apply orb_false_iff in H. destruct H as [Hc Ha].
  cbn [Text.split]. rewrite Hc, (IH Ha). reflexivity.
Qed.

Lemma split_inv (sep : ascii) (s a : string) (l : list string) :
  Text.split sep s = a :: l ->
  Text.has_char sep a = false
  /\ ((l = [] /\ s = a)
      \/ exists t, s = append a (String sep t) /\ Text.split sep t = l).
Proof.
  revert a l. induction s as [|c s IH]; intros a l H.
  - cbn in H. injection H as <- <-. split; [reflexivity|]. left; auto.
  - cbn [Text.split] in H. destruct (Ascii.eqb c sep) eqn:E.
    + injection H as <- <-. split; [reflexivity|]. right.
      apply Ascii.eqb_eq in E. subst c. exists s. split; reflexivity.
    + destruct (Text.split sep s) as [|piece rest] eqn:Es.
      { contradiction (split_nonempty sep s). }
      injection H as <- <-.
      destruct (IH piece rest eq_refl) as [Hp Hs].
      split; [cbn; rewrite E; exact Hp|].
      destruct Hs as [[-> ->] | (t & -> & Ht)].
      * left. split; reflexivity.
      * right. exists t. split; [reflexivity | exact Ht].
Qed.

Lemma append_nothing (s : string) : append s EmptyString = s.
Proof. induction s as [|c s IH]; cbn; [|rewrite IH]; reflexivity. Qed.

Lemma string_cons_has (c : ascii) (s : string) :
  Text.has_char c (String c s) = true.
Proof. cbn. rewrite Ascii.eqb_refl. reflexivity. Qed.

(** The first two pieces of a line are the key and the value it assigns. *)
Lemma split_assigns (line key value : string) :
  (exists more, Text.split "=" line = key :: value :: more)
  <-> assigns line key value.
Proof.
  split.
  - intros [more H].
    destruct (split_inv "=" line key _ H) as [Hk [[E _] | (t & -> & Ht)]];
      [discriminate E|].
    destruct (split_inv "=" t value _ Ht) as [Hv [[-> ->] | (r & -> & Hr)]].
    + split; [exact Hk|]. split; [exact Hv|].
      exists EmptyString. split; [|left; reflexivity].
      rewrite append_nothing. reflexivity.
    + split; [exact Hk|]. split; [exact Hv|].
      exists (String "=" r). split; [reflexivity|]. right. eauto.
  - intros (Hk & Hv & rest & -> & [-> | [r ->]]).
    + rewrite split_piece by exact Hk.
      rewrite append_nothing.
      rewrite split_last by exact Hv. exists []. reflexivity.
    + rewrite split_piece by exact Hk.
      rewrite split_piece by exact Hv. eexists. reflexivity.
Qed.

Lemma join_split (sep : ascii) (s : string) :
  join sep (Text.split sep s) = s.
Proof.
  induction s as [|c s IH]; [reflexivity|].
  cbn [Text.split]. destruct (Ascii.eqb c sep) eqn:E.
  - apply Ascii.eqb_eq in E. subst c.
    pose proof (split_nonempty sep s) as Hne.
    destruct (Text.split sep s) as [|p l]; [contradiction|].
    cbn [join] in *. cbn. rewrite IH. reflexivity.
  - pose proof (split_nonempty sep s) as Hne.
    destruct (Text.split sep s) as [|p l]; [contradiction|].
    destruct l as [|q l]; cbn [join] in *; rewrite <- IH; reflexivity.
Qed.

(* ------------------------------------------------------------------ *)
(** ** Lines that are kept *)

Lemma trim_start_empty (s : string) (c : ascii) :
  Text.trim_start s = EmptyString ->
  Text.has_char c s = true -> Text.is_space c = true.
Proof.
  induction s as [|b s IH]; intros Ht Hc; [discriminate|].
  cbn [Text.trim_start] in Ht. destruct (Text.is_space b) eqn:Eb;
    [|discriminate].
  cbn in Hc. apply orb_true_iff in Hc. destruct Hc as [Hc | Hc].
  - apply Ascii.eqb_eq in Hc. subst c. exact Eb.
  - apply IH; assumption.
Qed.

Lemma trim_truthy (s : string) (c : ascii) :
  Text.has_char c s = true -> Text.is_space c = false ->
  Text.truthy (Text.trim s) = true.
Proof.
  intros Hc Hs. unfold Text.trim.
  destruct (trim_start_head s) as [E | (b & t & E & Hb)].
  - rewrite (trim_start_empty s c E Hc) in Hs. discriminate.
  - rewrite E. destruct (trim_end_head b t Hb) as [u ->]. reflexivity.
Qed.

Lemma truthy_iff (s : string) : Text.truthy s = true <-> s <> EmptyString.
Proof.
  destruct s; cbn; split; intros H; try discriminate; auto.
Qed.

(* ------------------------------------------------------------------ *)
(** ** What the loader exports *)

(** What one line adds to the exported variables. *)
Lemma load_line_exported (acc : EnvFile.Loaded) (line : string)
    (kv : string * string) :
  In kv (EnvFile.exported (EnvFile.load_line acc line))
  <-> In kv (EnvFile.exported acc)
      \/ exists key value,
           assigns line key value
           /\ key <> EmptyString /\ value <> EmptyString
           /\ Text.includes "SECRET" key = false
           /\ Text.includes "KEY" key = false
           /\ kv = (Text.trim key, Text.trim value).
Proof.
  unfold EnvFile.load_line.
  destruct (Text.split "=" line) as [|key [|value more]] eqn:Es.
  - contradiction (split_nonempty "=" line).
  - split; [auto|]. intros [H | (k & v & Ha & _)]; [exact H|].
    apply split_assigns in Ha. destruct Ha as [m Hm].
    rewrite Es in Hm. discriminate.
  - assert (Ha : assigns line key value)
      by (apply split_assigns; eauto).
    assert (Huniq : forall k v, assigns line k v -> k = key /\ v = value).
    { intros k v Hkv. apply split_assigns in Hkv. destruct Hkv as [m Hm].
      rewrite Es in Hm. injection Hm as <- <- _. auto. }
    destruct (Text.truthy key) eqn:Ek; cbn [andb].
    + destruct (Text.truthy value) eqn:Ev.
      * destruct (Text.includes "SECRET" key) eqn:Hs; cbn [negb andb].
        { split; [auto|]. intros [H | (k & v & Hkv & _ & _ & Hs' & _)];
            [exact H|].
          destruct (Huniq k v Hkv) as [-> _]. congruence. }
        destruct (Text.includes "KEY" key) eqn:Hy; cbn [negb].
        { split; [auto|].
          intros [H | (k & v & Hkv & _ & _ & _ & Hy' & _)]; [exact H|].
          destruct (Huniq k v Hkv) as [-> _]. congruence. }
        cbn [EnvFile.exported]. rewrite in_app_iff. cbn [In].
        split.
        -- intros [H | [<- | []]]; [auto|]. right.
           exists key, value.
           apply truthy_iff in Ek. apply truthy_iff in Ev.
           split; [exact Ha|].
           repeat split; first [assumption | reflexivity].
        -- intros [H | (k & v & Hkv & _ & _ & _ & _ & ->)]; [auto|].
           destruct (Huniq k v Hkv) as [-> ->]. right. left. reflexivity.
      * split; [auto|]. intros [H | (k & v & Hkv & _ & Hv & _)]; [exact H|].
        destruct (Huniq k v Hkv) as [_ ->].
        apply truthy_iff in Hv. congruence.
    + split; [auto|]. intros [H | (k & v & Hkv & Hk & _)]; [exact H|].
      destruct (Huniq k v Hkv) as [-> _].
      apply truthy_iff in Hk. congruence.
Qed.

Lemma fold_load_exported (lines : list string) (kv : string * string) :
  forall acc,
    In kv (EnvFile.exported (fold_left EnvFile.load_line lines acc))
    <-> In kv (EnvFile.exported acc)
        \/ exists line key value,
             In line lines
             /\ assigns line key value
             /\ key <> EmptyString /\ value <> EmptyString
             /\ Text.includes "SECRET" key = false
             /\ Text.includes "KEY" key = false
             /\ kv = (Text.trim key, Text.trim value).
Proof.
  induction lines as [|l ls IH]; intros acc.
  - cbn. split; [auto|]. intros [H | (line & _ & _ & [] & _)]. exact H.
  - cbn [fold_left]. rewrite IH, load_line_exported. split.
    + intros [[H | (k & v & H)] | (line & k & v & Hin & H)]; [auto| |].
      * right. exists l, k, v. split; [left; reflexivity | exact H].
      * right. exists line, k, v. split; [right; exact Hin | exact H].
    + intros [H | (line & k & v & [<- | Hin] & H)]; [auto| |].
      * left. right. exists k, v. exact H.
      * right. exists line, k, v. split; assumption.
Qed.

Lemma assigns_kept (line key value : string) :
  assigns line key value ->
  EnvFile.kept line = negb (Text.startsWith "#" line).
Proof.
  intros (_ & _ & rest & -> & _). unfold EnvFile.kept.
  rewrite (trim_truthy _ "="); [reflexivity| |reflexivity].
  rewrite has_char_app. cbn. rewrite orb_true_r. reflexivity.
Qed.

Lemma load_exported (content : string) (kv : string * string) :
  In kv (EnvFile.exported (EnvFile.load content))
  <-> exported_from content kv.
Proof.
  unfold EnvFile.load, exported_from. rewrite fold_load_exported.
  cbn [EnvFile.exported In]. split.
  - intros [[] | (line & k & v & Hin & Ha & H)].
    apply filter_In in Hin. destruct Hin as [Hin Hk].
    rewrite (assigns_kept line k v Ha) in Hk.
    apply negb_true_iff in Hk.
    exists line, k, v.
    split; [exact Hin|]. split; [exact Hk|]. split; [exact Ha | exact H].
  - intros (line & k & v & Hin & Hc & Ha & H). right.
    exists line, k, v. split; [|split; assumption].
    apply filter_In. split; [exact Hin|].
    rewrite (assigns_kept line k v Ha), Hc. reflexivity.
Qed.

(** X14: whatever the [.env] file holds, the loader exports to the
    process environment exactly the variables of its lines that are not
    comments and read [key=value] with a non-empty key that includes
    neither SECRET nor KEY and a non-empty value.  The value is the text
    between the first equals sign of the line and the second, or the end
    of the line; name and value are exported without the white space
    around them and hold no equals sign, and every exported variable was
    first recorded in [envConfig].  The lines are the pieces of the
    content that the line feeds separate. *)
Theorem env_loader_withholds_secrets (content : string) :
  let loaded := EnvFile.load content in
  Forall exportable (EnvFile.exported loaded)
  /\ incl (EnvFile.exported loaded) (EnvFile.envConfig loaded)
  /\ (forall kv, In kv (EnvFile.exported loaded)
                 <-> exported_from content kv)
  /\ join Text.newline (Text.split Text.newline content) = content
  /\ Forall (fun line => Text.has_char Text.newline line = false)
            (Text.split Text.newline content).
Proof.
  cbv zeta.
  split; [|split; [|split; [|split]]].
  - apply fold_load_ok. split; [constructor | apply incl_refl].
  - apply fold_load_ok. split; [constructor | apply incl_refl].
  - apply load_exported.
  - apply join_split.
  - apply split_pieces.
Qed.

(* ------------------------------------------------------------------ *)
(** ** The server configuration of the client *)

Lemma to_ws_secure (rest : string) :
  Text.includes "http://" rest = false ->
  Config.to_ws (append "https://" rest) = append "wss://" rest.
Proof.
  intros H. unfold Config.to_ws.
  assert (E : Text.replace "https://" "wss://" (append "https://" rest)
              = append "wss://" rest).
  { destruct rest; reflexivity. }
  rewrite E.
  change (Text.replace "http://" "ws://" (append "wss://" rest))
    with (append "wss://" (Text.replace "http://" "ws://" rest)).
  rewrite includes_none_replace by exact H. reflexivity.
Qed.

Lemma to_ws_plain (rest : string) :
  Text.includes "https://" rest = false ->
  Config.to_ws (append "http://" rest) = append "ws://" rest.
Proof.
  intros H. unfold Config.to_ws.
  assert (E : Text.replace "https://" "wss://" (append "http://" rest)
              = append "http://" rest).
  { change (Text.replace "https://" "wss://" (append "http://" rest))
      with (append "http://" (Text.replace "https://" "wss://" rest)).
    rewrite includes_none_replace by exact H. reflexivity. }
  rewrite E. destruct rest; reflexivity.
Qed.

Lemma to_ws_scheme (secure : bool) (rest : string) :
  Text.includes "https://" rest = false ->
  Text.includes "http://" rest = false ->
  Config.to_ws (append (scheme secure) rest)
  = append (ws_scheme secure) rest.
Proof.
  intros H1 H2. destruct secure; [apply to_ws_secure | apply to_ws_plain];
    assumption.
Qed.

Lemma production_base (env : Config.Env) (rt : Config.Runtime) :
  production env ->
  Config.getBaseUrl env rt
  = if Config.on_render rt then EmptyString else Config.getOrigin rt.
Proof.
  intros (Hp & Hb & _). unfold Config.getBaseUrl. rewrite Hp.
  destruct (Config.VITE_API_BASE_URL env) as [url|]; [|reflexivity].
  rewrite (Hb url eq_refl). reflexivity.
Qed.

Lemma production_ws (env : Config.Env) (rt : Config.Runtime) :
  production env ->
  Config.getWebSocketUrl env rt
  = if (Config.on_render rt
        || String.eqb (Config.getBaseUrl env rt) EmptyString)%bool
    then Config.to_ws (Config.getOrigin rt)
    else append (Config.to_ws (Config.getBaseUrl env rt))
                "/functions/websocket".
Proof.
  intros (Hp & _ & Hw). unfold Config.getWebSocketUrl, Config.ws_default.
  rewrite Hp.
  destruct (Config.VITE_WS_URL env) as [url|]; [|reflexivity].
  rewrite (Hw url eq_refl). reflexivity.
Qed.

(** X15: a production client without overrides, on a page (or in a
    worker) whose origin is [https://rest] or [http://rest]: the
    WebSocket URL is the origin with [wss://], respectively [ws://], in
    place of its scheme; on a host of onrender.com the base URL is empty
    and the WebSocket URL is that origin itself, elsewhere the base URL is
    the origin and the WebSocket URL ends in [/functions/websocket]. *)
Theorem websocket_url_follows_origin
    (env : Config.Env) (rt : Config.Runtime) (secure : bool)
    (rest : string) :
  production env ->
  Config.getOrigin rt = append (scheme secure) rest ->
  Text.includes "https://" rest = false ->
  Text.includes "http://" rest = false ->
  if Config.on_render rt then
    Config.getBaseUrl env rt = EmptyString
    /\ Config.getWebSocketUrl env rt = append (ws_scheme secure) rest
  else
    Config.getBaseUrl env rt = append (scheme secure) rest
    /\ Config.getWebSocketUrl env rt
       = append (append (ws_scheme secure) rest) "/functions/websocket".
Proof.
  intros Hprod Ho H1 H2.
  rewrite (production_ws env rt Hprod), (production_base env rt Hprod).
  destruct (Config.on_render rt); cbn [orb].
  - split; [reflexivity|].
    rewrite Ho. apply to_ws_scheme; assumption.
  - rewrite Ho.
    assert (E : String.eqb (append (scheme secure) rest) EmptyString
                = false) by (destruct secure; reflexivity).
    rewrite E. split; [reflexivity|].
    rewrite to_ws_scheme by assumption. reflexivity.
Qed.

Lemma websocket_url_follows_origin_witness :
  Config.getBaseUrl (Config.mkEnv None (Some EmptyString) true)
    (Config.Worker (Config.mkLocation "https://speed.pages.dev"
                                      "speed.pages.dev"))
  = "https://speed.pages.dev"%string
  /\ Config.getWebSocketUrl (Config.mkEnv None (Some EmptyString) true)
       (Config.Worker (Config.mkLocation "https://speed.pages.dev"
                                         "speed.pages.dev"))
     = "wss://speed.pages.dev/functions/websocket"%string.
Proof.
  refine (@websocket_url_follows_origin
            (Config.mkEnv None (Some EmptyString) true)
            (Config.Worker (Config.mkLocation "https://speed.pages.dev"
                                              "speed.pages.dev"))
            true "speed.pages.dev" _ _ _ _).
  - split; [reflexivity|]. split; intros url H; [discriminate|].
    injection H as <-. reflexivity.
  - reflexivity.
  - reflexivity.
  - reflexivity.
Defined.

(* ------------------------------------------------------------------ *)
(** ** [onRequestGET]: control frames during a download *)

(** A pending [sendNext] runs to the end of the transfer from wherever
    [bytesTransferred] stands. *)
Lemma pages_resume h total C fuel (w : World Pages.Task) :
  alive w = true ->
  queue w = [Pages.SendNext total C] ->
  0 < C ->
  (chunk_count C (total - bytesTransferred (session w)) < fuel)%nat ->
  exists fs,
    Finished w (Pages.drain h fuel w) fs
    /\ Summary fs []
               (slices C (Z.max 0 (total - bytesTransferred (session w))))
               (marks_from C total (bytesTransferred (session w)))
               [total].
Proof.
  intros Ha Hq HC Hfuel.
  set (n := chunk_count C (total - bytesTransferred (session w))) in *.
  destruct (@pages_loop h total C HC n (with_queue w []))
    as [fs ([Hq' Ha' Ho'] & HS)].
  - exact Ha.
  - reflexivity.
  - reflexivity.
  - exists fs. split; [|exact HS].
    assert (E : Pages.drain h fuel w
                = Pages.drain h n
                    (invoke (Pages.sendNext h total C) (with_queue w []))).
    { unfold Pages.drain in *.
      rewrite (@drain_enough _ _ _ _ _ (S n) fuel) by
        (try lia; erewrite drain_head by exact Hq; exact Hq').
      erewrite drain_head by exact Hq. reflexivity. }
    rewrite E. split; [exact Hq' | exact Ha' | exact Ho'].
Qed.

(** X16: on [onRequestGET] a control frame that arrives while a download
    is pending cancels nothing.  After [test_complete] the remaining bytes
    and the [download_complete] frame still follow the acknowledgement;
    after [upload_start], which resets [bytesTransferred], the pending
    [sendNext] sends the whole transfer over again. *)
Theorem control_frames_do_not_cancel h total C fuel
    (w : World Pages.Task) :
  alive w = true ->
  queue w = [Pages.SendNext total C] ->
  0 < C ->
  (chunk_count C (total - bytesTransferred (session w)) < fuel)%nat ->
  (chunk_count C total < fuel)%nat ->
  (exists t fs,
      Finished w
        (Pages.drain h fuel (Pages.step h (Deliver Pages.TestComplete) w))
        (TestCompleteAck t :: fs)
      /\ Summary fs []
                 (slices C (Z.max 0 (total - bytesTransferred (session w))))
                 (marks_from C total (bytesTransferred (session w)))
                 [total])
  /\ (exists t fs,
         Finished w
           (Pages.drain h fuel (Pages.step h (Deliver Pages.UploadStart) w))
           (UploadReady t :: fs)
         /\ Summary fs [] (slices C (Z.max 0 total))
                    (marks_from C total 0) [total]).
Proof.
  intros Ha Hq HC Hf1 Hf2. split.
  - set (w1 := Pages.step h (Deliver Pages.TestComplete) w).
    assert (H1 : alive w1 = true
                 /\ queue w1 = queue w
                 /\ outbox w1 =
                    outbox w ++ [TestCompleteAck (clock h (S (reads w)))]
                 /\ bytesTransferred (session w1)
                    = bytesTransferred (session w)).
    { unfold w1. destruct w as [[ph bt st la] q o d u r wr al rg].
      cbn in Ha. subst al. run_handler. repeat split. }
    destruct H1 as (Ha1 & Hq1 & Ho1 & Hb1).
    destruct (@pages_resume h total C fuel w1 Ha1)
      as [fs ([Hq' Ha' Ho'] & HS)];
      [rewrite Hq1; exact Hq | exact HC | rewrite Hb1; exact Hf1 |].
    rewrite Hb1 in HS.
    exists (clock h (S (reads w))), fs. split; [|exact HS].
    split; [exact Hq' | exact Ha' |].
    rewrite Ho', Ho1, <- app_assoc. reflexivity.
  - set (w1 := Pages.step h (Deliver Pages.UploadStart) w).
    assert (H1 : alive w1 = true
                 /\ queue w1 = queue w
                 /\ outbox w1 =
                    outbox w ++ [UploadReady (clock h (S (S (reads w))))]
                 /\ bytesTransferred (session w1) = 0).
    { unfold w1. destruct w as [[ph bt st la] q o d u r wr al rg].
      cbn in Ha. subst al. run_handler. repeat split. }
    destruct H1 as (Ha1 & Hq1 & Ho1 & Hb1).
    destruct (@pages_resume h total C fuel w1 Ha1)
      as [fs ([Hq' Ha' Ho'] & HS)];
      [rewrite Hq1; exact Hq | exact HC
       | rewrite Hb1, Z.sub_0_r; exact Hf2 |].
    rewrite Hb1, Z.sub_0_r in HS.
    exists (clock h (S (S (reads w)))), fs. split; [|exact HS].
    split; [exact Hq' | exact Ha' |].
    rewrite Ho', Ho1, <- app_assoc. reflexivity.
Qed.

Lemma control_frames_do_not_cancel_witness :
  let w := Pages.step host0
             (Deliver (Pages.DownloadStart (Some 300) (Some 100)))
             (fresh Pages.Task (Some 0)) in
  (exists t fs,
      Finished w
        (Pages.drain host0 5
           (Pages.step host0 (Deliver Pages.TestComplete) w))
        (TestCompleteAck t :: fs)
      /\ Summary fs [] [100; 100] [(300, 300)] [300])
  /\ (exists t fs,
         Finished w
           (Pages.drain host0 5
              (Pages.step host0 (Deliver Pages.UploadStart) w))
           (UploadReady t :: fs)
         /\ Summary fs [] [100; 100; 100] [(300, 300)] [300]).
Proof.
  cbv zeta.
  refine (@control_frames_do_not_cancel host0 300 100 5
            (Pages.step host0
               (Deliver (Pages.DownloadStart (Some 300) (Some 100)))
               (fresh Pages.Task (Some 0))) _ _ _ _ _);
    first [ reflexivity | vm_compute; lia ].
Defined.
